(** * ADio_Utils: the command codec of the ADio host driver

    A shallow embedding of [ADio_Utils.py]: the 10-character frame
    formatter [_fmt_cmd], the channel-selector normalisation, every [cmd_*]
    command run against an explicit transport state, the reply parser of
    the GPIO read, and the two numeric helpers (PWM duty code, ADC
    voltage).

    Conventions.  Python ints are [Z].  A Python [str] built by the module
    is a [string]; a [bytes] reply is a [string] too (one character per
    byte) and its decoded text is a list of code points.  Python floats
    are the kernel's binary64 [float], so float arithmetic rounds as it
    does in Python.  A raised exception is the [Err] case of [result];
    commands that touch the FTDI handle run in the state-and-error monad
    [M] over [handle].

    Left out: opening, configuring, listing and flushing the FTDI device
    ([open_ftdi], [list_ftdi_serials], [flush_input_buffer], [read_exact]),
    the clock and polling inside [_readline], and everything [print]
    shows. *)

From Stdlib Require Import ZArith List String Ascii Bool Lia.
From Stdlib Require Import Floats.
From Stdlib Require Import Sorted.
Import ListNotations.

Open Scope string_scope.
Open Scope Z_scope.

(** ** Exceptions and results *)

(** The exception classes the module raises.  A [ValueError] carries a short
    ASCII tag naming the check that raised it (the source's messages are
    Japanese prose). *)
Inductive exn : Type :=
| ValueError (tag : string)
| RuntimeError (tag : string)
| OverflowError
| ZeroDivisionError.

Inductive result (A : Type) : Type :=
| Ok (a : A)
| Err (e : exn).

Arguments Ok {A} a.
Arguments Err {A} e.

Definition rbind {A B} (r : result A) (k : A -> result B) : result B :=
  match r with
  | Ok a => k a
  | Err e => Err e
  end.

Notation "x <- r ;; k" := (rbind r (fun x => k))
  (at level 61, r at next level, right associativity).

Definition is_value_error {A} (r : result A) : bool :=
  match r with
  | Err (ValueError _) => true
  | _ => false
  end.

(** ** Hexadecimal formatting: Python's format specs [X], [02X], [04X], [08X] *)

Definition hex_char (d : Z) : ascii :=
  match d with
  | 0 => "0" | 1 => "1" | 2 => "2" | 3 => "3"
  | 4 => "4" | 5 => "5" | 6 => "6" | 7 => "7"
  | 8 => "8" | 9 => "9" | 10 => "A" | 11 => "B"
  | 12 => "C" | 13 => "D" | 14 => "E" | _ => "F"
  end%char.

(** The digits of a non-negative [n], most significant first, no leading
    zero; [fuel] bounds the number of digits. *)
Fixpoint hex_digits (fuel : nat) (n : Z) : string :=
  match fuel with
  | O => ""
  | S f =>
      if n <? 16 then String (hex_char n) ""
      else hex_digits f (n / 16) ++ String (hex_char (n mod 16)) ""
  end.

Definition hex_upper (n : Z) : string :=
  hex_digits (S (Z.to_nat (Z.log2 n))) n.

Fixpoint zeros (k : nat) : string :=
  match k with
  | O => ""
  | S k' => String "0" (zeros k')
  end.

Definition zfill (width : nat) (s : string) : string :=
  zeros (width - String.length s) ++ s.

(** [format_X w n] is [format(n, "0{w}X")]: uppercase hexadecimal, zero
    padded to [w] characters, the sign (if any) counted in the width.
    [format_X 0 n] is the unpadded [format(n, "X")]. *)
Definition format_X (width : nat) (n : Z) : string :=
  if n <? 0 then String "-" (zfill (width - 1) (hex_upper (- n)))
  else zfill width (hex_upper n).

(** ** The frame formatter *)

Definition _fmt_cmd (C : string) (HH E DDDD : Z) : result string :=
  let s := "*" ++ C ++ format_X 2 HH ++ format_X 0 E ++ format_X 4 DDDD ++ "#" in
  if negb (Nat.eqb (String.length s) 10)
  then Err (RuntimeError "cmd length != 10")
  else Ok s.

(** The character classes of the wire format. *)
Definition is_upper_hex (c : ascii) : bool :=
  let n := nat_of_ascii c in
  ((48 <=? n) && (n <=? 57))%nat || ((65 <=? n) && (n <=? 70))%nat.

(** [*[0-9A-F][0-9A-F]{2}[0-9A-F][0-9A-F]{4}#], anchored at both ends. *)
Definition frame_pattern (s : string) : bool :=
  match list_ascii_of_string s with
  | [star; c; h1; h2; e; d1; d2; d3; d4; hash] =>
      Ascii.eqb star "*" && forallb is_upper_hex [c; h1; h2; e; d1; d2; d3; d4]
      && Ascii.eqb hash "#"
  | _ => false
  end.

(** ** Sampling-rate lookup *)

(** [list.index]: the position of the first occurrence, [ValueError] when absent. *)
Fixpoint py_index (x : Z) (l : list Z) : result Z :=
  match l with
  | [] => Err (ValueError "x not in list")
  | y :: l' => if x =? y then Ok 0 else i <- py_index x l' ;; Ok (i + 1)
  end.

Definition get_sampling_command (fs_ksps target : Z) : result string :=
  let allowed := [1; 2; 4; 8; 16; 32; 64; 128; 256] in
  if negb (existsb (Z.eqb fs_ksps) allowed)
  then Err (ValueError "Unsupported fs_ksps")
  else
    let base := if target =? 0 then Some 0x00000000
                else if target =? 1 then Some 0x00100000 else None in
    match base with
    | None => Err (ValueError "target must be 0 or 1")
    | Some base =>
        index <- py_index fs_ksps allowed ;;
        Ok ("*" ++ format_X 8 (base + index) ++ "#")
    end.


(** ** Channel selectors *)

(** What a caller may pass where the source takes
    [Union[str, int, Iterable[int]]]: Python checks nothing statically, so
    every shape is an input. *)
Inductive item : Type :=
| ItemInt (n : Z)     (* an element [x] with [int(x) = n] *)
| ItemBad.            (* an element on which [int(x)] raises *)

Inductive selector : Type :=
| SelStr (s : string)        (* a [str] of characters up to U+00FF, one per [ascii] *)
| SelInt (n : Z)             (* an [int]; [True] and [False] are 1 and 0 *)
| SelIter (xs : list item)   (* any other iterable, by its elements *)
| SelOther.                  (* not iterable: [None], a float, ... *)

(** A [str] with a character above U+00FF is not a [SelStr].  Its lower
    case is never "all" (no such character lower-cases to an ASCII
    letter a or l), so the code walks it as it walks any iterable: it is
    the [SelIter] of its characters, a Unicode decimal digit of value d
    being [ItemInt d] and any other character [ItemBad]. *)

(** [str.lower] on the ASCII letters; the characters U+0080..U+00FF are
    left as they are, which does not change a comparison with an ASCII
    literal (their lower case is again above U+007F). *)
Definition ascii_lower (c : ascii) : ascii :=
  let n := nat_of_ascii c in
  if ((65 <=? n) && (n <=? 90))%nat then ascii_of_nat (n + 32) else c.

Fixpoint str_lower (s : string) : string :=
  match s with
  | EmptyString => EmptyString
  | String c s' => String (ascii_lower c) (str_lower s')
  end.

(** Iterating a [str] yields its characters; [int(c)] succeeds on a decimal
    digit.  Up to U+00FF the decimal digits are 0-9 (the superscripts and
    fractions of Latin-1 are no decimal digits, [int] rejects them). *)
Definition item_of_char (c : ascii) : item :=
  let n := nat_of_ascii c in
  if ((48 <=? n) && (n <=? 57))%nat then ItemInt (Z.of_nat n - 48) else ItemBad.

Fixpoint ints_of_items (xs : list item) : option (list Z) :=
  match xs with
  | [] => Some []
  | ItemInt n :: xs' =>
      match ints_of_items xs' with
      | Some l => Some (n :: l)
      | None => None
      end
  | ItemBad :: _ => None
  end.

(** [sorted(set(l))]: ascending, without repeats. *)
Fixpoint insert_uniq (x : Z) (l : list Z) : list Z :=
  match l with
  | [] => [x]
  | y :: l' =>
      if x <? y then x :: y :: l'
      else if x =? y then y :: l'
      else y :: insert_uniq x l'
  end.

Definition sorted_set (l : list Z) : list Z :=
  fold_right insert_uniq [] l.

(** [list(range(n))] *)
Definition py_range (n : Z) : list Z :=
  map Z.of_nat (seq 0 (Z.to_nat n)).

(** The range loop of [_normalize_channels]: the first offender raises. *)
Fixpoint check_channels (max_ch : Z) (lst : list Z) : result unit :=
  match lst with
  | [] => Ok tt
  | c :: rest =>
      if negb ((0 <=? c) && (c <=? max_ch))
      then Err (ValueError "CH out of range")
      else check_channels max_ch rest
  end.

Definition _normalize_channels (chs : selector) (max_ch : Z) : result (list Z) :=
  let convert (xs : option (list item)) :=
    match xs with
    | None => Err (ValueError "CH spec")
    | Some xs =>
        match ints_of_items xs with
        | None => Err (ValueError "CH spec")
        | Some l =>
            let lst := sorted_set l in
            _ <- check_channels max_ch lst ;;
            Ok lst
        end
    end in
  match chs with
  | SelStr s =>
      if String.eqb (str_lower s) "all" then Ok (py_range (max_ch + 1))
      else convert (Some (map item_of_char (list_ascii_of_string s)))
  | SelInt n => convert (Some [ItemInt n])
  | SelIter xs => convert (Some xs)
  | SelOther => convert None
  end.

(** [1 << ch]; Python raises [ValueError] on a negative shift count. *)
Definition py_shl1 (ch : Z) : result Z :=
  if ch <? 0 then Err (ValueError "negative shift count")
  else Ok (Z.shiftl 1 ch).

Fixpoint mask_loop (m : Z) (ch_list : list Z) : result Z :=
  match ch_list with
  | [] => Ok m
  | ch :: rest => b <- py_shl1 ch ;; mask_loop (Z.lor m b) rest
  end.

Definition _mask_from_channels (ch_list : list Z) : result Z :=
  mask_loop 0 ch_list.

(** A list of ints handed on as a selector (an iterable of ints). *)
Definition sel_of_list (l : list Z) : selector := SelIter (map ItemInt l).

(** ** The transport

    The FTDI handle is the external collaborator.  Its state here is what
    the protocol layer can observe of it: the byte strings written so far,
    oldest first, and the lines [_readline] will return, one per call (an
    empty line when the device stays silent until the timeout).  The
    polling and the clock of [_readline] are not modelled, and neither is
    what [print] shows. *)
Record handle : Type := mkHandle {
  written : list string;
  pending : list string
}.

Definition M (A : Type) : Type := handle -> handle * result A.

Definition ret {A} (a : A) : M A := fun h => (h, Ok a).
Definition raise {A} (e : exn) : M A := fun h => (h, Err e).
Definition lift {A} (r : result A) : M A := fun h => (h, r).

Definition bind {A B} (c : M A) (k : A -> M B) : M B :=
  fun h =>
    match c h with
    | (h', Ok a) => k a h'
    | (h', Err e) => (h', Err e)
    end.

Notation "x <~ c ;; k" := (bind c (fun x => k))
  (at level 61, c at next level, right associativity).

(** A [for] loop that collects one value per element. *)
Fixpoint for_each {A B} (body : A -> M B) (l : list A) : M (list B) :=
  match l with
  | [] => ret []
  | a :: l' =>
      b <~ body a ;;
      bs <~ for_each body l' ;;
      ret (b :: bs)
  end.

(** [s.encode("ascii", errors="ignore")] *)
Fixpoint encode_ascii_ignore (s : string) : string :=
  match s with
  | EmptyString => EmptyString
  | String c s' =>
      if (nat_of_ascii c <? 128)%nat then String c (encode_ascii_ignore s')
      else encode_ascii_ignore s'
  end.

Definition _write_ascii (s : string) : M unit :=
  fun h => (mkHandle (written h ++ [encode_ascii_ignore s]) (pending h), Ok tt).

Definition _readline : M string :=
  fun h =>
    match pending h with
    | [] => (h, Ok "")
    | line :: rest => (mkHandle (written h) rest, Ok line)
    end.

Definition _send_and_read_one_line (cmd : string) : M string :=
  _ <~ _write_ascii cmd ;;
  resp <~ _readline ;;
  ret resp.

Definition in_range (lo x hi : Z) : bool := (lo <=? x) && (x <=? hi).

(** ** ADC commands (C = 1, 4)

    The [print_response] argument of every command only selects what is
    printed; it is left out. *)

Definition cmd_set_chunk_size (ch chunk_size : Z) : M string :=
  if negb (in_range 0 ch 0x0F) then raise (ValueError "CH 0..15")
  else if negb (in_range 0 chunk_size 0x07FF) then raise (ValueError "CHUNK_SIZE 0..2047")
  else
    cmd <~ lift (_fmt_cmd "1" ch 0x0 chunk_size) ;;
    _ <~ _send_and_read_one_line cmd ;;
    ret cmd.

Definition cmd_start_accumulation : M string :=
  cmd <~ lift (_fmt_cmd "4" 0x00 0x2 0x0000) ;;
  _ <~ _send_and_read_one_line cmd ;;
  ret cmd.

Definition cmd_set_chunk_num (ch chunk_num : Z) : M string :=
  if negb (in_range 0 ch 0x0F) then raise (ValueError "CH 0..15")
  else if negb (in_range 1 chunk_num 0x10000) then raise (ValueError "CHUNK_NUM 1..65536")
  else
    let field := Z.land (chunk_num - 1) 0xFFFF in
    cmd <~ lift (_fmt_cmd "4" ch 0x1 field) ;;
    _ <~ _send_and_read_one_line cmd ;;
    ret cmd.

Definition cmd_stop_accumulation : M string :=
  cmd <~ lift (_fmt_cmd "4" 0x00 0x3 0x0000) ;;
  _ <~ _send_and_read_one_line cmd ;;
  ret cmd.

Definition cmd_adc_single_sample (ch : Z) : M string :=
  if negb (in_range 0 ch 0x0F) then raise (ValueError "CH 0..15")
  else
    cmd <~ lift (_fmt_cmd "4" ch 0x0 0x0000) ;;
    _ <~ _write_ascii cmd ;;
    resp <~ _readline ;;
    ret resp.

(** The one command that reads no reply. *)
Definition cmd_adc_chunk_request (ch chunk_size : Z) : M string :=
  if negb (in_range 0 ch 0x0F) then raise (ValueError "CH 0..15")
  else if negb (in_range 0 chunk_size 0x07FF) then raise (ValueError "chunk_size 0..2047")
  else
    cmd <~ lift (_fmt_cmd "4" ch 0x1 chunk_size) ;;
    _ <~ _write_ascii cmd ;;
    ret cmd.

(** ** DAC commands (C = 6, 7, 8, 5) *)

Definition cmd_set_ldac (level : Z) : M string :=
  if negb ((level =? 0) || (level =? 1)) then raise (ValueError "LDAC level 0 or 1")
  else
    cmd <~ lift (_fmt_cmd "7" 0x00 0x0 (Z.land level 0x000F)) ;;
    _ <~ _send_and_read_one_line cmd ;;
    ret cmd.

Fixpoint ldac_mask_loop (mask : Z) (channels : list Z) : result Z :=
  match channels with
  | [] => Ok mask
  | ch :: rest =>
      if negb (in_range 0 ch 7) then Err (ValueError "CH 0..7")
      else b <- py_shl1 ch ;; ldac_mask_loop (Z.lor mask b) rest
  end.

Definition ldac_mask_from_channels (channels : list Z) : result Z :=
  mask <- ldac_mask_loop 0 channels ;;
  Ok (Z.land mask 0xFF).

Definition cmd_set_ldac_mask (mask : Z) : M string :=
  if negb (in_range 0x00 mask 0xFF) then raise (ValueError "mask 0x00..0xFF")
  else
    let dddd := Z.land mask 0xFF in
    cmd <~ lift (_fmt_cmd "8" 0x00 0x0 dddd) ;;
    _ <~ _send_and_read_one_line cmd ;;
    ret cmd.

Definition cmd_dac_set_data (ch value : Z) : M string :=
  if negb (in_range 0 ch 8) then raise (ValueError "DAC CH 0..8")
  else if negb (in_range 0x0000 value 0xFFFF) then raise (ValueError "value 0x0000..0xFFFF")
  else
    cmd <~ lift (_fmt_cmd "6" ch 0x1 value) ;;
    _ <~ _send_and_read_one_line cmd ;;
    ret cmd.

Definition cmd_dac_immediate_out (ch value : Z) : M string :=
  if negb (in_range 0 ch 8) then raise (ValueError "DAC CH 0..8")
  else if negb (in_range 0x0000 value 0xFFFF) then raise (ValueError "value 0x0000..0xFFFF")
  else
    cmd <~ lift (_fmt_cmd "6" ch 0x3 value) ;;
    _ <~ _send_and_read_one_line cmd ;;
    ret cmd.

Definition cmd_set_opamp_gain (ch gain_code : Z) : M string :=
  if negb (in_range 0 ch 0x0F) then raise (ValueError "CH 0..15")
  else if negb (existsb (Z.eqb gain_code) [0; 1; 2; 3; 4]) then raise (ValueError "gain_code 0..4")
  else
    cmd <~ lift (_fmt_cmd "5" ch 0x0 (Z.land gain_code 0x000F)) ;;
    _ <~ _send_and_read_one_line cmd ;;
    ret cmd.

(** ** GPIO, PWM and encoder commands (C = 9, A, B, C, D, E) *)

Definition cmd_set_gpio_dir (active_channels input_channels : selector) : M string :=
  act <~ lift (_normalize_channels active_channels 7) ;;
  ins <~ lift (_normalize_channels input_channels 7) ;;
  m1 <~ lift (_mask_from_channels act) ;;
  let hh := Z.land m1 0xFF in
  m2 <~ lift (_mask_from_channels ins) ;;
  let dddd := Z.land m2 0xFFFF in
  cmd <~ lift (_fmt_cmd "9" hh 0x0 dddd) ;;
  _ <~ _send_and_read_one_line cmd ;;
  ret cmd.

Definition cmd_set_gpio_pwm_mode (active_channels pwm_channels : selector) : M string :=
  act <~ lift (_normalize_channels active_channels 7) ;;
  pwm <~ lift (_normalize_channels pwm_channels 7) ;;
  _ <~ cmd_set_gpio_dir (sel_of_list act) (SelIter []) ;;
  m1 <~ lift (_mask_from_channels act) ;;
  let hh := Z.land m1 0xFF in
  m2 <~ lift (_mask_from_channels
                (filter (fun c => existsb (Z.eqb c) act) pwm)) ;;
  let dd := Z.land m2 0xFFFF in
  cmd <~ lift (_fmt_cmd "A" hh 0x0 dd) ;;
  _ <~ _send_and_read_one_line cmd ;;
  ret cmd.

Definition cmd_set_encoder_mode (channels : selector) : M string :=
  chs <~ lift (_normalize_channels channels 3) ;;
  m <~ lift (_mask_from_channels chs) ;;
  let hh := Z.land m 0xFF in
  _ <~ cmd_set_gpio_dir (sel_of_list chs) (sel_of_list chs) ;;
  fixed <~ lift (_fmt_cmd "A" hh 0x0 0x0000) ;;
  _ <~ _send_and_read_one_line fixed ;;
  cmd <~ lift (_fmt_cmd "A" hh 0x1 0x0000) ;;
  _ <~ _send_and_read_one_line cmd ;;
  ret cmd.

Definition _norm_enc_ch (ch : selector) : result (list Z) :=
  match ch with
  | SelStr s =>
      if String.eqb (str_lower s) "all" then Ok [0; 1; 2; 3]
      else Err (ValueError "encoder CH 0..3 or all")
  | SelInt n =>
      if in_range 0 n 3 then Ok [n]
      else Err (ValueError "encoder CH 0..3 or all")
  | _ => Err (ValueError "encoder CH 0..3 or all")
  end.

Definition _hh_from_single_ch (ch : Z) : Z := Z.land ch 0xFF.

Definition cmd_encoder_preset_hi (ch : selector) (value16 : Z) : M (list string) :=
  if negb (in_range 0x0000 value16 0xFFFF) then raise (ValueError "value16 0x0000..0xFFFF")
  else
    chs <~ lift (_norm_enc_ch ch) ;;
    for_each (fun c =>
      cmd <~ lift (_fmt_cmd "A" (_hh_from_single_ch c) 0x2 value16) ;;
      _ <~ _send_and_read_one_line cmd ;;
      ret cmd) chs.

Definition cmd_encoder_preset_lo (ch : selector) (value16 : Z) : M (list string) :=
  if negb (in_range 0x0000 value16 0xFFFF) then raise (ValueError "value16 0x0000..0xFFFF")
  else
    chs <~ lift (_norm_enc_ch ch) ;;
    for_each (fun c =>
      cmd <~ lift (_fmt_cmd "A" (_hh_from_single_ch c) 0x3 value16) ;;
      _ <~ _send_and_read_one_line cmd ;;
      ret cmd) chs.

Definition cmd_encoder_preset_32 (ch : selector) (value32 : Z) : M (list string) :=
  if negb (in_range 0x00000000 value32 0xFFFFFFFF)
  then raise (ValueError "value32 0x00000000..0xFFFFFFFF")
  else
    let hi := Z.land (Z.shiftr value32 16) 0xFFFF in
    let lo := Z.land value32 0xFFFF in
    c1 <~ cmd_encoder_preset_hi ch hi ;;
    c2 <~ cmd_encoder_preset_lo ch lo ;;
    ret (c1 ++ c2)%list.

(** [dir_invert] is [None], [True] or [False]; only [True] sets bit 0. *)
Definition cmd_encoder_ctrl (channels : selector) (dir_invert : option bool)
    (do_reset load_preset : bool) : M (list string) :=
  if do_reset && load_preset then raise (ValueError "do_reset and load_preset together")
  else
    chs <~ lift (_normalize_channels channels 3) ;;
    for_each (fun ch =>
      let d := 0x0000 in
      let d := match dir_invert with
               | Some true => Z.lor d (Z.shiftl 1 0)
               | Some false => Z.lor d 0
               | None => d
               end in
      let d := if do_reset then Z.lor d (Z.shiftl 1 1) else d in
      let d := if load_preset then Z.lor d (Z.shiftl 1 2) else d in
      cmd <~ lift (_fmt_cmd "A" (_hh_from_single_ch ch) 0x4 d) ;;
      _ <~ _send_and_read_one_line cmd ;;
      ret cmd) chs.

Definition cmd_encoder_dir_invert (channels : selector) (invert : bool) : M (list string) :=
  cmd_encoder_ctrl channels (Some invert) false false.

Definition cmd_encoder_count_reset (channels : selector) : M (list string) :=
  cmd_encoder_ctrl channels None true false.

Definition cmd_encoder_load_preset (channels : selector) : M (list string) :=
  cmd_encoder_ctrl channels None false true.

(** The data field of a PWM frequency, decided inside the channel loop. *)
Definition pwm_freq_field (freq_hz : Z) : result Z :=
  if in_range 0 freq_hz 4095 then Ok freq_hz
  else if (freq_hz mod 1000 =? 0) && in_range 0 (freq_hz / 1000) 97
       then Ok (0x8000 + freq_hz / 1000)
       else Err (ValueError "freq 0..4095Hz or 0..97kHz in 1kHz steps").

Definition cmd_pwm_set_frequency (channels : selector) (freq_hz : Z) : M (list string) :=
  if freq_hz <? 0 then raise (ValueError "freq_hz >= 0")
  else
    chs <~ lift (_normalize_channels channels 7) ;;
    for_each (fun ch =>
      dddd <~ lift (pwm_freq_field freq_hz) ;;
      cmd <~ lift (_fmt_cmd "B" ch 0x0 dddd) ;;
      _ <~ _send_and_read_one_line cmd ;;
      ret cmd) chs.

Definition cmd_pwm_set_data_raw (channels : selector) (dddd : Z) : M (list string) :=
  if negb (in_range 0x0000 dddd 0x03FF) then raise (ValueError "DDDD 0x0000..0x03FF")
  else
    chs <~ lift (_normalize_channels channels 7) ;;
    for_each (fun ch =>
      cmd <~ lift (_fmt_cmd "C" ch 0x0 dddd) ;;
      _ <~ _send_and_read_one_line cmd ;;
      ret cmd) chs.

Definition cmd_gpio_write (value : Z) : M string :=
  if negb (in_range 0x00 value 0xFF) then raise (ValueError "value 0x00..0xFF")
  else
    cmd <~ lift (_fmt_cmd "E" 0x00 0x0 (Z.land value 0x00FF)) ;;
    _ <~ _send_and_read_one_line cmd ;;
    ret cmd.

Definition cmd_gpio_write_mask (high_channels : selector) : M string :=
  chs <~ lift (_normalize_channels high_channels 7) ;;
  mask <~ lift (mask_loop 0 chs) ;;
  cmd_gpio_write (Z.land mask 0xFF).

Definition cmd_reset (mode : string) : M string :=
  if negb (String.eqb mode "all" || String.eqb mode "adc") then raise (ValueError "mode all or adc")
  else
    let dddd := if String.eqb mode "all" then 0x0000 else 0x0001 in
    cmd <~ lift (_fmt_cmd "F" 0x00 0x0 dddd) ;;
    _ <~ _send_and_read_one_line cmd ;;
    ret cmd.

Definition cmd_reset_all : M string := cmd_reset "all".
Definition cmd_reset_adc_tx : M string := cmd_reset "adc".

(** The request and the reply of the encoder status read.  The best-effort
    parse of the reply into a dict sits in a [try]/[except] that swallows
    every failure and changes neither the transport nor the outcome; only
    the raw reply is kept here. *)
Definition cmd_encoder_status_read (channel : Z) : M string :=
  if negb (in_range 0 channel 3) then raise (ValueError "channel 0..3")
  else
    cmd <~ lift (_fmt_cmd "D" channel 0x1 0x0000) ;;
    _ <~ _write_ascii cmd ;;
    resp <~ _readline ;;
    ret resp.


(** ** The GPIO read and its reply parser

    A reply is a byte string; its decoded text is a sequence of Unicode
    code points.  Upper-casing of the code points above 127 follows the
    Unicode tables of the interpreter, which are not part of this module:
    they are the parameter [unicode_upper] (one code point may map to
    several, as the ligature U+FB00 does to two letters F). *)

Definition bytes_of (s : string) : list Z :=
  map (fun c => Z.of_nat (nat_of_ascii c)) (list_ascii_of_string s).

Definition is_cont (b : Z) : bool := (0x80 <=? b) && (b <? 0xC0).

(** [bytes.decode(errors="ignore")] with the default UTF-8 codec: an
    invalid start byte is dropped, an ill-formed sequence is dropped up to
    the offending byte, a sequence cut short by the end of the data is
    dropped whole. *)
Fixpoint decode_utf8_ignore (bs : list Z) : list Z :=
  match bs with
  | [] => []
  | b :: rest =>
      if b <? 0x80 then b :: decode_utf8_ignore rest
      else if b <? 0xC2 then decode_utf8_ignore rest
      else if b <? 0xE0 then
        match rest with
        | [] => []
        | b2 :: r2 =>
            if is_cont b2
            then Z.lor (Z.shiftl (Z.land b 0x1F) 6) (Z.land b2 0x3F)
                 :: decode_utf8_ignore r2
            else decode_utf8_ignore rest
        end
      else if b <? 0xF0 then
        match rest with
        | [] => []
        | b2 :: r2 =>
            if negb (is_cont b2) || (if b2 <? 0xA0 then b =? 0xE0 else b =? 0xED)
            then decode_utf8_ignore rest
            else
              match r2 with
              | [] => []
              | b3 :: r3 =>
                  if is_cont b3
                  then Z.lor (Z.shiftl (Z.land b 0x0F) 12)
                         (Z.lor (Z.shiftl (Z.land b2 0x3F) 6) (Z.land b3 0x3F))
                       :: decode_utf8_ignore r3
                  else decode_utf8_ignore r2
              end
        end
      else if b <? 0xF5 then
        match rest with
        | [] => []
        | b2 :: r2 =>
            if negb (is_cont b2) || (if b2 <? 0x90 then b =? 0xF0 else b =? 0xF4)
            then decode_utf8_ignore rest
            else
              match r2 with
              | [] => []
              | b3 :: r3 =>
                  if negb (is_cont b3) then decode_utf8_ignore r2
                  else
                    match r3 with
                    | [] => []
                    | b4 :: r4 =>
                        if is_cont b4
                        then Z.lor (Z.shiftl (Z.land b 0x07) 18)
                               (Z.lor (Z.shiftl (Z.land b2 0x3F) 12)
                                  (Z.lor (Z.shiftl (Z.land b3 0x3F) 6) (Z.land b4 0x3F)))
                             :: decode_utf8_ignore r4
                        else decode_utf8_ignore r3
                    end
              end
        end
      else decode_utf8_ignore rest
  end.

(** [str.isspace] of one code point. *)
Definition is_space (c : Z) : bool :=
  in_range 0x09 c 0x0D || in_range 0x1C c 0x20 || (c =? 0x85) || (c =? 0xA0)
  || (c =? 0x1680) || in_range 0x2000 c 0x200A || (c =? 0x2028) || (c =? 0x2029)
  || (c =? 0x202F) || (c =? 0x205F) || (c =? 0x3000).

Fixpoint lstrip (s : list Z) : list Z :=
  match s with
  | [] => []
  | c :: s' => if is_space c then lstrip s' else s
  end.

Definition str_strip (s : list Z) : list Z := rev (lstrip (rev (lstrip s))).

(** The characters of the literal ["0123456789ABCDEF"]. *)
Definition is_hex_upper_cp (c : Z) : bool := in_range 48 c 57 || in_range 65 c 70.

(** [s[-2:]] *)
Definition last_two (s : list Z) : list Z := skipn (List.length s - 2)%nat s.

Definition hex_value (c : Z) : option Z :=
  if in_range 48 c 57 then Some (c - 48)
  else if in_range 65 c 70 then Some (c - 55)
  else if in_range 97 c 102 then Some (c - 87)
  else None.

Fixpoint int16_loop (acc : Z) (s : list Z) : result Z :=
  match s with
  | [] => Ok acc
  | c :: s' =>
      match hex_value c with
      | Some d => int16_loop (16 * acc + d) s'
      | None => Err (ValueError "invalid literal for int() with base 16")
      end
  end.

(** [int(s, 16)] on a plain run of hexadecimal digits, the only shape the
    module passes; anything else is rejected. *)
Definition py_int16 (s : list Z) : result Z :=
  match s with
  | [] => Err (ValueError "invalid literal for int() with base 16")
  | _ => int16_loop 0 s
  end.

Section ReplyText.

Variable unicode_upper : Z -> list Z.

(** [str.upper] *)
Definition str_upper (s : list Z) : list Z :=
  flat_map (fun c =>
    if in_range 97 c 122 then [c - 32]
    else if c <? 128 then [c]
    else unicode_upper c) s.

(** The hexadecimal characters the scan of [cmd_gpio_read] finds in a reply. *)
Definition gpio_reply_hex (resp : string) : list Z :=
  let txt := match resp with
             | EmptyString => []
             | _ => str_upper (str_strip (decode_utf8_ignore (bytes_of resp)))
             end in
  filter is_hex_upper_cp txt.

(** The body of the [try]; the [except] keeps the value at -1. *)
Definition gpio_read_value (resp : string) : Z :=
  let value := -1 in
  let attempt :=
    let hx := gpio_reply_hex resp in
    if (2 <=? List.length hx)%nat then py_int16 (last_two hx) else Ok value in
  match attempt with
  | Ok v => v
  | Err _ => value
  end.

Definition cmd_gpio_read : M (string * Z * string) :=
  cmd <~ lift (_fmt_cmd "D" 0x00 0x0 0x0000) ;;
  _ <~ _write_ascii cmd ;;
  resp <~ _readline ;;
  ret (cmd, gpio_read_value resp, resp).

End ReplyText.

(** ** Floats: conversions between Python ints and binary64 *)

Definition is_finite (f : float) : bool :=
  match Prim2SF f with
  | S754_zero _ | S754_finite _ _ _ => true
  | _ => false
  end.

(** [int(x)] of a float: truncation toward zero; raises on NaN and infinities. *)
Definition py_int_of_float (x : float) : result Z :=
  match Prim2SF x with
  | S754_zero _ => Ok 0
  | S754_finite s m e =>
      let a := if 0 <=? e then Z.pos m * 2 ^ e else Z.pos m / 2 ^ (- e) in
      Ok (if s then - a else a)
  | S754_infinity _ => Err OverflowError
  | S754_nan => Err (ValueError "cannot convert float NaN to integer")
  end.

(** [float(n)] of an int, as the arithmetic does it for a mixed operand:
    rounded to nearest even, [OverflowError] beyond the largest float. *)
Definition float_of_int (n : Z) : result float :=
  let f := SF2Prim (binary_normalize prec emax n 0 false) in
  if is_finite f then Ok f else Err OverflowError.

(** [a / b] on ints: the correctly rounded quotient.  The quotient is
    computed to more than 55 bits with a sticky last bit and then rounded
    once. *)
Definition int_truediv (a b : Z) : result float :=
  if b =? 0 then Err ZeroDivisionError
  else
    let s := Z.max 0 (Z.log2 (Z.abs b) + 56 - Z.log2 (Z.abs a)) in
    let n := Z.abs a * 2 ^ s in
    let q := n / Z.abs b in
    let r := n mod Z.abs b in
    let m := 2 * q + (if r =? 0 then 0 else 1) in
    let neg := xorb (a <? 0) (b <? 0) in
    let f := SF2Prim (binary_normalize prec emax (if neg then - m else m) (- s - 1) neg) in
    if is_finite f then Ok f else Err OverflowError.

(** ** PWM duty *)

(** The raw code [cmd_pwm_set_duty] computes before it calls
    [cmd_pwm_set_data_raw]. *)
Definition pwm_duty_code (duty : float) : result Z :=
  if negb ((0 <=? duty)%float && (duty <=? 1)%float) then Err (ValueError "duty 0.0..1.0")
  else if (duty =? 0)%float then Ok 0x0000
  else if (duty =? 1)%float then Ok 0x03FF
  else
    ticks <- py_int_of_float (duty * 1024)%float ;;
    if ticks <=? 0 then Ok 0x0001
    else if ticks >=? 1023 then Ok 0x03FE
    else Ok (if (abs (duty - 0.5) <? 1 / 1024)%float then 0x01FF else ticks).

Definition cmd_pwm_set_duty (channels : selector) (duty : float) : M (list string) :=
  code <~ lift (pwm_duty_code duty) ;;
  cmd_pwm_set_data_raw channels code.

(** ** ADC value to voltage *)

Definition convert_to_voltage (adc_value gain : Z) : result float :=
  let MAX_ADC := 524288 in
  let adc_value := if adc_value >=? MAX_ADC then adc_value - 2 * MAX_ADC else adc_value in
  q <- int_truediv adc_value MAX_ADC ;;
  g <- float_of_int gain ;;
  Ok (q * 5.0 * g)%float.

(** ** Fixed-width digit strings, for stating what the formatter yields *)

Definition hex1 (n : Z) : string := String (hex_char n) "".

Definition hex2 (n : Z) : string :=
  String (hex_char (n / 16)) (String (hex_char (n mod 16)) "").

Definition hex4 (n : Z) : string :=
  String (hex_char (n / 4096))
    (String (hex_char (n / 256 mod 16))
       (String (hex_char (n / 16 mod 16)) (String (hex_char (n mod 16)) ""))).

(** The frame [*C HH E DDDD#] spelled out digit by digit. *)
Definition frame (C : ascii) (HH E DDDD : Z) : string :=
  String "*" (String C (hex2 HH ++ hex1 E ++ hex4 DDDD ++ "#")).

(** ** The catalogue as data

    One constructor per public command of the module, with its arguments,
    so that a property can be stated once for every command. *)
Inductive op : Type :=
| OpSetChunkSize (ch chunk_size : Z)
| OpStartAccumulation
| OpSetChunkNum (ch chunk_num : Z)
| OpStopAccumulation
| OpAdcSingleSample (ch : Z)
| OpAdcChunkRequest (ch chunk_size : Z)
| OpSetLdac (level : Z)
| OpSetLdacMask (mask : Z)
| OpDacSetData (ch value : Z)
| OpDacImmediateOut (ch value : Z)
| OpSetOpampGain (ch gain_code : Z)
| OpSetGpioDir (active_channels input_channels : selector)
| OpSetGpioPwmMode (active_channels pwm_channels : selector)
| OpSetEncoderMode (channels : selector)
| OpEncoderPresetHi (ch : selector) (value16 : Z)
| OpEncoderPresetLo (ch : selector) (value16 : Z)
| OpEncoderPreset32 (ch : selector) (value32 : Z)
| OpEncoderCtrl (channels : selector) (dir_invert : option bool) (do_reset load_preset : bool)
| OpEncoderDirInvert (channels : selector) (invert : bool)
| OpEncoderCountReset (channels : selector)
| OpEncoderLoadPreset (channels : selector)
| OpPwmSetFrequency (channels : selector) (freq_hz : Z)
| OpPwmSetDataRaw (channels : selector) (dddd : Z)
| OpPwmSetDuty (channels : selector) (duty : float)
| OpGpioRead
| OpEncoderStatusRead (channel : Z)
| OpGpioWrite (value : Z)
| OpGpioWriteMask (high_channels : selector)
| OpReset (mode : string)
| OpResetAll
| OpResetAdcTx.

(** Run a command and forget what it returns. *)
Definition void {A} (c : M A) : M unit :=
  fun h =>
    match c h with
    | (h', Ok _) => (h', Ok tt)
    | (h', Err e) => (h', Err e)
    end.

Definition run_op (unicode_upper : Z -> list Z) (o : op) : M unit :=
  match o with
  | OpSetChunkSize ch n => void (cmd_set_chunk_size ch n)
  | OpStartAccumulation => void cmd_start_accumulation
  | OpSetChunkNum ch n => void (cmd_set_chunk_num ch n)
  | OpStopAccumulation => void cmd_stop_accumulation
  | OpAdcSingleSample ch => void (cmd_adc_single_sample ch)
  | OpAdcChunkRequest ch n => void (cmd_adc_chunk_request ch n)
  | OpSetLdac level => void (cmd_set_ldac level)
  | OpSetLdacMask mask => void (cmd_set_ldac_mask mask)
  | OpDacSetData ch v => void (cmd_dac_set_data ch v)
  | OpDacImmediateOut ch v => void (cmd_dac_immediate_out ch v)
  | OpSetOpampGain ch g => void (cmd_set_opamp_gain ch g)
  | OpSetGpioDir a i => void (cmd_set_gpio_dir a i)
  | OpSetGpioPwmMode a p => void (cmd_set_gpio_pwm_mode a p)
  | OpSetEncoderMode chs => void (cmd_set_encoder_mode chs)
  | OpEncoderPresetHi ch v => void (cmd_encoder_preset_hi ch v)
  | OpEncoderPresetLo ch v => void (cmd_encoder_preset_lo ch v)
  | OpEncoderPreset32 ch v => void (cmd_encoder_preset_32 ch v)
  | OpEncoderCtrl chs d r l => void (cmd_encoder_ctrl chs d r l)
  | OpEncoderDirInvert chs i => void (cmd_encoder_dir_invert chs i)
  | OpEncoderCountReset chs => void (cmd_encoder_count_reset chs)
  | OpEncoderLoadPreset chs => void (cmd_encoder_load_preset chs)
  | OpPwmSetFrequency chs f => void (cmd_pwm_set_frequency chs f)
  | OpPwmSetDataRaw chs d => void (cmd_pwm_set_data_raw chs d)
  | OpPwmSetDuty chs d => void (cmd_pwm_set_duty chs d)
  | OpGpioRead => void (cmd_gpio_read unicode_upper)
  | OpEncoderStatusRead ch => void (cmd_encoder_status_read ch)
  | OpGpioWrite v => void (cmd_gpio_write v)
  | OpGpioWriteMask chs => void (cmd_gpio_write_mask chs)
  | OpReset mode => void (cmd_reset mode)
  | OpResetAll => void cmd_reset_all
  | OpResetAdcTx => void cmd_reset_adc_tx
  end.



(** The transport after [frames] were sent one by one, each followed by the
    read of one reply line. *)
Definition sent (h : handle) (frames : list string) : handle :=
  mkHandle (written h ++ map encode_ascii_ignore frames)
           (skipn (List.length frames) (pending h)).

(** A sample case table: code points above 127 have no upper-case form. *)
Definition caseless (c : Z) : list Z := [c].

(** The channel arguments the encoder preset commands are said to take:
    the string "all" in any letter case, or one integer from 0 to 3. *)
Definition enc_ch_accepted (ch : selector) : bool :=
  match ch with
  | SelStr s => String.eqb (str_lower s) "all"
  | SelInt n => in_range 0 n 3
  | _ => false
  end.

(** The data field of an encoder control frame with neither pulse bit. *)
Definition dir_bit_only (dir_invert : option bool) : Z :=
  match dir_invert with
  | Some true => 0x0001
  | _ => 0x0000
  end.

(** The channels an accepted argument of the preset commands stands for. *)
Definition enc_ch_list (ch : selector) : list Z :=
  match ch with
  | SelInt n => [n]
  | _ => [0; 1; 2; 3]
  end.

(** ** Exact readings of a float, for stating what the duty code is *)

(** A finite binary64 value is a whole number of units of 2^-1074 (the
    smallest positive float): [d = float_units d * 2^-1074] exactly. *)
Definition float_units (d : float) : Z :=
  match Prim2SF d with
  | S754_finite s m e => (if s then -1 else 1) * (Z.pos m * 2 ^ (e + 1074))
  | _ => 0
  end.

(** The duty code as the documentation words it, on the exact value
    [n * 2^-1074] of a duty strictly between 0 and 1: within 1/1024 of 0.5
    (that is, [|n - 2^1073| < 2^1064] in units) it is 0x01FF; otherwise the
    duty is scaled by 1024, truncated, and clamped into [1, 1022]. *)
Definition duty_code_spec (n : Z) : Z :=
  if Z.abs (n - 2 ^ 1073) <? 2 ^ 1064 then 0x01FF
  else Z.max 1 (Z.min 1022 (1024 * n / 2 ^ 1074)).

(** ** The voltage conversion as the documentation words it *)

(** A raw value at or above the half range 524288 is folded into the
    negative half by subtracting the full range 1048576. *)
Definition fold_adc (adc_value : Z) : Z :=
  if adc_value >=? 524288 then adc_value - 1048576 else adc_value.

(** The folded value over the half range, times 5.0, times the gain. *)
Definition scale_voltage (folded gain : Z) : result float :=
  q <- int_truediv folded 524288 ;;
  g <- float_of_int gain ;;
  Ok (q * 5.0 * g)%float.

(** ** Readings used to state further properties *)

(** The digit a character stands for, when it is one of 0-9. *)
Definition digit_of_char (c : ascii) : option Z :=
  match item_of_char c with
  | ItemInt n => Some n
  | ItemBad => None
  end.

(** The transport after [frames] were written and [reads] reply lines were
    taken. *)
Definition after (h : handle) (frames : list string) (reads : nat) : handle :=
  mkHandle (written h ++ frames) (skipn reads (pending h)).

(** The commands that read one reply line per frame they send: all but the
    chunk stream request. *)
Definition reads_reply (o : op) : bool :=
  match o with
  | OpAdcChunkRequest _ _ => false
  | _ => true
  end.

(** An outcome that is a normal return or a validation error. *)
Definition benign {A} (r : result A) : bool :=
  match r with
  | Ok _ => true
  | Err (ValueError _) => true
  | Err _ => false
  end.

(** A command that only ever writes well-formed frames, reads one reply per
    frame, and ends normally or in a validation error. *)
Definition wire {A} (c : M A) : Prop :=
  forall h, exists fs,
    fst (c h) = after h fs (List.length fs)
    /\ Forall (fun f => frame_pattern f = true) fs
    /\ benign (snd (c h)) = true.

(** The data field of an encoder control frame: bit 0 direction invert,
    bit 1 count reset, bit 2 load preset. *)
Definition encoder_ctrl_data (dir_invert : option bool) (do_reset load_preset : bool) : Z :=
  dir_bit_only dir_invert + (if do_reset then 2 else 0) + (if load_preset then 4 else 0).

(** The frequency a PWM data field stands for, by the command's docstring:
    below 0x8000 the field is in Hz, from 0x8000 on it is 0x8000 + kHz. *)
Definition pwm_freq_of_field (dddd : Z) : Z :=
  if dddd <? 0x8000 then dddd else (dddd - 0x8000) * 1000.

(** The reply the docstring of [cmd_gpio_read] expects for an 8-bit value:
    [*D0000XX#] and a line feed. *)
Definition gpio_reply (v : Z) : string :=
  "*D0000" ++ hex2 v ++ "#" ++ String "010" "".

(** ** The encoder status read and its result

    [cmd_encoder_status_read] above stops at the raw reply; what follows is
    the rest of the function: the best-effort parse of the reply into the
    result dict.  [int(text, base)] is the interpreter's, with all it
    accepts (signs, underscores, prefixes, Unicode digits); it is the
    parameter [py_int], as the Unicode case table is [unicode_upper]. *)

Record encoder_status : Type := mkStatus {
  st_raw : list Z;               (* "raw": the decoded, stripped reply *)
  st_ch : Z;                     (* "ch" *)
  st_count : option Z;           (* "count", [None] when absent *)
  st_dir : option (list Z);      (* "dir" *)
  st_ovf : option (list Z);      (* "ovf" *)
  st_ae : option (list Z)        (* "ae" *)
}.

(** [s.split(sep)] for a one-character separator. *)
Fixpoint split_on (sep : Z) (s : list Z) : list (list Z) :=
  match s with
  | [] => [[]]
  | c :: s' =>
      if c =? sep then [] :: split_on sep s'
      else
        match split_on sep s' with
        | p :: ps => (c :: p) :: ps
        | [] => [[c]]
        end
  end.

(** [s.replace(c, "")] for a one-character [c]. *)
Definition remove_char (c : Z) (s : list Z) : list Z :=
  filter (fun x => negb (x =? c)) s.

Fixpoint lstrip_char (c : Z) (s : list Z) : list Z :=
  match s with
  | [] => []
  | x :: s' => if x =? c then lstrip_char c s' else s
  end.

(** [s.rstrip(c)] for a one-character [c]. *)
Definition rstrip_char (c : Z) (s : list Z) : list Z :=
  rev (lstrip_char c (rev s)).

Definition nonempty (p : list Z) : bool :=
  match p with
  | [] => false
  | _ => true
  end.

(** The decoded, stripped text of a reply. *)
Definition reply_text (resp : string) : list Z :=
  match resp with
  | EmptyString => []
  | _ => str_strip (decode_utf8_ignore (bytes_of resp))
  end.

(** The non-empty comma-separated fields after the prefix [*D], if any. *)
Definition status_fields (txt : list Z) : list (list Z) :=
  let body :=
    match txt with
    | a :: b :: rest => if (a =? 42) && (b =? 68) then rest else txt
    | _ => txt
    end in
  filter nonempty (split_on 44 body).

(** The base chosen for the count: 16 when one of A-F occurs, else 10. *)
Definition count_base (pc : list Z) : Z :=
  if existsb (fun c => existsb (Z.eqb c) pc) [65; 66; 67; 68; 69; 70] then 16 else 10.

Section EncoderStatus.

Variable unicode_upper : Z -> list Z.
Variable py_int : list Z -> Z -> result Z.

(** The text handed to [int]: the second field, stripped, upper-cased,
    without [H] and [#]. *)
Definition count_text (parts : list (list Z)) : list Z :=
  remove_char 35 (remove_char 72 (str_upper unicode_upper (str_strip (nth 1 parts [])))).

Definition encoder_status_parse (channel : Z) (resp : string) : encoder_status :=
  let txt := reply_text resp in
  let result := mkStatus txt channel None None None None in
  let parts := status_fields txt in
  let attempt :=
    if (2 <=? List.length parts)%nat
    then
      let pc := count_text parts in
      n <- py_int pc (count_base pc) ;;
      Ok (Some n)
    else Ok None in
  match attempt with
  | Err _ => result
  | Ok count =>
      mkStatus txt channel count
        (if (3 <=? List.length parts)%nat then Some (str_strip (nth 2 parts [])) else None)
        (if (4 <=? List.length parts)%nat then Some (str_strip (nth 3 parts [])) else None)
        (if (5 <=? List.length parts)%nat
         then Some (rstrip_char 35 (str_strip (nth 4 parts []))) else None)
  end.

(** [cmd_encoder_status_read] with the dict it returns. *)
Definition cmd_encoder_status_read_dict (channel : Z) : M encoder_status :=
  resp <~ cmd_encoder_status_read channel ;;
  ret (encoder_status_parse channel resp).

End EncoderStatus.

(** A sample [int]: plain runs of digits of the base, nothing else. *)
Fixpoint plain_int_loop (base acc : Z) (s : list Z) : result Z :=
  match s with
  | [] => Ok acc
  | c :: s' =>
      match hex_value c with
      | Some d =>
          if d <? base then plain_int_loop base (base * acc + d) s'
          else Err (ValueError "invalid literal for int()")
      | None => Err (ValueError "invalid literal for int()")
      end
  end.

Definition plain_int (s : list Z) (base : Z) : result Z :=
  match s with
  | [] => Err (ValueError "invalid literal for int()")
  | _ => plain_int_loop base 0 s
  end.

(** [f] occurs in [s] as a contiguous piece. *)
Definition substring (f s : list Z) : Prop :=
  exists a b, s = (a ++ f ++ b)%list.

Definition is_digit (c : Z) : bool := in_range 48 c 57.

(** ** The GPIO reply as the documentation words it *)

(** A hexadecimal character, in either letter case: one of 0-9, A-F, a-f. *)
Definition is_hex_cp (c : Z) : bool :=
  in_range 48 c 57 || in_range 65 c 70 || in_range 97 c 102.

(** The hexadecimal characters of a reply, in order: those of its text as
    it decodes, before any stripping or change of case. *)
Definition reply_hex_chars (resp : string) : list Z :=
  filter is_hex_cp (decode_utf8_ignore (bytes_of resp)).

(** No character of the reply above U+007F has an upper-case form that
    holds one of 0-9A-F. *)
Definition upper_adds_no_hex (unicode_upper : Z -> list Z) (resp : string) : bool :=
  forallb (fun c => (c <? 128) || negb (existsb is_hex_upper_cp (unicode_upper c)))
          (decode_utf8_ignore (bytes_of resp)).

(** [str.upper] on an ASCII character. *)
Definition ascii_up (c : Z) : Z := if in_range 97 c 122 then c - 32 else c.

(** A case table with the Latin ligatures U+FB00..U+FB04 (ff, fi, fl, ffi,
    ffl), which [str.upper] spells out in ASCII capitals (FF, FI, FL, FFI,
    FFL); every other code point above 127 is left as it is. *)
Definition ligature_upper (c : Z) : list Z :=
  if c =? 0xFB00 then [70; 70]
  else if c =? 0xFB01 then [70; 73]
  else if c =? 0xFB02 then [70; 76]
  else if c =? 0xFB03 then [70; 70; 73]
  else if c =? 0xFB04 then [70; 70; 76]
  else [c].

(** The reply [EF AC 80 0A]: the UTF-8 bytes of U+FB00 and a line feed. *)
Definition ligature_reply : string :=
  String (ascii_of_nat 239) (String (ascii_of_nat 172) (String (ascii_of_nat 128)
    (String (ascii_of_nat 10) EmptyString))).

(** ** Inputs out of contract, as the documentation lists them

    What follows is written from the command table and the data model of
    the documentation, not from the checks of the code: which arguments of
    which command are out of contract.  It is compared with what the
    commands do. *)









(** The [int()] of a single character is a digit value. *)
Definition digit_item (i : item) : bool :=
  match i with
  | ItemInt n => in_range 0 n 9
  | ItemBad => true
  end.

(** [sep.join(pieces)] for a one-character [sep]. *)
Fixpoint join_on (sep : Z) (pieces : list (list Z)) : list Z :=
  match pieces with
  | [] => []
  | p :: rest =>
      match rest with
      | [] => p
      | _ => p ++ sep :: join_on sep rest
      end
  end.

(** All four parsed fields of an encoder status are absent. *)
Definition nothing_parsed (r : encoder_status) : Prop :=
  st_count r = None /\ st_dir r = None /\ st_ovf r = None /\ st_ae r = None.

(** * Properties *)

(** [lia] with the equations of division and remainder by constants. *)
Ltac Zify.zify_post_hook ::= Z.div_mod_to_equations.

(** ** Hexadecimal formatting *)

Lemma hex_char_upper_hex (d : Z) : is_upper_hex (hex_char d) = true.
Proof.
  destruct d as [|p|p]; try reflexivity.
  do 4 (try destruct p as [p|p|]); reflexivity.
Qed.

Lemma hex_digits_S (f : nat) (n : Z) :
  hex_digits (S f) n =
  if n <? 16 then String (hex_char n) ""
  else hex_digits f (n / 16) ++ String (hex_char (n mod 16)) "".
Proof. reflexivity. Qed.

Lemma hex_digits_fuel (f1 : nat) :
  forall (f2 : nat) (n : Z),
    0 <= n < 16 ^ Z.of_nat (S f1) -> n < 16 ^ Z.of_nat (S f2) ->
    hex_digits (S f1) n = hex_digits (S f2) n.
Proof.
  induction f1 as [|f1 IH]; intros f2 n H1 H2.
  - simpl in H1. simpl.
    replace (n <? 16) with true by (symmetry; apply Z.ltb_lt; lia). reflexivity.
  - rewrite (hex_digits_S (S f1)), (hex_digits_S f2).
    destruct (n <? 16) eqn:Hn; [reflexivity|].
    apply Z.ltb_ge in Hn.
    rewrite Nat2Z.inj_succ, Z.pow_succ_r in H1, H2 by lia.
    assert (Hq : 1 <= n / 16) by (apply Z.div_le_lower_bound; lia).
    destruct f2 as [|f2]; [simpl in H2; lia|].
    rewrite (IH f2 (n / 16)); [reflexivity| |].
    + split; [lia|apply Z.div_lt_upper_bound; lia].
    + apply Z.div_lt_upper_bound; lia.
Qed.

Lemma hex_upper_fuel (k : nat) (n : Z) :
  0 <= n < 16 ^ Z.of_nat (S k) -> hex_upper n = hex_digits (S k) n.
Proof.
  intros H. unfold hex_upper. apply hex_digits_fuel; [|lia].
  split; [lia|].
  rewrite Nat2Z.inj_succ, Z2Nat.id by apply Z.log2_nonneg.
  destruct (Z.eq_dec n 0) as [->|Hn]; [reflexivity|].
  assert (Hl : n < 2 ^ Z.succ (Z.log2 n)) by (apply Z.log2_spec; lia).
  assert (Hp : 2 ^ Z.succ (Z.log2 n) <= 16 ^ Z.succ (Z.log2 n)).
  { apply Z.pow_le_mono_l. lia. }
  lia.
Qed.

Lemma format_X_0 (n : Z) : 0 <= n < 16 -> format_X 0 n = hex1 n.
Proof.
  intros H. unfold format_X. replace (n <? 0) with false by (symmetry; apply Z.ltb_ge; lia).
  rewrite (hex_upper_fuel 0) by (simpl; lia). simpl.
  replace (n <? 16) with true by (symmetry; apply Z.ltb_lt; lia). reflexivity.
Qed.

Lemma format_X_2 (n : Z) : 0 <= n < 256 -> format_X 2 n = hex2 n.
Proof.
  intros H. unfold format_X, hex2.
  replace (n <? 0) with false by (symmetry; apply Z.ltb_ge; lia).
  rewrite (hex_upper_fuel 1) by (simpl; lia). simpl hex_digits.
  destruct (n <? 16) eqn:Hn.
  - apply Z.ltb_lt in Hn. rewrite Z.div_small, Z.mod_small by lia. reflexivity.
  - apply Z.ltb_ge in Hn.
    replace (n / 16 <? 16) with true
      by (symmetry; apply Z.ltb_lt; apply Z.div_lt_upper_bound; lia).
    reflexivity.
Qed.

Lemma format_X_4 (n : Z) : 0 <= n < 65536 -> format_X 4 n = hex4 n.
Proof.
  intros H. unfold format_X, hex4.
  replace (n <? 0) with false by (symmetry; apply Z.ltb_ge; lia).
  rewrite (hex_upper_fuel 3) by (simpl; lia). simpl hex_digits.
  assert (E1 : n / 256 = n / 16 / 16) by (rewrite Z.div_div by lia; reflexivity).
  assert (E2 : n / 4096 = n / 16 / 16 / 16) by (rewrite !Z.div_div by lia; reflexivity).
  destruct (n <? 16) eqn:H1.
  { apply Z.ltb_lt in H1.
    rewrite E2, E1, (Z.div_small n 16), (Z.mod_small n 16) by lia. reflexivity. }
  apply Z.ltb_ge in H1.
  destruct (n / 16 <? 16) eqn:H2.
  { apply Z.ltb_lt in H2.
    rewrite E2, E1, (Z.div_small (n / 16) 16), (Z.mod_small (n / 16) 16) by lia.
    reflexivity. }
  apply Z.ltb_ge in H2.
  destruct (n / 16 / 16 <? 16) eqn:H3.
  { apply Z.ltb_lt in H3.
    rewrite E2, E1, (Z.div_small (n / 16 / 16) 16), (Z.mod_small (n / 16 / 16) 16) by lia.
    reflexivity. }
  apply Z.ltb_ge in H3.
  assert (H4 : n / 16 / 16 / 16 < 16).
  { rewrite !Z.div_div by lia. apply Z.div_lt_upper_bound; lia. }
  replace (n / 16 / 16 / 16 <? 16) with true by (symmetry; apply Z.ltb_lt; lia).
  rewrite E2, E1. reflexivity.
Qed.

(** The formatter on in-range fields: the frame, digit by digit. *)
Lemma fmt_cmd_frame (c : ascii) (HH E DDDD : Z) :
  0 <= HH <= 0xFF -> 0 <= E <= 0xF -> 0 <= DDDD <= 0xFFFF ->
  _fmt_cmd (String c "") HH E DDDD = Ok (frame c HH E DDDD).
Proof.
  intros H1 H2 H3. unfold _fmt_cmd.
  rewrite format_X_2, format_X_0, format_X_4 by lia. reflexivity.
Qed.

Lemma frame_matches (c : ascii) (HH E DDDD : Z) :
  is_upper_hex c = true -> frame_pattern (frame c HH E DDDD) = true.
Proof.
  intros Hc. unfold frame_pattern, frame, hex2, hex1, hex4. simpl.
  rewrite Hc, !hex_char_upper_hex. reflexivity.
Qed.

Lemma frame_length (c : ascii) (HH E DDDD : Z) :
  String.length (frame c HH E DDDD) = 10%nat.
Proof. reflexivity. Qed.

(** C2: for a code character in 0-9A-F and fields within their widths,
    [_fmt_cmd] returns a string of exactly 10 characters that matches
    [*[0-9A-F][0-9A-F]{2}[0-9A-F][0-9A-F]{4}#]; in particular it does not
    take the length-check failure branch (it never returns an error). *)
Theorem fmt_cmd_well_formed (c : ascii) (HH E DDDD : Z) :
  is_upper_hex c = true ->
  0 <= HH <= 0xFF -> 0 <= E <= 0xF -> 0 <= DDDD <= 0xFFFF ->
  exists s,
    _fmt_cmd (String c "") HH E DDDD = Ok s
    /\ String.length s = 10%nat
    /\ frame_pattern s = true
    /\ (forall e, _fmt_cmd (String c "") HH E DDDD <> Err e).
Proof.
  intros Hc H1 H2 H3. exists (frame c HH E DDDD).
  rewrite fmt_cmd_frame by assumption.
  repeat split.
  - apply frame_matches, Hc.
  - discriminate.
Qed.

Lemma fmt_cmd_well_formed_witness :
  exists s,
    _fmt_cmd "B" 0x07 0x0 0x8061 = Ok s
    /\ String.length s = 10%nat
    /\ frame_pattern s = true
    /\ (forall e, _fmt_cmd "B" 0x07 0x0 0x8061 <> Err e).
Proof.
  apply (fmt_cmd_well_formed "B" 0x07 0x0 0x8061); [reflexivity|lia|lia|lia].
Defined.

(** ** Sampling-rate lookup *)

(** C1, counterexample: at 64 ksps the frame body is neither 00000005 for
    target 0 nor 00100005 for target 1. *)
Lemma sampling_64_body_not_5 :
  get_sampling_command 64 0 <> Ok "*00000005#"
  /\ get_sampling_command 64 1 <> Ok "*00100005#".
Proof. split; vm_compute; discriminate. Qed.

(** C1, as the code has it: 64 is at index 6 of the rate list (counted from
    0), so 64 ksps gives the body 00000006 for target 0 and 00100006 for
    target 1; 3 ksps is rejected with a validation error. *)
Theorem sampling_64_lookup :
  get_sampling_command 64 0 = Ok "*00000006#"
  /\ get_sampling_command 64 1 = Ok "*00100006#"
  /\ py_index 64 [1; 2; 4; 8; 16; 32; 64; 128; 256] = Ok 6
  /\ (forall target, is_value_error (get_sampling_command 3 target) = true).
Proof.
  repeat split; reflexivity.
Qed.

(** ** Commands against the transport: what a validation error leaves behind *)


















(** *** Channel lists *)

Lemma check_channels_ok (max_ch : Z) (l : list Z) :
  check_channels max_ch l = Ok tt -> Forall (fun c => 0 <= c <= max_ch) l.
Proof.
  induction l as [|c l IH]; simpl; intros H; [constructor|].
  destruct ((0 <=? c) && (c <=? max_ch)) eqn:E; simpl in H; [|discriminate].
  apply andb_true_iff in E. destruct E as [E1 E2].
  apply Z.leb_le in E1, E2. constructor; [lia|auto].
Qed.

Lemma check_channels_complete (max_ch : Z) (l : list Z) :
  Forall (fun c => 0 <= c <= max_ch) l -> check_channels max_ch l = Ok tt.
Proof.
  induction 1 as [|c l Hc _ IH]; simpl; [reflexivity|].
  replace ((0 <=? c) && (c <=? max_ch)) with true; [exact IH|].
  symmetry. apply andb_true_iff. split; apply Z.leb_le; lia.
Qed.

Lemma py_range_bounds (n c : Z) : In c (py_range n) -> 0 <= c < n.
Proof.
  unfold py_range. intros H. apply in_map_iff in H.
  destruct H as [k [<- Hk]]. apply in_seq in Hk. lia.
Qed.

Lemma normalize_in_range (chs : selector) (max_ch : Z) (l : list Z) :
  _normalize_channels chs max_ch = Ok l -> Forall (fun c => 0 <= c <= max_ch) l.
Proof.
  assert (Hconv : forall xs,
    match ints_of_items xs with
    | None => Err (ValueError "CH spec")
    | Some l0 => _ <- check_channels max_ch (sorted_set l0) ;; Ok (sorted_set l0)
    end = Ok l -> Forall (fun c => 0 <= c <= max_ch) l).
  { intros xs H. destruct (ints_of_items xs) as [l0|]; [|discriminate].
    destruct (check_channels max_ch (sorted_set l0)) as [[]|e] eqn:E; simpl in H; [|discriminate].
    injection H as <-. apply check_channels_ok, E. }
  unfold _normalize_channels. destruct chs as [s|n|xs|]; try apply Hconv; [|discriminate].
  destruct (String.eqb (str_lower s) "all"); [|apply Hconv].
  intros H. injection H as <-. apply Forall_forall. intros c Hc.
  apply py_range_bounds in Hc. lia.
Qed.



Lemma land_low_range (m k : Z) : 0 <= k -> 0 <= Z.land m (Z.ones k) <= Z.ones k.
Proof.
  intros Hk. rewrite Z.land_ones, Z.ones_equiv by lia.
  assert (0 < 2 ^ k) by (apply Z.pow_pos_nonneg; lia).
  pose proof (Z.mod_pos_bound m (2 ^ k)). lia.
Qed.

(** *** Every command is atomic with respect to validation errors *)












(** ** Send loops: the frames a command writes *)

Lemma send_one (cmd : string) (h : handle) :
  _send_and_read_one_line cmd h
  = (sent h [cmd], Ok (hd "" (pending h))).
Proof.
  unfold _send_and_read_one_line, bind, _write_ascii, _readline, sent, ret. simpl.
  destruct (pending h); reflexivity.
Qed.

Lemma sent_sent (h : handle) (l1 l2 : list string) :
  sent (sent h l1) l2 = sent h (l1 ++ l2).
Proof.
  unfold sent. simpl. f_equal.
  - rewrite map_app, app_assoc. reflexivity.
  - rewrite length_app, Nat.add_comm, skipn_skipn. reflexivity.
Qed.

Lemma sent_nil (h : handle) : sent h [] = h.
Proof. destruct h. unfold sent. simpl. rewrite app_nil_r. reflexivity. Qed.

Lemma for_each_frames {A} (mk : A -> result string) (f : A -> string) (l : list A) :
  (forall a, In a l -> mk a = Ok (f a)) ->
  forall h,
    for_each (fun a => cmd <~ lift (mk a) ;;
                       _ <~ _send_and_read_one_line cmd ;; ret cmd) l h
    = (sent h (map f l), Ok (map f l)).
Proof.
  induction l as [|a l IH]; intros H h.
  - simpl. rewrite sent_nil. reflexivity.
  - cbn [for_each map]. unfold bind at 1. unfold bind at 1.
    rewrite (H a) by (left; reflexivity). unfold lift at 1.
    unfold bind at 1. rewrite send_one. unfold ret at 1.
    unfold bind at 1. rewrite IH by (intros a' Ha'; apply H; right; exact Ha').
    unfold ret. rewrite sent_sent. reflexivity.
Qed.

Lemma hh_from_single_ch_id (ch : Z) : 0 <= ch <= 0xFF -> _hh_from_single_ch ch = ch.
Proof.
  intros H. unfold _hh_from_single_ch. change 0xFF with (Z.ones 8).
  rewrite Z.land_ones by lia. apply Z.mod_small. change (2 ^ 8) with 256. lia.
Qed.

(** ** Encoder control *)

(** C6: with both [do_reset] and [load_preset] requested the command raises
    a validation error and the transport is untouched, whatever the
    channel selection; with neither requested it sends, for each selected
    channel, the frame [*A HH 4 DDDD#] whose data field is 0x0000, plus
    bit 0 exactly when [dir_invert] is [True] (and it fails, sending
    nothing, only when the channel selection itself is rejected). *)
Theorem encoder_ctrl_flags (channels : selector) (dir_invert : option bool) (h : handle) :
  (fst (cmd_encoder_ctrl channels dir_invert true true h) = h
   /\ is_value_error (snd (cmd_encoder_ctrl channels dir_invert true true h)) = true)
  /\ cmd_encoder_ctrl channels dir_invert false false h
     = match _normalize_channels channels 3 with
       | Ok chs =>
           let frames := map (fun ch => frame "A" ch 0x4 (dir_bit_only dir_invert)) chs in
           (sent h frames, Ok frames)
       | Err e => (h, Err e)
       end
  /\ (dir_bit_only dir_invert = 0x0000 \/ dir_bit_only dir_invert = 0x0001)
  /\ (Z.testbit (dir_bit_only dir_invert) 0 = true <-> dir_invert = Some true).
Proof.
  split; [split; reflexivity|]. split; [|split].
  - unfold cmd_encoder_ctrl. cbn [andb]. unfold bind at 1, lift at 1.
    destruct (_normalize_channels channels 3) as [chs|e] eqn:E; [|reflexivity].
    apply normalize_in_range in E. rewrite Forall_forall in E.
    apply (for_each_frames
             (fun ch => _fmt_cmd "A" (_hh_from_single_ch ch) 0x4 _)
             (fun ch => frame "A" ch 0x4 (dir_bit_only dir_invert))).
    intros ch Hch. specialize (E ch Hch). rewrite hh_from_single_ch_id by lia.
    rewrite <- fmt_cmd_frame by (destruct dir_invert as [[|]|]; simpl; lia).
    destruct dir_invert as [[|]|]; reflexivity.
  - destruct dir_invert as [[|]|]; simpl; auto.
  - destruct dir_invert as [[|]|]; simpl; split; intros H; congruence.
Qed.

Lemma encoder_ctrl_flags_witness :
  cmd_encoder_ctrl (SelStr "all") (Some true) false false (mkHandle [] [])
    = (mkHandle ["*A0040001#"; "*A0140001#"; "*A0240001#"; "*A0340001#"] [],
       Ok ["*A0040001#"; "*A0140001#"; "*A0240001#"; "*A0340001#"])
  /\ Z.testbit (dir_bit_only (Some true)) 0 = true.
Proof.
  split.
  - exact (proj1 (proj2 (encoder_ctrl_flags (SelStr "all") (Some true) (mkHandle [] [])))).
  - apply (proj2 (proj2 (proj2 (proj2
             (encoder_ctrl_flags (SelStr "all") (Some true) (mkHandle [] [])))))).
    reflexivity.
Defined.

(** ** Encoder presets *)

Lemma norm_enc_ch_accepted (ch : selector) :
  enc_ch_accepted ch = true -> _norm_enc_ch ch = Ok (enc_ch_list ch).
Proof.
  destruct ch as [s|n|xs|]; simpl; try discriminate; intros ->; reflexivity.
Qed.

Lemma norm_enc_ch_rejected (ch : selector) :
  enc_ch_accepted ch = false -> is_value_error (_norm_enc_ch ch) = true.
Proof.
  destruct ch as [s|n|xs|]; simpl; try reflexivity; intros ->; reflexivity.
Qed.

Lemma enc_ch_list_range (ch : selector) (c : Z) :
  enc_ch_accepted ch = true -> In c (enc_ch_list ch) -> 0 <= c <= 3.
Proof.
  destruct ch as [s|n|xs|]; simpl; try discriminate; intros H Hc.
  - lia.
  - unfold in_range in H. apply andb_true_iff in H. destruct H as [H1 H2].
    apply Z.leb_le in H1, H2. lia.
Qed.

Lemma preset_loop (E : Z) (ch : selector) (v : Z) (h : handle) :
  0 <= E <= 0xF -> 0 <= v <= 0xFFFF -> enc_ch_accepted ch = true ->
  for_each (fun c => cmd <~ lift (_fmt_cmd "A" (_hh_from_single_ch c) E v) ;;
                     _ <~ _send_and_read_one_line cmd ;; ret cmd)
           (enc_ch_list ch) h
  = (sent h (map (fun c => frame "A" c E v) (enc_ch_list ch)),
     Ok (map (fun c => frame "A" c E v) (enc_ch_list ch))).
Proof.
  intros HE Hv Hch.
  apply (for_each_frames (fun c => _fmt_cmd "A" (_hh_from_single_ch c) E v)).
  intros c Hc. pose proof (enc_ch_list_range ch c Hch Hc).
  rewrite hh_from_single_ch_id by lia. apply fmt_cmd_frame; lia.
Qed.

Lemma preset_hi_accepted (ch : selector) (v : Z) (h : handle) :
  0 <= v <= 0xFFFF -> enc_ch_accepted ch = true ->
  cmd_encoder_preset_hi ch v h
  = (sent h (map (fun c => frame "A" c 0x2 v) (enc_ch_list ch)),
     Ok (map (fun c => frame "A" c 0x2 v) (enc_ch_list ch))).
Proof.
  intros Hv Hch. unfold cmd_encoder_preset_hi, in_range.
  replace ((0 <=? v) && (v <=? 65535)) with true
    by (symmetry; apply andb_true_iff; split; apply Z.leb_le; lia).
  cbn [negb]. unfold bind at 1. rewrite norm_enc_ch_accepted by assumption.
  unfold lift. apply preset_loop; [lia|assumption|assumption].
Qed.

Lemma preset_lo_accepted (ch : selector) (v : Z) (h : handle) :
  0 <= v <= 0xFFFF -> enc_ch_accepted ch = true ->
  cmd_encoder_preset_lo ch v h
  = (sent h (map (fun c => frame "A" c 0x3 v) (enc_ch_list ch)),
     Ok (map (fun c => frame "A" c 0x3 v) (enc_ch_list ch))).
Proof.
  intros Hv Hch. unfold cmd_encoder_preset_lo, in_range.
  replace ((0 <=? v) && (v <=? 65535)) with true
    by (symmetry; apply andb_true_iff; split; apply Z.leb_le; lia).
  cbn [negb]. unfold bind at 1. rewrite norm_enc_ch_accepted by assumption.
  unfold lift. apply preset_loop; [lia|assumption|assumption].
Qed.

Lemma preset_hi_rejected (ch : selector) (v : Z) (h : handle) :
  enc_ch_accepted ch = false ->
  fst (cmd_encoder_preset_hi ch v h) = h
  /\ is_value_error (snd (cmd_encoder_preset_hi ch v h)) = true.
Proof.
  intros Hch. apply norm_enc_ch_rejected in Hch.
  unfold cmd_encoder_preset_hi. destruct (negb _); [split; reflexivity|].
  unfold bind, lift. destruct (_norm_enc_ch ch); [discriminate|]. split; [reflexivity|exact Hch].
Qed.

Lemma preset_lo_rejected (ch : selector) (v : Z) (h : handle) :
  enc_ch_accepted ch = false ->
  fst (cmd_encoder_preset_lo ch v h) = h
  /\ is_value_error (snd (cmd_encoder_preset_lo ch v h)) = true.
Proof.
  intros Hch. apply norm_enc_ch_rejected in Hch.
  unfold cmd_encoder_preset_lo. destruct (negb _); [split; reflexivity|].
  unfold bind, lift. destruct (_norm_enc_ch ch); [discriminate|]. split; [reflexivity|exact Hch].
Qed.

Lemma preset_32_rejected (ch : selector) (v : Z) (h : handle) :
  enc_ch_accepted ch = false ->
  fst (cmd_encoder_preset_32 ch v h) = h
  /\ is_value_error (snd (cmd_encoder_preset_32 ch v h)) = true.
Proof.
  intros Hch. unfold cmd_encoder_preset_32.
  destruct (negb _); [split; reflexivity|].
  unfold bind.
  destruct (preset_hi_rejected ch (Z.land (Z.shiftr v 16) 65535) h Hch) as [H1 H2].
  destruct (cmd_encoder_preset_hi ch (Z.land (Z.shiftr v 16) 65535) h) as [h' [a|e]];
    [discriminate H2|]. split; [exact H1|exact H2].
Qed.

Lemma preset_32_accepted (ch : selector) (v : Z) (h : handle) :
  0 <= v <= 0xFFFFFFFF -> enc_ch_accepted ch = true ->
  cmd_encoder_preset_32 ch v h
  = (sent h (map (fun c => frame "A" c 0x2 (Z.land (Z.shiftr v 16) 0xFFFF)) (enc_ch_list ch)
             ++ map (fun c => frame "A" c 0x3 (Z.land v 0xFFFF)) (enc_ch_list ch)),
     Ok (map (fun c => frame "A" c 0x2 (Z.land (Z.shiftr v 16) 0xFFFF)) (enc_ch_list ch)
         ++ map (fun c => frame "A" c 0x3 (Z.land v 0xFFFF)) (enc_ch_list ch))%list).
Proof.
  intros Hv Hch. unfold cmd_encoder_preset_32, in_range.
  replace ((0 <=? v) && (v <=? 4294967295)) with true
    by (symmetry; apply andb_true_iff; split; apply Z.leb_le; lia).
  cbn [negb].
  pose proof (land_low_range v 16) as Hlo.
  pose proof (land_low_range (Z.shiftr v 16) 16) as Hhi.
  change (Z.ones 16) with 0xFFFF in Hlo, Hhi.
  unfold bind at 1. rewrite preset_hi_accepted by (assumption || lia).
  unfold bind at 1. rewrite preset_lo_accepted by (assumption || lia).
  unfold ret. rewrite sent_sent. reflexivity.
Qed.

(** C9: the three encoder preset commands take as channel argument only the
    string "all" (in any letter case) or one integer from 0 to 3.  On such
    an argument and a value within its width they send one frame per
    channel; on every other argument (a collection of integers included,
    which [_normalize_channels] of the other commands accepts) they raise
    a validation error and leave the transport untouched. *)
Theorem encoder_preset_channel_argument (ch : selector) (h : handle) :
  (enc_ch_accepted ch = false ->
   forall v,
     (fst (cmd_encoder_preset_hi ch v h) = h
      /\ is_value_error (snd (cmd_encoder_preset_hi ch v h)) = true)
     /\ (fst (cmd_encoder_preset_lo ch v h) = h
         /\ is_value_error (snd (cmd_encoder_preset_lo ch v h)) = true)
     /\ (fst (cmd_encoder_preset_32 ch v h) = h
         /\ is_value_error (snd (cmd_encoder_preset_32 ch v h)) = true))
  /\ (enc_ch_accepted ch = true ->
      (forall v, 0 <= v <= 0xFFFF ->
         snd (cmd_encoder_preset_hi ch v h)
           = Ok (map (fun c => frame "A" c 0x2 v) (enc_ch_list ch))
         /\ snd (cmd_encoder_preset_lo ch v h)
           = Ok (map (fun c => frame "A" c 0x3 v) (enc_ch_list ch)))
      /\ (forall v, 0 <= v <= 0xFFFFFFFF ->
            snd (cmd_encoder_preset_32 ch v h)
            = Ok (map (fun c => frame "A" c 0x2 (Z.land (Z.shiftr v 16) 0xFFFF))
                      (enc_ch_list ch)
                  ++ map (fun c => frame "A" c 0x3 (Z.land v 0xFFFF))
                      (enc_ch_list ch))%list))
  /\ (forall xs, enc_ch_accepted (SelIter xs) = false)
  /\ _normalize_channels (SelIter [ItemInt 0; ItemInt 1]) 3 = Ok [0; 1].
Proof.
  split; [|split; [|split; [reflexivity|reflexivity]]].
  - intros Hch v. split; [|split].
    + apply preset_hi_rejected, Hch.
    + apply preset_lo_rejected, Hch.
    + apply preset_32_rejected, Hch.
  - intros Hch. split.
    + intros v Hv. rewrite preset_hi_accepted, preset_lo_accepted by assumption.
      split; reflexivity.
    + intros v Hv. rewrite preset_32_accepted by assumption. reflexivity.
Qed.

Lemma encoder_preset_channel_argument_witness :
  is_value_error
    (snd (cmd_encoder_preset_hi (SelIter [ItemInt 0; ItemInt 1]) 0x1234
            (mkHandle [] ["*OK#"]))) = true
  /\ snd (cmd_encoder_preset_32 (SelStr "All") 0x12345678 (mkHandle [] ["*OK#"]))
     = Ok ["*A0021234#"; "*A0121234#"; "*A0221234#"; "*A0321234#";
           "*A0035678#"; "*A0135678#"; "*A0235678#"; "*A0335678#"].
Proof.
  split.
  - apply (proj1 (encoder_preset_channel_argument
                    (SelIter [ItemInt 0; ItemInt 1]) (mkHandle [] ["*OK#"]))
             eq_refl 0x1234).
  - apply (proj2 (proj1 (proj2 (encoder_preset_channel_argument
                                  (SelStr "All") (mkHandle [] ["*OK#"]))) eq_refl)
             0x12345678).
    lia.
Defined.

(** ** PWM frequency *)

Lemma pwm_frequency_loop (channels : selector) (freq_hz dddd : Z) (h : handle) :
  0 <= freq_hz -> pwm_freq_field freq_hz = Ok dddd -> 0 <= dddd <= 0xFFFF ->
  cmd_pwm_set_frequency channels freq_hz h
  = match _normalize_channels channels 7 with
    | Ok chs => (sent h (map (fun ch => frame "B" ch 0x0 dddd) chs),
                 Ok (map (fun ch => frame "B" ch 0x0 dddd) chs))
    | Err e => (h, Err e)
    end.
Proof.
  intros Hf Hd Hr. unfold cmd_pwm_set_frequency.
  replace (freq_hz <? 0) with false by (symmetry; apply Z.ltb_ge; lia).
  unfold bind at 1, lift at 1.
  destruct (_normalize_channels channels 7) as [chs|e] eqn:E; [|reflexivity].
  apply normalize_in_range in E. rewrite Forall_forall in E.
  rewrite Hd.
  apply (for_each_frames (fun ch => d <- Ok dddd ;; _fmt_cmd "B" ch 0x0 d)
                         (fun ch => frame "B" ch 0x0 dddd)).
  intros ch Hch. specialize (E ch Hch). simpl. apply fmt_cmd_frame; lia.
Qed.

(** C4 at the empty selection: an empty collection is a channel selector the
    normalisation accepts, and with it [cmd_pwm_set_frequency] returns
    normally, sending nothing, for 4096 Hz and for 97500 Hz: the band check
    sits inside the channel loop and never runs.  The sibling
    [cmd_pwm_set_data_raw] checks its value before the loop and does raise
    on the same selection. *)
Theorem pwm_frequency_unchecked_on_empty_selection (h : handle) :
  _normalize_channels (SelIter []) 7 = Ok []
  /\ cmd_pwm_set_frequency (SelIter []) 4096 h = (h, Ok [])
  /\ cmd_pwm_set_frequency (SelIter []) 97500 h = (h, Ok [])
  /\ is_value_error (pwm_freq_field 4096) = true
  /\ is_value_error (pwm_freq_field 97500) = true
  /\ is_value_error (snd (cmd_pwm_set_data_raw (SelIter []) 0x0400 h)) = true.
Proof. repeat split; reflexivity. Qed.

(** The rest of the frequency encoding, for a selection of at least one
    channel: 0 Hz and 4095 Hz go out as they are, 5000 Hz as 0x8005, and
    4096 Hz and 97500 Hz raise before anything is sent. *)
Lemma pwm_frequency_encoding (channels : selector) (chs : list Z) (h : handle) :
  _normalize_channels channels 7 = Ok chs ->
  cmd_pwm_set_frequency channels 0 h
    = (sent h (map (fun ch => frame "B" ch 0x0 0x0000) chs),
       Ok (map (fun ch => frame "B" ch 0x0 0x0000) chs))
  /\ cmd_pwm_set_frequency channels 4095 h
    = (sent h (map (fun ch => frame "B" ch 0x0 0x0FFF) chs),
       Ok (map (fun ch => frame "B" ch 0x0 0x0FFF) chs))
  /\ cmd_pwm_set_frequency channels 5000 h
    = (sent h (map (fun ch => frame "B" ch 0x0 0x8005) chs),
       Ok (map (fun ch => frame "B" ch 0x0 0x8005) chs))
  /\ (chs <> [] ->
      (fst (cmd_pwm_set_frequency channels 4096 h) = h
       /\ is_value_error (snd (cmd_pwm_set_frequency channels 4096 h)) = true)
      /\ (fst (cmd_pwm_set_frequency channels 97500 h) = h
          /\ is_value_error (snd (cmd_pwm_set_frequency channels 97500 h)) = true)).
Proof.
  intros E. repeat split.
  - rewrite (pwm_frequency_loop channels 0 0) by (reflexivity || lia). rewrite E. reflexivity.
  - rewrite (pwm_frequency_loop channels 4095 0x0FFF) by (reflexivity || lia).
    rewrite E. reflexivity.
  - rewrite (pwm_frequency_loop channels 5000 0x8005) by (reflexivity || lia).
    rewrite E. reflexivity.
  - unfold cmd_pwm_set_frequency, bind, lift. rewrite E.
    destruct chs; [contradiction|reflexivity].
  - unfold cmd_pwm_set_frequency, bind, lift. rewrite E.
    destruct chs; [contradiction|reflexivity].
  - unfold cmd_pwm_set_frequency, bind, lift. rewrite E.
    destruct chs; [contradiction|reflexivity].
  - unfold cmd_pwm_set_frequency, bind, lift. rewrite E.
    destruct chs; [contradiction|reflexivity].
Qed.

(** ** GPIO read *)

Lemma hex_value_upper (c : Z) :
  is_hex_upper_cp c = true -> exists d, hex_value c = Some d /\ 0 <= d <= 15.
Proof.
  unfold is_hex_upper_cp, hex_value, in_range. intros H.
  destruct ((48 <=? c) && (c <=? 57)) eqn:E1.
  - exists (c - 48). split; [reflexivity|].
    apply andb_true_iff in E1. destruct E1 as [A B]. apply Z.leb_le in A, B. lia.
  - simpl in H. rewrite H. exists (c - 55). split; [reflexivity|].
    apply andb_true_iff in H. destruct H as [A B]. apply Z.leb_le in A, B. lia.
Qed.

Lemma last_two_app (s : list Z) (a b : Z) : last_two (s ++ [a; b]) = [a; b].
Proof.
  unfold last_two. rewrite length_app. simpl.
  replace (List.length s + 2 - 2)%nat with (List.length s + 0)%nat by lia.
  rewrite skipn_app, Nat.add_0_r, skipn_all. simpl.
  replace (List.length s - List.length s)%nat with 0%nat by lia. reflexivity.
Qed.

Lemma split_last_two {A} (l : list A) :
  (2 <= List.length l)%nat -> exists l' a b, l = (l' ++ [a; b])%list.
Proof.
  intros H. destruct (exists_last (l := l)) as [l1 [b ->]].
  { intros ->. simpl in H. lia. }
  rewrite length_app in H. simpl in H.
  destruct (exists_last (l := l1)) as [l2 [a ->]].
  { intros ->. simpl in H. lia. }
  exists l2, a, b. rewrite <- app_assoc. reflexivity.
Qed.

Lemma gpio_reply_hex_all (unicode_upper : Z -> list Z) (resp : string) :
  Forall (fun c => is_hex_upper_cp c = true) (gpio_reply_hex unicode_upper resp).
Proof.
  unfold gpio_reply_hex. apply Forall_forall. intros c Hc.
  apply filter_In in Hc. apply Hc.
Qed.

Lemma gpio_read_value_last_two (unicode_upper : Z -> list Z) (resp : string)
    (s : list Z) (a b : Z) :
  gpio_reply_hex unicode_upper resp = (s ++ [a; b])%list ->
  exists da db,
    hex_value a = Some da /\ hex_value b = Some db
    /\ 0 <= da <= 15 /\ 0 <= db <= 15
    /\ gpio_read_value unicode_upper resp = 16 * da + db.
Proof.
  intros E. pose proof (gpio_reply_hex_all unicode_upper resp) as Hall.
  rewrite E in Hall. apply Forall_app in Hall. destruct Hall as [_ Hab].
  inversion Hab as [|? ? Ha Hb']; subst. inversion Hb' as [|? ? Hb _]; subst.
  destruct (hex_value_upper a Ha) as [da [Ea Ra]].
  destruct (hex_value_upper b Hb) as [db [Eb Rb]].
  exists da, db. repeat split; try assumption; try lia.
  unfold gpio_read_value. rewrite E, last_two_app, length_app.
  replace (2 <=? List.length s + List.length [a; b])%nat with true
    by (symmetry; apply Nat.leb_le; simpl; lia).
  unfold py_int16. cbn [int16_loop]. rewrite Ea. cbn [int16_loop]. rewrite Eb.
  cbn [int16_loop]. lia.
Qed.

(** ** Binary64 arithmetic: the spec functions on exact cases *)

Lemma iter_pos_nat {A} (f : A -> A) (p : positive) :
  forall x, iter_pos f p x = Nat.iter (Pos.to_nat p) f x.
Proof.
  induction p as [p IH|p IH|]; intros x; cbn [iter_pos].
  - rewrite !IH, Pos2Nat.inj_xI, <- Nat.iter_succ_r.
    replace (S (2 * Pos.to_nat p)) with (Pos.to_nat p + S (Pos.to_nat p))%nat by lia.
    rewrite Nat.iter_add. reflexivity.
  - rewrite !IH, Pos2Nat.inj_xO.
    replace (2 * Pos.to_nat p)%nat with (Pos.to_nat p + Pos.to_nat p)%nat by lia.
    rewrite Nat.iter_add. reflexivity.
  - reflexivity.
Qed.

Lemma shr_1_m (mrs : shr_record) :
  0 <= shr_m mrs -> shr_m (shr_1 mrs) = shr_m mrs / 2.
Proof.
  destruct mrs as [m r s]. cbn [shr_m]. intros H.
  rewrite <- Z.div2_div.
  destruct m as [|[p|p|]|p]; try reflexivity. lia.
Qed.

Lemma shr_1_exact (m : Z) :
  0 <= m -> m mod 2 = 0 ->
  shr_1 (Build_shr_record m false false) = Build_shr_record (m / 2) false false.
Proof.
  intros H E. rewrite <- Z.div2_div.
  destruct m as [|[p|p|]|p]; try reflexivity; lia.
Qed.

Lemma shr_iter_m (n : nat) :
  forall mrs, 0 <= shr_m mrs ->
    shr_m (Nat.iter n shr_1 mrs) = shr_m mrs / 2 ^ Z.of_nat n.
Proof.
  induction n as [|n IH]; intros mrs H.
  - simpl. rewrite Z.div_1_r. reflexivity.
  - rewrite Nat.iter_succ_r, IH, shr_1_m by (rewrite ?shr_1_m by assumption; lia).
    rewrite Nat2Z.inj_succ, Z.pow_succ_r, Z.div_div by lia. reflexivity.
Qed.

Lemma shr_iter_exact (n : nat) :
  forall m, 0 <= m -> m mod 2 ^ Z.of_nat n = 0 ->
    Nat.iter n shr_1 (Build_shr_record m false false)
    = Build_shr_record (m / 2 ^ Z.of_nat n) false false.
Proof.
  induction n as [|n IH]; intros m H E.
  - simpl. rewrite Z.div_1_r. reflexivity.
  - rewrite Nat2Z.inj_succ, Z.pow_succ_r in E |- * by lia.
    assert (Hp : 0 < 2 ^ Z.of_nat n) by (apply Z.pow_pos_nonneg; lia).
    assert (E2 : m mod 2 = 0).
    { rewrite Z.rem_mul_r in E by lia. lia. }
    assert (E3 : (m / 2) mod 2 ^ Z.of_nat n = 0).
    { rewrite Z.rem_mul_r in E by lia. lia. }
    rewrite Nat.iter_succ_r, shr_1_exact, IH by (assumption || lia).
    rewrite Z.div_div by lia. reflexivity.
Qed.

Lemma digits2_pos_size (p : positive) : digits2_pos p = Pos.size p.
Proof. induction p; simpl; congruence. Qed.

Lemma digits2_bounds (p : positive) :
  2 ^ (Z.pos (digits2_pos p) - 1) <= Z.pos p < 2 ^ Z.pos (digits2_pos p).
Proof.
  rewrite digits2_pos_size. split.
  - pose proof (Pos.size_le p) as H.
    assert (H' : 2 ^ Z.pos (Pos.size p) <= 2 * Z.pos p).
    { rewrite <- Pos2Z.inj_pow. apply Pos2Z.pos_le_pos in H. exact H. }
    replace (Z.pos (Pos.size p)) with (Z.succ (Z.pos (Pos.size p) - 1)) in H' by lia.
    rewrite Z.pow_succ_r in H' by lia. lia.
  - pose proof (Pos.size_gt p) as H. rewrite <- Pos2Z.inj_pow. apply Pos2Z.pos_lt_pos, H.
Qed.

Lemma digits2_unique (p : positive) (k : Z) :
  2 ^ (k - 1) <= Z.pos p < 2 ^ k -> Z.pos (digits2_pos p) = k.
Proof.
  intros [H1 H2]. pose proof (digits2_bounds p) as [B1 B2].
  assert (Hk : 0 < k).
  { destruct (Z_lt_le_dec 0 k); [assumption|].
    assert (2 ^ k <= 2 ^ 0) by (apply Z.pow_le_mono_r; lia). simpl in *. lia. }
  destruct (Z_lt_le_dec (Z.pos (digits2_pos p)) k) as [L|L].
  - assert (2 ^ Z.pos (digits2_pos p) <= 2 ^ (k - 1)) by (apply Z.pow_le_mono_r; lia). lia.
  - destruct (Z_lt_le_dec k (Z.pos (digits2_pos p))) as [G|G]; [|lia].
    assert (2 ^ k <= 2 ^ (Z.pos (digits2_pos p) - 1)) by (apply Z.pow_le_mono_r; lia). lia.
Qed.

Lemma shr_nonpos (mrs : shr_record) (e n : Z) : n <= 0 -> shr mrs e n = (mrs, e).
Proof. destruct n; try reflexivity. lia. Qed.

Lemma shr_exact (m e n : Z) :
  0 <= m -> 0 < n -> m mod 2 ^ n = 0 ->
  shr (Build_shr_record m false false) e n
  = (Build_shr_record (m / 2 ^ n) false false, e + n).
Proof.
  intros Hm Hn E. destruct n as [|p|p]; try lia.
  unfold shr. rewrite iter_pos_nat, shr_iter_exact, positive_nat_Z; auto.
  rewrite positive_nat_Z. exact E.
Qed.

Lemma shr_m_general (mrs : shr_record) (e n : Z) :
  0 <= shr_m mrs -> 0 <= n ->
  shr_m (fst (shr mrs e n)) = shr_m mrs / 2 ^ n /\ snd (shr mrs e n) = e + n.
Proof.
  intros Hm Hn. destruct n as [|p|p]; try lia.
  - simpl. rewrite Z.div_1_r. split; [reflexivity|lia].
  - unfold shr. cbn [fst snd]. rewrite iter_pos_nat, shr_iter_m, positive_nat_Z by assumption.
    split; reflexivity.
Qed.

(** Rounding a mantissa that already fits its exponent changes nothing. *)
Lemma binary_round_aux_fits (s : bool) (mx : positive) (ex : Z) :
  fexp prec emax (Z.pos (digits2_pos mx) + ex) <= ex -> ex <= emax - prec ->
  binary_round_aux prec emax s (Z.pos mx) ex loc_Exact = S754_finite s mx ex.
Proof.
  intros Hk He. unfold binary_round_aux, shr_fexp. cbn [Zdigits2 shr_record_of_loc].
  rewrite shr_nonpos by lia. cbn [shr_m loc_of_shr_record round_nearest_even].
  cbn [Zdigits2 shr_record_of_loc]. rewrite shr_nonpos by lia. cbn [shr_m].
  replace (ex <=? emax - prec) with true by (symmetry; apply Z.leb_le; exact He).
  reflexivity.
Qed.

(** Rounding drops low zero bits exactly. *)
Lemma binary_round_aux_exact (s : bool) (mx : positive) (ex k : Z) :
  fexp prec emax (Z.pos (digits2_pos mx) + ex) = ex + k -> 0 < k ->
  Z.pos mx mod 2 ^ k = 0 -> ex + k <= emax - prec ->
  binary_round_aux prec emax s (Z.pos mx) ex loc_Exact
  = S754_finite s (Z.to_pos (Z.pos mx / 2 ^ k)) (ex + k).
Proof.
  intros Hf Hk Hmod He.
  assert (Hp : 0 < 2 ^ k) by (apply Z.pow_pos_nonneg; lia).
  assert (Hq : Z.pos mx = 2 ^ k * (Z.pos mx / 2 ^ k)).
  { pose proof (Z.div_mod (Z.pos mx) (2 ^ k)). lia. }
  assert (Hq0 : 0 < Z.pos mx / 2 ^ k) by nia.
  destruct (Z.pos mx / 2 ^ k) as [|q|q] eqn:Eq; try lia.
  assert (Hdq : Z.pos (digits2_pos q) = Z.pos (digits2_pos mx) - k).
  { apply digits2_unique. pose proof (digits2_bounds mx) as [B1 B2].
    assert (Hd : k < Z.pos (digits2_pos mx)).
    { destruct (Z_lt_le_dec k (Z.pos (digits2_pos mx))); [assumption|].
      assert (2 ^ Z.pos (digits2_pos mx) <= 2 ^ k) by (apply Z.pow_le_mono_r; lia). nia. }
    assert (P1 : 2 ^ (Z.pos (digits2_pos mx) - 1) = 2 ^ k * 2 ^ (Z.pos (digits2_pos mx) - k - 1)).
    { rewrite <- Z.pow_add_r by lia. f_equal. lia. }
    assert (P2 : 2 ^ Z.pos (digits2_pos mx) = 2 ^ k * 2 ^ (Z.pos (digits2_pos mx) - k)).
    { rewrite <- Z.pow_add_r by lia. f_equal. lia. }
    rewrite P1 in B1. rewrite P2 in B2. nia. }
  unfold binary_round_aux, shr_fexp. cbn [Zdigits2 shr_record_of_loc].
  rewrite Hf. replace (ex + k - ex) with k by lia.
  rewrite shr_exact by (lia || assumption). rewrite Eq.
  cbn [shr_m loc_of_shr_record round_nearest_even Zdigits2 shr_record_of_loc].
  rewrite Hdq. replace (Z.pos (digits2_pos mx) - k + (ex + k)) with (Z.pos (digits2_pos mx) + ex) by lia.
  rewrite Hf, shr_nonpos by lia. cbn [shr_m].
  replace (ex + k <=? emax - prec) with true by (symmetry; apply Z.leb_le; exact He).
  reflexivity.
Qed.

Lemma bounded_spec (m : positive) (e : Z) :
  bounded prec emax m e = true ->
  Z.max (Z.pos (digits2_pos m) + e - 53) (-1074) = e /\ e <= 971.
Proof.
  unfold bounded, canonical_mantissa, fexp. intros H.
  apply andb_true_iff in H. destruct H as [H1 H2].
  apply Z.eqb_eq in H1. apply Z.leb_le in H2.
  change prec with 53 in *. change emax with 1024 in *.
  change (SpecFloat.emin 53 1024) with (-1074) in *. split; assumption.
Qed.

Lemma fexp_eq (z : Z) : fexp prec emax z = Z.max (z - 53) (-1074).
Proof. reflexivity. Qed.

Lemma pow2_split (a b : Z) : 0 <= a -> 0 <= b -> 2 ^ (a + b) = 2 ^ a * 2 ^ b.
Proof. intros. apply Z.pow_add_r; assumption. Qed.

(** The float as a whole number of units of 2^-1074: [m * 2^e] is
    [float_units * 2^-1074]. *)
Lemma mul_1024_exact (m : positive) (e : Z) :
  bounded prec emax m e = true -> e <= -53 ->
  exists m' e',
    SF64mul (S754_finite false m e) (S754_finite false 4503599627370496 (-42))
    = S754_finite false m' e'
    /\ e' < 0
    /\ Z.pos m' / 2 ^ (- e') = Z.pos m * 2 ^ (e + 1074) / 2 ^ 1064.
Proof.
  intros Hb He. apply bounded_spec in Hb. destruct Hb as [Hc _].
  pose proof (digits2_bounds m) as [B1 B2].
  set (dg := Z.pos (digits2_pos m)) in *.
  assert (Hdg : 1 <= dg) by (unfold dg; lia).
  set (k := Z.max (dg + e - 43) (-1074) - e + 42).
  assert (Hk : 42 <= k <= 52) by (unfold k; lia).
  assert (E52 : Z.pos 4503599627370496 = 2 ^ 52) by reflexivity.
  assert (Hd : Z.pos (digits2_pos (m * 4503599627370496)) = dg + 52).
  { apply digits2_unique. rewrite Pos2Z.inj_mul, E52.
    replace (dg + 52 - 1) with ((dg - 1) + 52) by lia.
    rewrite !pow2_split by lia. nia. }
  assert (P52 : 2 ^ 52 = 2 ^ (52 - k) * 2 ^ k).
  { rewrite <- pow2_split by lia. f_equal. lia. }
  assert (Hpk : 0 < 2 ^ k) by (apply Z.pow_pos_nonneg; lia).
  assert (Hp52k : 0 < 2 ^ (52 - k)) by (apply Z.pow_pos_nonneg; lia).
  exists (Z.to_pos (Z.pos (m * 4503599627370496) / 2 ^ k)), (e + -42 + k).
  split; [|split].
  - unfold SF64mul, SFmul. cbn [xorb].
    apply binary_round_aux_exact.
    + rewrite Hd, fexp_eq. unfold k. lia.
    + lia.
    + rewrite Pos2Z.inj_mul, E52, P52, Z.mul_assoc. apply Z.mod_mul. lia.
    + change (emax - prec) with 971. lia.
  - lia.
  - rewrite Pos2Z.inj_mul, E52, P52, Z.mul_assoc, Z.div_mul by lia.
    rewrite Z2Pos.id by nia.
    replace (- (e + -42 + k)) with ((- e - 10) + (52 - k)) by lia.
    replace 1064 with ((- e - 10) + (e + 1074)) by lia.
    rewrite (pow2_split (- e - 10) (52 - k)), (pow2_split (- e - 10) (e + 1074)) by lia.
    assert (0 < 2 ^ (e + 1074)) by (apply Z.pow_pos_nonneg; lia).
    assert (0 < 2 ^ (- e - 10)) by (apply Z.pow_pos_nonneg; lia).
    rewrite !Z.div_mul_cancel_r by lia. reflexivity.
Qed.

Lemma iter_xO_pow (P d : positive) : Z.pos (Pos.iter xO P d) = Z.pos P * 2 ^ Z.pos d.
Proof.
  change (Pos.iter xO P d) with (shift_pos d P).
  rewrite shift_pos_correct. change (Z.pow_pos 2 d) with (2 ^ Z.pos d). lia.
Qed.

(** Normalising an integer of at most 53 bits is exact: the mantissa is
    shifted left to 53 bits. *)
Lemma binary_round_small (s : bool) (P : positive) (ez : Z) :
  Z.pos (digits2_pos P) <= 53 ->
  -1074 <= Z.pos (digits2_pos P) + ez - 53 -> ez <= 971 ->
  binary_round prec emax s P ez
  = S754_finite s (Z.to_pos (Z.pos P * 2 ^ (53 - Z.pos (digits2_pos P))))
      (Z.pos (digits2_pos P) + ez - 53).
Proof.
  intros Hd Hlo Hhi. pose proof (digits2_bounds P) as [B1 B2].
  set (dg := Z.pos (digits2_pos P)) in *.
  unfold binary_round. fold dg. rewrite fexp_eq. rewrite Z.max_l by lia.
  unfold shl_align. destruct (dg + ez - 53 - ez) as [|d|d] eqn:Ed; try lia.
  - assert (dg = 53) by lia.
    rewrite binary_round_aux_fits.
    + f_equal; [|lia]. replace (53 - dg) with 0 by lia. rewrite Z.mul_1_r. reflexivity.
    + fold dg. rewrite fexp_eq. lia.
    + change (emax - prec) with 971. lia.
  - assert (Hdd : Z.pos d = 53 - dg) by lia.
    assert (Hdig : Z.pos (digits2_pos (Pos.iter xO P d)) = 53).
    { apply digits2_unique. rewrite iter_xO_pow, Hdd.
      assert (P1 : 2 ^ (53 - 1) = 2 ^ (dg - 1) * 2 ^ (53 - dg)).
      { rewrite <- pow2_split by lia. f_equal. lia. }
      assert (P2 : 2 ^ 53 = 2 ^ dg * 2 ^ (53 - dg)).
      { rewrite <- pow2_split by lia. f_equal. lia. }
      assert (0 < 2 ^ (53 - dg)) by (apply Z.pow_pos_nonneg; lia).
      rewrite P1, P2. nia. }
    rewrite binary_round_aux_fits.
    + f_equal. rewrite <- Hdd, <- iter_xO_pow. reflexivity.
    + rewrite Hdig, fexp_eq. lia.
    + change (emax - prec) with 971. lia.
Qed.

Lemma ltb_vs_2p52 (m : positive) (f e0 : Z) :
  2 ^ 52 <= Z.pos m ->
  SFltb (S754_finite false m f) (S754_finite false 4503599627370496 e0) = (f <? e0).
Proof.
  intros Hm. unfold SFltb, SFcompare.
  destruct (Z.compare_spec f e0) as [E|L|G].
  - subst. rewrite Z.ltb_irrefl. rewrite Pos.compare_cont_spec. simpl.
    destruct (Pos.compare_spec m 4503599627370496) as [E|L|G]; try reflexivity.
    exfalso. apply Pos2Z.pos_lt_pos in L. change (Z.pos 4503599627370496) with (2 ^ 52) in L. lia.
  - symmetry. apply Z.ltb_lt. exact L.
  - symmetry. apply Z.ltb_ge. lia.
Qed.

(** The comparison [abs (d - 0.5) < 1/1024] when [d] is in [0.25, 1): the
    subtraction is exact. *)
Lemma near_half_exact (m : positive) (e : Z) :
  bounded prec emax m e = true -> -54 <= e <= -53 ->
  SFltb (SFabs (SF64sub (S754_finite false m e) (S754_finite false 4503599627370496 (-53))))
        (S754_finite false 4503599627370496 (-62))
  = (Z.abs (Z.pos m * 2 ^ (e + 1074) - 2 ^ 1073) <? 2 ^ 1064).
Proof.
  intros Hb He. apply bounded_spec in Hb. destruct Hb as [Hc _].
  pose proof (digits2_bounds m) as [B1 B2].
  assert (Hdg : Z.pos (digits2_pos m) = 53) by lia.
  rewrite Hdg in B1, B2. change (2 ^ (53 - 1)) with (2 ^ 52) in B1.
  set (M := Z.pos m - 2 ^ (- 1 - e)).
  assert (HM : Z.pos m * 2 ^ (e + 1074) - 2 ^ 1073 = M * 2 ^ (e + 1074)).
  { unfold M. rewrite Z.mul_sub_distr_r, <- pow2_split by lia.
    replace (-1 - e + (e + 1074)) with 1073 by lia. reflexivity. }
  assert (Hp : 0 < 2 ^ (e + 1074)) by (apply Z.pow_pos_nonneg; lia).
  assert (H64 : 2 ^ 1064 = 2 ^ (- 10 - e) * 2 ^ (e + 1074)).
  { rewrite <- pow2_split by lia. f_equal. lia. }
  assert (Hsub : SF64sub (S754_finite false m e) (S754_finite false 4503599627370496 (-53))
                 = binary_normalize prec emax M e false).
  { unfold SF64sub, SFsub, M. rewrite Z.min_l by lia. unfold shl_align.
    replace (e - e) with 0 by lia. cbn [fst cond_Zopp].
    destruct (Z.eq_dec e (-53)) as [->|Hne]; [reflexivity|].
    assert (e = -54) by lia. subst e. reflexivity. }
  rewrite Hsub, HM, Z.abs_mul, (Z.abs_eq (2 ^ (e + 1074))), H64 by lia.
  assert (HMb : Z.abs M <= 2 ^ 52).
  { unfold M. destruct (Z.eq_dec e (-53)) as [->|Hne].
    - change (2 ^ (-1 - -53)) with (2 ^ 52). lia.
    - assert (e = -54) by lia. subst e. change (2 ^ (-1 - -54)) with (2 ^ 53).
      change (2 ^ 53) with (2 * 2 ^ 52) in *. lia. }
  clearbody M.
  destruct M as [|P|P].
  - cbn [binary_normalize SFabs]. simpl Z.abs. rewrite Z.mul_0_l.
    unfold SFltb, SFcompare. symmetry. apply Z.ltb_lt. nia.
  - cbn [binary_normalize]. pose proof (digits2_bounds P) as [C1 C2].
    assert (Hd : Z.pos (digits2_pos P) <= 53).
    { destruct (Z_lt_le_dec 53 (Z.pos (digits2_pos P))); [|assumption].
      assert (2 ^ 53 <= 2 ^ (Z.pos (digits2_pos P) - 1)) by (apply Z.pow_le_mono_r; lia).
      change (2 ^ 53) with (2 * 2 ^ 52) in *. simpl Z.abs in HMb. lia. }
    rewrite binary_round_small by lia. cbn [SFabs].
    rewrite ltb_vs_2p52.
    + simpl Z.abs. apply eq_true_iff_eq. rewrite !Z.ltb_lt.
      rewrite <- Z.mul_lt_mono_pos_r by lia.
      split; intros H.
      * assert (2 ^ Z.pos (digits2_pos P) <= 2 ^ (- 10 - e)) by (apply Z.pow_le_mono_r; lia). lia.
      * destruct (Z_lt_le_dec (Z.pos (digits2_pos P) + e - 53) (-62)); [assumption|].
        assert (2 ^ (- 10 - e) <= 2 ^ (Z.pos (digits2_pos P) - 1)) by (apply Z.pow_le_mono_r; lia).
        lia.
    + assert (P1 : 2 ^ 52 = 2 ^ (Z.pos (digits2_pos P) - 1) * 2 ^ (53 - Z.pos (digits2_pos P))).
      { rewrite <- pow2_split by lia. f_equal. lia. }
      assert (0 < 2 ^ (53 - Z.pos (digits2_pos P))) by (apply Z.pow_pos_nonneg; lia).
      rewrite Z2Pos.id by nia. rewrite P1. nia.
  - cbn [binary_normalize]. pose proof (digits2_bounds P) as [C1 C2].
    assert (Hd : Z.pos (digits2_pos P) <= 53).
    { destruct (Z_lt_le_dec 53 (Z.pos (digits2_pos P))); [|assumption].
      assert (2 ^ 53 <= 2 ^ (Z.pos (digits2_pos P) - 1)) by (apply Z.pow_le_mono_r; lia).
      change (2 ^ 53) with (2 * 2 ^ 52) in *. simpl Z.abs in HMb. lia. }
    rewrite binary_round_small by lia. cbn [SFabs].
    rewrite ltb_vs_2p52.
    + simpl Z.abs. apply eq_true_iff_eq. rewrite !Z.ltb_lt.
      rewrite <- Z.mul_lt_mono_pos_r by lia.
      split; intros H.
      * assert (2 ^ Z.pos (digits2_pos P) <= 2 ^ (- 10 - e)) by (apply Z.pow_le_mono_r; lia). lia.
      * destruct (Z_lt_le_dec (Z.pos (digits2_pos P) + e - 53) (-62)); [assumption|].
        assert (2 ^ (- 10 - e) <= 2 ^ (Z.pos (digits2_pos P) - 1)) by (apply Z.pow_le_mono_r; lia).
        lia.
    + assert (P1 : 2 ^ 52 = 2 ^ (Z.pos (digits2_pos P) - 1) * 2 ^ (53 - Z.pos (digits2_pos P))).
      { rewrite <- pow2_split by lia. f_equal. lia. }
      assert (0 < 2 ^ (53 - Z.pos (digits2_pos P))) by (apply Z.pow_pos_nonneg; lia).
      rewrite Z2Pos.id by nia. rewrite P1. nia.
Qed.

Lemma round_nearest_even_ge (m : Z) (l : location) : m <= round_nearest_even m l.
Proof.
  unfold round_nearest_even. destruct l as [|[| |]]; try lia.
  destruct (Z.even m); lia.
Qed.

Lemma div_pow2_lower (q : positive) (j : Z) :
  0 <= j <= Z.pos (digits2_pos q) - 1 ->
  2 ^ (Z.pos (digits2_pos q) - 1 - j) <= Z.pos q / 2 ^ j.
Proof.
  intros Hj. pose proof (digits2_bounds q) as [B1 _].
  apply Z.div_le_lower_bound; [apply Z.pow_pos_nonneg; lia|].
  rewrite <- pow2_split by lia.
  replace (j + (Z.pos (digits2_pos q) - 1 - j)) with (Z.pos (digits2_pos q) - 1) by lia.
  exact B1.
Qed.

(** Rounding a mantissa of 53 bits or more, in the normal range: the result
    is not zero and its exponent is at least the target exponent. *)
Lemma binary_round_aux_big (s : bool) (mx : positive) (ex : Z) :
  53 <= Z.pos (digits2_pos mx) -> -1074 <= Z.pos (digits2_pos mx) + ex - 53 ->
  binary_round_aux prec emax s (Z.pos mx) ex loc_Exact = S754_infinity s
  \/ exists m' e',
       binary_round_aux prec emax s (Z.pos mx) ex loc_Exact = S754_finite s m' e'
       /\ Z.pos (digits2_pos mx) + ex - 53 <= e'.
Proof.
  intros Hd Hn. set (dg := Z.pos (digits2_pos mx)) in *.
  unfold binary_round_aux.
  destruct (shr_fexp prec emax (Z.pos mx) ex loc_Exact) as [mrs' e'] eqn:E1.
  unfold shr_fexp in E1. cbn [Zdigits2 shr_record_of_loc] in E1. fold dg in E1.
  rewrite fexp_eq, Z.max_l in E1 by lia.
  destruct (shr_m_general (Build_shr_record (Z.pos mx) false false) ex (dg + ex - 53 - ex))
    as [F1 F2]; [cbn; lia|lia|].
  rewrite E1 in F1, F2. cbn [fst snd shr_m] in F1, F2.
  pose proof (div_pow2_lower mx (dg + ex - 53 - ex)) as L1. fold dg in L1.
  replace (dg - 1 - (dg + ex - 53 - ex)) with 52 in L1 by lia.
  specialize (L1 ltac:(lia)). rewrite <- F1 in L1.
  pose proof (round_nearest_even_ge (shr_m mrs') (loc_of_shr_record mrs')) as L2.
  assert (Hpos : 0 < 2 ^ 52) by (apply Z.pow_pos_nonneg; lia).
  destruct (round_nearest_even (shr_m mrs') (loc_of_shr_record mrs')) as [|q|q] eqn:Eq; try lia.
  destruct (shr_fexp prec emax (Z.pos q) e' loc_Exact) as [mrs'' e''] eqn:E2.
  unfold shr_fexp in E2. cbn [Zdigits2 shr_record_of_loc] in E2.
  pose proof (digits2_bounds q) as [C1 C2].
  set (dq := Z.pos (digits2_pos q)) in *.
  assert (Hdq : 53 <= dq).
  { destruct (Z_lt_le_dec dq 53); [|assumption].
    assert (2 ^ dq <= 2 ^ 52) by (apply Z.pow_le_mono_r; lia). lia. }
  rewrite fexp_eq, Z.max_l in E2 by lia.
  destruct (shr_m_general (Build_shr_record (Z.pos q) false false) e' (dq + e' - 53 - e'))
    as [G1 G2]; [cbn; lia|lia|].
  rewrite E2 in G1, G2. cbn [fst snd shr_m] in G1, G2.
  pose proof (div_pow2_lower q (dq + e' - 53 - e')) as L3. fold dq in L3.
  replace (dq - 1 - (dq + e' - 53 - e')) with 52 in L3 by lia.
  specialize (L3 ltac:(lia)). rewrite <- G1 in L3.
  destruct (shr_m mrs'') as [|m''|m'']; try lia.
  destruct (e'' <=? emax - prec); [right|left; reflexivity].
  exists m'', e''. split; [reflexivity|lia].
Qed.

(** The same comparison when [d] is below 0.25: the difference stays far
    from zero, rounded or not. *)
Lemma far_from_half (m : positive) (e : Z) :
  bounded prec emax m e = true -> e <= -55 ->
  SFltb (SFabs (SF64sub (S754_finite false m e) (S754_finite false 4503599627370496 (-53))))
        (S754_finite false 4503599627370496 (-62)) = false
  /\ (Z.abs (Z.pos m * 2 ^ (e + 1074) - 2 ^ 1073) <? 2 ^ 1064) = false.
Proof.
  intros Hb He. apply bounded_spec in Hb. destruct Hb as [Hc _].
  pose proof (digits2_bounds m) as [B1 B2].
  assert (Hdg : Z.pos (digits2_pos m) <= 53) by lia.
  assert (Hm : Z.pos m < 2 ^ 53).
  { assert (2 ^ Z.pos (digits2_pos m) <= 2 ^ 53) by (apply Z.pow_le_mono_r; lia). lia. }
  assert (Hbig : 2 ^ 53 <= 2 ^ (- 2 - e)) by (apply Z.pow_le_mono_r; lia).
  assert (P1 : 2 ^ (- 1 - e) = 2 * 2 ^ (- 2 - e)).
  { rewrite <- Z.pow_succ_r by lia. f_equal. lia. }
  split.
  - destruct (-53 - e) as [|d|d] eqn:Ed; try lia.
    assert (Hsub : SF64sub (S754_finite false m e) (S754_finite false 4503599627370496 (-53))
                   = binary_normalize prec emax (Z.pos m - 2 ^ (- 1 - e)) e false).
    { unfold SF64sub, SFsub. rewrite Z.min_l by lia. unfold shl_align.
      replace (e - e) with 0 by lia. replace (e - -53) with (Z.neg d) by lia.
      cbn [fst cond_Zopp]. rewrite iter_xO_pow.
      change (Z.pos 4503599627370496) with (2 ^ 52). rewrite <- pow2_split by lia.
      replace (52 + Z.pos d) with (- 1 - e) by lia. reflexivity. }
    rewrite Hsub.
    destruct (Z.pos m - 2 ^ (- 1 - e)) as [|P|P] eqn:EP; try lia.
    cbn [binary_normalize].
    assert (HP : Z.pos (digits2_pos P) = - 1 - e).
    { apply digits2_unique. replace (- 1 - e - 1) with (- 2 - e) by lia. lia. }
    unfold binary_round. rewrite HP, fexp_eq.
    replace (Z.max (-1 - e + e - 53) (-1074)) with (-54) by lia.
    unfold shl_align. destruct (-54 - e) as [|j|j] eqn:Ej; try lia.
    destruct (binary_round_aux_big true P e) as [R|[m' [e' [R Hr]]]]; try lia.
    + rewrite R. reflexivity.
    + rewrite R. cbn [SFabs]. unfold SFltb, SFcompare.
      replace (e' ?= -62) with Gt; [reflexivity|].
      symmetry. apply Z.compare_gt_iff. lia.
  - apply Z.ltb_ge.
    assert (Hp : 0 < 2 ^ (e + 1074)) by (apply Z.pow_pos_nonneg; lia).
    assert (H73 : 2 ^ 1073 = 2 ^ (- 1 - e) * 2 ^ (e + 1074)).
    { rewrite <- pow2_split by lia. f_equal. lia. }
    assert (H64 : 2 ^ 1064 = 2 ^ (- 10 - e) * 2 ^ (e + 1074)).
    { rewrite <- pow2_split by lia. f_equal. lia. }
    assert (Hle : 2 ^ (- 10 - e) <= 2 ^ (- 2 - e)) by (apply Z.pow_le_mono_r; lia).
    rewrite H73, H64, <- Z.mul_sub_distr_r, Z.abs_mul, (Z.abs_eq (2 ^ (e + 1074))) by lia.
    apply Z.mul_le_mono_nonneg_r; lia.
Qed.

(** ** PWM duty *)

Lemma duty_code_spec_range (n : Z) : 1 <= duty_code_spec n <= 1022.
Proof. unfold duty_code_spec. destruct (_ <? _); lia. Qed.

Lemma scaled_ticks (n : Z) : 1024 * n / 2 ^ 1074 = n / 2 ^ 1064.
Proof.
  assert (H : 2 ^ 1074 = 1024 * 2 ^ 1064).
  { change 1024 with (2 ^ 10). rewrite <- pow2_split by lia. reflexivity. }
  assert (0 < 2 ^ 1064) by (apply Z.pow_pos_nonneg; lia).
  rewrite H, Z.div_mul_cancel_l by lia. reflexivity.
Qed.

Lemma near_half_ticks (n : Z) :
  Z.abs (n - 2 ^ 1073) < 2 ^ 1064 -> 511 <= n / 2 ^ 1064 <= 512.
Proof.
  intros H.
  assert (H73 : 2 ^ 1073 = 512 * 2 ^ 1064).
  { change 512 with (2 ^ 9). rewrite <- pow2_split by lia. reflexivity. }
  assert (Hc : 0 < 2 ^ 1064) by (apply Z.pow_pos_nonneg; lia).
  rewrite H73 in H. set (c := 2 ^ 1064) in *. clearbody c.
  split.
  - apply Z.div_le_lower_bound; lia.
  - assert (n / c < 513); [|lia]. apply Z.div_lt_upper_bound; lia.
Qed.

(** The duty code of a float strictly inside (0, 1), from its mantissa and
    exponent. *)
Lemma pwm_duty_code_inner (d : float) (m : positive) (e : Z) :
  Prim2SF d = S754_finite false m e -> e <= -53 ->
  pwm_duty_code d = Ok (duty_code_spec (float_units d)).
Proof.
  intros Hd He. pose proof (Prim2SF_valid d) as Hv. rewrite Hd in Hv. cbn [SpecFloat.valid_binary] in Hv.
  unfold pwm_duty_code, float_units.
  rewrite !leb_spec, !eqb_spec, ltb_spec, abs_spec, sub_spec, Hd.
  change (Prim2SF 0) with (S754_zero false).
  change (Prim2SF 1) with (S754_finite false 4503599627370496 (-52)).
  change (Prim2SF 0.5) with (S754_finite false 4503599627370496 (-53)).
  change (Prim2SF (1 / 1024)) with (S754_finite false 4503599627370496 (-62)).
  unfold SFleb, SFeqb. cbn [SFcompare].
  replace (e ?= -52) with Lt by (symmetry; apply Z.compare_lt_iff; lia).
  cbn [andb negb].
  unfold py_int_of_float. rewrite mul_spec, Hd.
  change (Prim2SF 1024) with (S754_finite false 4503599627370496 (-42)).
  destruct (mul_1024_exact m e Hv He) as [m' [e' [Hmul [He' Hdiv]]]].
  rewrite Hmul. replace (0 <=? e') with false by (symmetry; apply Z.leb_gt; lia).
  rewrite Hdiv. cbn [rbind]. rewrite Z.mul_1_l.
  set (n := Z.pos m * 2 ^ (e + 1074)).
  unfold duty_code_spec. rewrite scaled_ticks.
  assert (Hnear :
    SFltb (SFabs (SF64sub (S754_finite false m e) (S754_finite false 4503599627370496 (-53))))
          (S754_finite false 4503599627370496 (-62))
    = (Z.abs (n - 2 ^ 1073) <? 2 ^ 1064)).
  { destruct (Z_le_gt_dec e (-55)) as [L|G].
    - destruct (far_from_half m e Hv L) as [F1 F2]. fold n in F2. rewrite F1, F2. reflexivity.
    - apply near_half_exact; [exact Hv|lia]. }
  rewrite Hnear.
  destruct (Z.abs (n - 2 ^ 1073) <? 2 ^ 1064) eqn:En.
  - apply Z.ltb_lt in En. apply near_half_ticks in En.
    replace (n / 2 ^ 1064 <=? 0) with false by (symmetry; apply Z.leb_gt; lia).
    replace (n / 2 ^ 1064 >=? 1023) with false
      by (symmetry; rewrite Z.geb_leb; apply Z.leb_gt; lia).
    reflexivity.
  - destruct (n / 2 ^ 1064 <=? 0) eqn:E1.
    + apply Z.leb_le in E1. f_equal. lia.
    + apply Z.leb_gt in E1. destruct (n / 2 ^ 1064 >=? 1023) eqn:E2.
      * rewrite Z.geb_leb in E2. apply Z.leb_le in E2. f_equal. lia.
      * rewrite Z.geb_leb in E2. apply Z.leb_gt in E2. f_equal. lia.
Qed.

(** What the guard [0.0 <= duty <= 1.0] leaves: a zero, one, or a positive
    float below one, whose exponent is then at most -53. *)
Lemma duty_cases (d : float) :
  (0 <=? d)%float = true -> (d <=? 1)%float = true ->
  (d =? 0)%float = true
  \/ ((d =? 0)%float = false /\ (d =? 1)%float = true)
  \/ ((d =? 0)%float = false /\ (d =? 1)%float = false
      /\ exists m e, Prim2SF d = S754_finite false m e /\ e <= -53).
Proof.
  rewrite !leb_spec, !eqb_spec. pose proof (Prim2SF_valid d) as Hv.
  change (Prim2SF 0) with (S754_zero false).
  change (Prim2SF 1) with (S754_finite false 4503599627370496 (-52)).
  destruct (Prim2SF d) as [s|s| |s m e]; intros H0 H1.
  - left. reflexivity.
  - destruct s; discriminate.
  - discriminate.
  - destruct s; [discriminate|]. right.
    cbn [SpecFloat.valid_binary] in Hv. apply bounded_spec in Hv. destruct Hv as [Hc _].
    pose proof (digits2_bounds m) as [B1 B2].
    unfold SFleb, SFeqb in *. cbn [SFcompare] in *.
    destruct (Z.compare_spec e (-52)) as [E|L|G]; try discriminate.
    + subst e. rewrite Pos.compare_cont_spec in *. cbn [Pos.switch_Eq] in *.
      destruct (Pos.compare_spec m 4503599627370496) as [E|L|G]; try discriminate.
      * left. split; reflexivity.
      * exfalso. apply Pos2Z.pos_lt_pos in L.
        change (Z.pos 4503599627370496) with (2 ^ 52) in L.
        assert (Z.pos (digits2_pos m) = 53) by lia.
        replace (Z.pos (digits2_pos m) - 1) with 52 in B1 by lia. lia.
    + right. split; [reflexivity|]. split; [reflexivity|]. exists m, e. split; [reflexivity|lia].
Qed.

Lemma duty_strictly_inside (d : float) :
  (0 <? d)%float = true -> (d <? 1)%float = true ->
  exists m e, Prim2SF d = S754_finite false m e /\ e <= -53.
Proof.
  intros H0 H1.
  assert (L0 : (0 <=? d)%float = true).
  { rewrite leb_spec. rewrite ltb_spec in H0. unfold SFleb, SFltb in *.
    destruct (SFcompare (Prim2SF 0) (Prim2SF d)) as [[| |]|]; try discriminate; reflexivity. }
  assert (L1 : (d <=? 1)%float = true).
  { rewrite leb_spec. rewrite ltb_spec in H1. unfold SFleb, SFltb in *.
    destruct (SFcompare (Prim2SF d) (Prim2SF 1)) as [[| |]|]; try discriminate; reflexivity. }
  destruct (duty_cases d L0 L1) as [E|[[_ E]|[_ [_ E]]]]; [| |exact E]; exfalso.
  - rewrite eqb_spec in E. rewrite ltb_spec in H0.
    change (Prim2SF 0) with (S754_zero false) in *.
    destruct (Prim2SF d) as [s|s| |s m e]; cbn in E, H0; try discriminate;
      destruct s; cbn in E, H0; discriminate.
  - rewrite eqb_spec in E. rewrite ltb_spec in H1. unfold SFeqb, SFltb in *.
    destruct (SFcompare (Prim2SF d) (Prim2SF 1)) as [[| |]|]; discriminate.
Qed.

(** Every duty that passes the guard [0.0 <= duty <= 1.0] gets a code, in
    [0x0000, 0x03FF], and in [0x0001, 0x03FE] strictly inside. *)
Lemma pwm_duty_code_ok (d : float) :
  (0 <=? d)%float = true -> (d <=? 1)%float = true ->
  exists code,
    pwm_duty_code d = Ok code /\ 0 <= code <= 1023
    /\ ((0 <? d)%float && (d <? 1)%float = true -> 1 <= code <= 1022).
Proof.
  intros H0 H1.
  destruct (duty_cases d H0 H1) as [E|[[E0 E1]|[E0 [E1 [m [e [Hd He]]]]]]].
  - exists 0. unfold pwm_duty_code. rewrite H0, H1, E. cbn [andb negb].
    split; [reflexivity|]. split; [lia|]. intros Hs. exfalso.
    apply andb_true_iff in Hs. destruct Hs as [S0 S1].
    destruct (duty_strictly_inside d S0 S1) as [m [e [Hd He]]].
    rewrite eqb_spec, Hd in E. discriminate.
  - exists 1023. unfold pwm_duty_code. rewrite H0, H1, E0, E1. cbn [andb negb].
    split; [reflexivity|]. split; [lia|]. intros Hs. exfalso.
    apply andb_true_iff in Hs. destruct Hs as [S0 S1].
    destruct (duty_strictly_inside d S0 S1) as [m [e [Hd He]]].
    rewrite eqb_spec, Hd in E1. unfold SFeqb in E1. cbn [SFcompare] in E1.
    change (Prim2SF 1) with (S754_finite false 4503599627370496 (-52)) in E1.
    cbn [SFcompare] in E1.
    replace (e ?= -52) with Lt in E1 by (symmetry; apply Z.compare_lt_iff; lia).
    discriminate.
  - exists (duty_code_spec (float_units d)).
    pose proof (duty_code_spec_range (float_units d)).
    split; [apply (pwm_duty_code_inner d m e Hd He)|]. split; lia.
Qed.

(** C3: the duty fraction to raw code mapping.  0.0 gives 0x0000, 1.0 gives
    0x03FF, 0.5 gives 0x01FF (not 0x0200), 0.5 + 1/2048 and 0.5 - 1/2048
    give 0x01FF, 0.1 (the float nearest to it, 0x1.999999999999ap-4) gives
    a code strictly between 0x0001 and 0x03FE; and
    for every float duty strictly between 0.0 and 1.0 the code is that of
    the exact value of the duty: 0x01FF when it is within 1/1024 of 0.5,
    otherwise the duty scaled by 1024, truncated and clamped into
    [1, 1022]. *)
Theorem pwm_duty_code_mapping :
  pwm_duty_code 0 = Ok 0x0000
  /\ pwm_duty_code 1 = Ok 0x03FF
  /\ pwm_duty_code 0.5 = Ok 0x01FF
  /\ pwm_duty_code 0.5 <> Ok 0x0200
  /\ pwm_duty_code (0.5 + 1 / 2048) = Ok 0x01FF
  /\ pwm_duty_code (0.5 - 1 / 2048) = Ok 0x01FF
  /\ (exists code, pwm_duty_code 0x1.999999999999ap-4 = Ok code /\ 0x0001 < code < 0x03FE)
  /\ (forall d : float,
        (0 <? d)%float && (d <? 1)%float = true ->
        pwm_duty_code d = Ok (duty_code_spec (float_units d))
        /\ 1 <= duty_code_spec (float_units d) <= 1022
        /\ (Z.abs (float_units d - 2 ^ 1073) < 2 ^ 1064 ->
            duty_code_spec (float_units d) = 0x01FF)).
Proof.
  repeat split; try reflexivity.
  - discriminate.
  - exists 102. repeat split; reflexivity.
  - apply andb_true_iff in H. destruct H as [S0 S1].
    destruct (duty_strictly_inside d S0 S1) as [m [e [Hd He]]].
    apply (pwm_duty_code_inner d m e Hd He).
  - apply duty_code_spec_range.
  - apply duty_code_spec_range.
  - intros Hn. unfold duty_code_spec.
    replace (Z.abs (float_units d - 2 ^ 1073) <? 2 ^ 1064) with true
      by (symmetry; apply Z.ltb_lt; exact Hn).
    reflexivity.
Qed.

Lemma pwm_duty_code_mapping_witness :
  ((0 <? 0.3125)%float && (0.3125 <? 1)%float = true
   /\ pwm_duty_code 0.3125 = Ok 320)
  /\ duty_code_spec (float_units 0.49951171875) = 0x01FF.
Proof.
  split; [split; [reflexivity|]|].
  - apply (proj1 (proj2 (proj2 (proj2 (proj2 (proj2 (proj2 (proj2
             pwm_duty_code_mapping)))))) 0.3125%float eq_refl)).
  - apply (proj2 (proj2 (proj2 (proj2 (proj2 (proj2 (proj2 (proj2
             pwm_duty_code_mapping)))))) 0.49951171875%float eq_refl)).
    vm_compute. reflexivity.
Defined.

(** ** ADC value to voltage *)

Lemma float_of_int_finite (n : Z) (g : float) :
  float_of_int n = Ok g ->
  (exists s, Prim2SF g = S754_zero s) \/ (exists s m e, Prim2SF g = S754_finite s m e).
Proof.
  unfold float_of_int, is_finite.
  set (f := SF2Prim (binary_normalize prec emax n 0 false)).
  destruct (Prim2SF f) as [s|s| |s m e] eqn:E; intros H; try discriminate;
    injection H as <-; rewrite E; eauto.
Qed.

Lemma zero_times_finite (g : float) :
  (exists s, Prim2SF g = S754_zero s) \/ (exists s m e, Prim2SF g = S754_finite s m e) ->
  (0 * g =? 0)%float = true.
Proof.
  intros H. rewrite eqb_spec, mul_spec. change (Prim2SF 0) with (S754_zero false).
  destruct H as [[s ->]|[s [m [e ->]]]]; reflexivity.
Qed.

(** C5: [convert_to_voltage] folds a raw value at or above 524288 by
    subtracting 1048576 and returns (folded / 524288) * 5.0 * gain, in
    binary64 arithmetic as Python evaluates it.  A raw 0 gives a zero
    (equal to 0.0), 524288 gives exactly -5.0 * gain, and 786432 gives
    -2.5 * gain, for every gain that converts to a float. *)
Theorem convert_to_voltage_fold :
  (forall adc_value gain,
     convert_to_voltage adc_value gain = scale_voltage (fold_adc adc_value) gain)
  /\ (forall adc_value,
        (524288 <= adc_value -> fold_adc adc_value = adc_value - 1048576)
        /\ (adc_value < 524288 -> fold_adc adc_value = adc_value))
  /\ (forall gain,
        convert_to_voltage 0 gain = (g <- float_of_int gain ;; Ok (0 * g)%float))
  /\ (forall gain v, convert_to_voltage 0 gain = Ok v -> (v =? 0)%float = true)
  /\ (forall gain,
        convert_to_voltage 524288 gain = (g <- float_of_int gain ;; Ok (-5.0 * g)%float))
  /\ (forall gain,
        convert_to_voltage 786432 gain = (g <- float_of_int gain ;; Ok (-2.5 * g)%float))
  /\ convert_to_voltage 0 1 = Ok 0%float
  /\ convert_to_voltage 524288 1 = Ok (-5.0)%float
  /\ convert_to_voltage 786432 1 = Ok (-2.5)%float.
Proof.
  assert (Q0 : int_truediv 0 524288 = Ok 0%float) by (vm_compute; reflexivity).
  assert (Q1 : int_truediv (-524288) 524288 = Ok (-1)%float) by (vm_compute; reflexivity).
  assert (Q2 : int_truediv (-262144) 524288 = Ok (-0.5)%float) by (vm_compute; reflexivity).
  assert (Z0 : forall gain,
    convert_to_voltage 0 gain = (g <- float_of_int gain ;; Ok (0 * g)%float)).
  { intros gain. unfold convert_to_voltage. cbn [Z.geb Z.compare]. rewrite Q0. reflexivity. }
  split; [reflexivity|]. split; [intros adc_value; split|].
  - unfold fold_adc. intros H. replace (adc_value >=? 524288) with true; [reflexivity|].
    symmetry. rewrite Z.geb_leb. apply Z.leb_le. exact H.
  - unfold fold_adc. intros H. replace (adc_value >=? 524288) with false; [reflexivity|].
    symmetry. rewrite Z.geb_leb. apply Z.leb_gt. exact H.
  - split; [exact Z0|]. split; [|split; [|split; [|repeat split; vm_compute; reflexivity]]].
    + intros gain v. rewrite Z0. destruct (float_of_int gain) as [g|e] eqn:E; [|discriminate].
      intros H. injection H as <-. apply zero_times_finite, (float_of_int_finite gain), E.
    + intros gain. unfold convert_to_voltage.
      change (if 524288 >=? 524288 then 524288 - 2 * 524288 else 524288) with (-524288).
      rewrite Q1. reflexivity.
    + intros gain. unfold convert_to_voltage.
      change (if 786432 >=? 524288 then 786432 - 2 * 524288 else 786432) with (-262144).
      rewrite Q2. reflexivity.
Qed.

Lemma convert_to_voltage_fold_witness :
  fold_adc 1048575 = -1
  /\ (convert_to_voltage 0 (-3) = Ok (-0)%float /\ (-0 =? 0)%float = true).
Proof.
  split.
  - apply (proj1 (proj1 (proj2 convert_to_voltage_fold) 1048575)). lia.
  - split; [vm_compute; reflexivity|].
    apply (proj1 (proj2 (proj2 (proj2 convert_to_voltage_fold))) (-3)).
    vm_compute. reflexivity.
Defined.

(** * Further properties of the module *)

(** ** Channel normalisation *)

Lemma in_range_true (lo x hi : Z) : in_range lo x hi = true <-> lo <= x <= hi.
Proof.
  unfold in_range. rewrite andb_true_iff, !Z.leb_le. reflexivity.
Qed.

Lemma in_range_false (lo x hi : Z) : in_range lo x hi = false <-> ~ (lo <= x <= hi).
Proof.
  rewrite <- in_range_true. destruct (in_range lo x hi); split; congruence.
Qed.

Lemma insert_uniq_In (x c : Z) (l : list Z) :
  In c (insert_uniq x l) <-> c = x \/ In c l.
Proof.
  induction l as [|y l IH]; simpl.
  - intuition.
  - destruct (x <? y) eqn:E1; [simpl; intuition|].
    destruct (x =? y) eqn:E2.
    + apply Z.eqb_eq in E2. subst. simpl. intuition.
    + simpl. rewrite IH. intuition.
Qed.

Lemma insert_uniq_HdRel (a x : Z) (l : list Z) :
  a < x -> HdRel Z.lt a l -> HdRel Z.lt a (insert_uniq x l).
Proof.
  intros Hax H. destruct l as [|y l]; simpl.
  - constructor. exact Hax.
  - inversion H; subst. destruct (x <? y); [constructor; exact Hax|].
    destruct (x =? y); constructor; assumption.
Qed.

Lemma insert_uniq_sorted (x : Z) (l : list Z) :
  Sorted Z.lt l -> Sorted Z.lt (insert_uniq x l).
Proof.
  induction 1 as [|y l Hs IH Hd]; simpl.
  - repeat constructor.
  - destruct (x <? y) eqn:E1.
    + apply Z.ltb_lt in E1. repeat constructor; assumption.
    + apply Z.ltb_ge in E1. destruct (x =? y) eqn:E2.
      * constructor; assumption.
      * apply Z.eqb_neq in E2. constructor; [exact IH|].
        apply insert_uniq_HdRel; [lia|exact Hd].
Qed.

Lemma sorted_set_In (c : Z) (l : list Z) : In c (sorted_set l) <-> In c l.
Proof.
  induction l as [|x l IH]; simpl; [reflexivity|].
  rewrite insert_uniq_In, IH. intuition.
Qed.

Lemma sorted_set_sorted (l : list Z) : Sorted Z.lt (sorted_set l).
Proof.
  induction l as [|x l IH]; simpl; [constructor|apply insert_uniq_sorted, IH].
Qed.

Lemma sorted_set_fixed (l : list Z) : Sorted Z.lt l -> sorted_set l = l.
Proof.
  induction 1 as [|x l Hs IH Hd]; simpl; [reflexivity|].
  rewrite IH. destruct l as [|y l]; [reflexivity|].
  inversion Hd; subst. simpl.
  replace (x <? y) with true by (symmetry; apply Z.ltb_lt; assumption). reflexivity.
Qed.

Lemma py_range_sorted (n : Z) : Sorted Z.lt (py_range n).
Proof.
  unfold py_range. generalize 0%nat as s.
  induction (Z.to_nat n) as [|k IH]; intros s; simpl; [constructor|].
  constructor; [apply IH|].
  destruct k; simpl; constructor. lia.
Qed.

Lemma py_range_In (n c : Z) : In c (py_range n) <-> 0 <= c < n.
Proof.
  split; [apply py_range_bounds|].
  intros H. unfold py_range. apply in_map_iff. exists (Z.to_nat c).
  split; [lia|]. apply in_seq. lia.
Qed.

Lemma ints_of_items_map (l : list Z) : ints_of_items (map ItemInt l) = Some l.
Proof. induction l as [|x l IH]; simpl; [reflexivity|rewrite IH; reflexivity]. Qed.

Lemma check_channels_iff (max_ch : Z) (l : list Z) :
  check_channels max_ch l = Ok tt <-> Forall (fun c => 0 <= c <= max_ch) l.
Proof. split; [apply check_channels_ok|apply check_channels_complete]. Qed.

Lemma check_channels_err (max_ch : Z) (l : list Z) :
  ~ Forall (fun c => 0 <= c <= max_ch) l ->
  check_channels max_ch l = Err (ValueError "CH out of range").
Proof.
  induction l as [|c l IH]; simpl; intros H.
  - exfalso. apply H. constructor.
  - destruct ((0 <=? c) && (c <=? max_ch)) eqn:E; [|reflexivity].
    simpl. apply IH. intros HF. apply H. constructor; [|exact HF].
    apply andb_true_iff in E. destruct E as [A B]. apply Z.leb_le in A, B. lia.
Qed.

Lemma normalize_sorted (chs : selector) (max_ch : Z) (l : list Z) :
  _normalize_channels chs max_ch = Ok l -> Sorted Z.lt l.
Proof.
  assert (Hconv : forall xs,
    match ints_of_items xs with
    | None => Err (ValueError "CH spec")
    | Some l0 => _ <- check_channels max_ch (sorted_set l0) ;; Ok (sorted_set l0)
    end = Ok l -> Sorted Z.lt l).
  { intros xs H. destruct (ints_of_items xs) as [l0|]; [|discriminate].
    destruct (check_channels max_ch (sorted_set l0)) as [[]|e]; simpl in H; [|discriminate].
    injection H as <-. apply sorted_set_sorted. }
  unfold _normalize_channels. destruct chs as [s|n|xs|]; try apply Hconv; [|discriminate].
  destruct (String.eqb (str_lower s) "all"); [|apply Hconv].
  intros H. injection H as <-. apply py_range_sorted.
Qed.

(** X1: whatever the selector, a channel list that [_normalize_channels]
    returns is strictly ascending (hence free of repeats) and every channel
    lies in [0, max_ch]. *)
Theorem normalize_channels_invariant (chs : selector) (max_ch : Z) (l : list Z) :
  _normalize_channels chs max_ch = Ok l ->
  Sorted Z.lt l /\ NoDup l /\ Forall (fun c => 0 <= c <= max_ch) l.
Proof.
  intros H. pose proof (normalize_sorted chs max_ch l H) as Hs.
  split; [exact Hs|]. split; [|apply (normalize_in_range chs max_ch l H)].
  apply Sorted_StronglySorted in Hs; [|intros x y z; apply Z.lt_trans].
  clear H. induction Hs as [|a l Hs IH Hall]; constructor; [|exact IH].
  intros Hin. rewrite Forall_forall in Hall. specialize (Hall a Hin). lia.
Qed.

Lemma normalize_channels_invariant_witness :
  Sorted Z.lt [1; 3; 6] /\ NoDup [1; 3; 6] /\ Forall (fun c => 0 <= c <= 7) [1; 3; 6].
Proof.
  apply (normalize_channels_invariant
           (SelIter [ItemInt 6; ItemInt 1; ItemInt 3; ItemInt 1]) 7 [1; 3; 6]).
  reflexivity.
Defined.

(** X2: normalisation is idempotent: a list it returned, passed back as a
    collection of ints under the same bound, comes back unchanged. *)
Theorem normalize_channels_idempotent (chs : selector) (max_ch : Z) (l : list Z) :
  _normalize_channels chs max_ch = Ok l ->
  _normalize_channels (sel_of_list l) max_ch = Ok l.
Proof.
  intros H. pose proof (normalize_sorted chs max_ch l H) as Hs.
  pose proof (normalize_in_range chs max_ch l H) as Hr.
  unfold _normalize_channels, sel_of_list. rewrite ints_of_items_map, sorted_set_fixed by assumption.
  rewrite (check_channels_complete max_ch l Hr). reflexivity.
Qed.

Lemma normalize_channels_idempotent_witness :
  _normalize_channels (sel_of_list [0; 1; 2; 3]) 3 = Ok [0; 1; 2; 3].
Proof.
  apply (normalize_channels_idempotent (SelStr "ALL") 3 [0; 1; 2; 3]). reflexivity.
Defined.

(** X3: on a collection of ints the result is the set of its elements:
    when every element lies in [0, max_ch] the call succeeds and a channel
    is in the result exactly when it is in the collection; when some
    element lies outside, the call raises a validation error. *)
Theorem normalize_channels_collection (ns : list Z) (max_ch : Z) :
  (Forall (fun c => 0 <= c <= max_ch) ns ->
   exists l, _normalize_channels (sel_of_list ns) max_ch = Ok l
             /\ forall c, In c l <-> In c ns)
  /\ (~ Forall (fun c => 0 <= c <= max_ch) ns ->
      is_value_error (_normalize_channels (sel_of_list ns) max_ch) = true).
Proof.
  assert (Hset : Forall (fun c => 0 <= c <= max_ch) (sorted_set ns)
                 <-> Forall (fun c => 0 <= c <= max_ch) ns).
  { rewrite !Forall_forall. split; intros H c Hc; apply H; apply sorted_set_In; exact Hc. }
  unfold _normalize_channels, sel_of_list. rewrite ints_of_items_map. split; intros H.
  - exists (sorted_set ns). rewrite check_channels_complete by (apply Hset, H).
    split; [reflexivity|]. intros c. apply sorted_set_In.
  - rewrite check_channels_err by (rewrite Hset; exact H). reflexivity.
Qed.

Lemma normalize_channels_collection_witness :
  (exists l, _normalize_channels (sel_of_list [5; 2; 5]) 7 = Ok l
             /\ forall c, In c l <-> In c [5; 2; 5])
  /\ is_value_error (_normalize_channels (sel_of_list [2; 8]) 7) = true.
Proof.
  split.
  - apply (proj1 (normalize_channels_collection [5; 2; 5] 7)).
    repeat constructor; lia.
  - apply (proj2 (normalize_channels_collection [2; 8] 7)).
    intros H. inversion H as [|? ? _ H']; subst. inversion H' as [|? ? B _]; subst. lia.
Defined.

Lemma ints_of_items_In (xs : list item) (ns : list Z) :
  ints_of_items xs = Some ns -> forall n, In n ns <-> In (ItemInt n) xs.
Proof.
  revert ns. induction xs as [|x xs IH]; simpl; intros ns H n.
  - injection H as <-. simpl. reflexivity.
  - destruct x as [k|]; [|discriminate].
    destruct (ints_of_items xs) as [l|]; [|discriminate].
    injection H as <-. simpl. rewrite (IH l eq_refl). split.
    + intros [->|H]; auto.
    + intros [E|H]; [injection E as ->; auto|auto].
Qed.

Lemma digit_of_char_range (ch : ascii) (c : Z) : digit_of_char ch = Some c -> 0 <= c <= 9.
Proof.
  unfold digit_of_char, item_of_char.
  destruct ((48 <=? nat_of_ascii ch) && (nat_of_ascii ch <=? 57))%nat eqn:E; [|discriminate].
  intros H. injection H as <-. apply andb_true_iff in E. destruct E as [A B].
  apply Nat.leb_le in A, B. lia.
Qed.

(** X4: a [str] selector.  The word "all", in any letter case, selects
    exactly the channels 0..max_ch.  Any other string is read character by
    character: when it is accepted, its channels are the digits its
    characters spell, so each is at most 9 and a number of several digits
    is never read as one channel.  This holds for a string of characters
    up to U+00FF, where the digits are 0-9, and for a string with any
    other characters, which the code walks as the collection of what
    [int] makes of each character. *)
Theorem normalize_channels_string (max_ch : Z) :
  (forall s, String.eqb (str_lower s) "all" = true ->
     exists l, _normalize_channels (SelStr s) max_ch = Ok l
               /\ forall c, In c l <-> 0 <= c <= max_ch)
  /\ (forall s, String.eqb (str_lower s) "all" = false ->
        forall l, _normalize_channels (SelStr s) max_ch = Ok l ->
          Forall (fun c => 0 <= c <= 9) l
          /\ forall c, In c l <->
               exists ch, In ch (list_ascii_of_string s) /\ digit_of_char ch = Some c)
  /\ (forall chars, forallb digit_item chars = true ->
        forall l, _normalize_channels (SelIter chars) max_ch = Ok l ->
          Forall (fun c => 0 <= c <= 9) l
          /\ forall c, In c l <-> In (ItemInt c) chars).
Proof.
  unfold _normalize_channels. split; [|split].
  - intros s E. rewrite E. exists (py_range (max_ch + 1)). split; [reflexivity|].
    intros c. rewrite py_range_In. lia.
  - intros s E. rewrite E. intros l H.
    destruct (ints_of_items (map item_of_char (list_ascii_of_string s))) as [ns|] eqn:En;
      [|discriminate].
    destruct (check_channels max_ch (sorted_set ns)) as [[]|e]; simpl in H; [|discriminate].
    injection H as <-.
    assert (Hin : forall c, In c (sorted_set ns) <->
              exists ch, In ch (list_ascii_of_string s) /\ digit_of_char ch = Some c).
    { intros c. rewrite sorted_set_In, (ints_of_items_In _ _ En), in_map_iff.
      unfold digit_of_char. split; intros [ch [A B]]; exists ch.
      - rewrite A. auto.
      - destruct (item_of_char ch) as [n|]; [|discriminate]. injection B as ->. auto. }
    split; [|exact Hin].
    apply Forall_forall. intros c Hc. apply Hin in Hc. destruct Hc as [ch [_ Hd]].
    apply (digit_of_char_range ch c Hd).
  - intros chars Hd l H.
    destruct (ints_of_items chars) as [ns|] eqn:En; [|discriminate].
    destruct (check_channels max_ch (sorted_set ns)) as [[]|e]; simpl in H; [|discriminate].
    injection H as <-.
    assert (Hin : forall c, In c (sorted_set ns) <-> In (ItemInt c) chars).
    { intros c. rewrite sorted_set_In. apply (ints_of_items_In _ _ En). }
    split; [|exact Hin].
    apply Forall_forall. intros c Hc. apply Hin in Hc.
    rewrite forallb_forall in Hd. specialize (Hd _ Hc). cbn [digit_item] in Hd.
    apply in_range_true in Hd. exact Hd.
Qed.

Lemma normalize_channels_string_witness :
  (exists l, _normalize_channels (SelStr "aLL") 3 = Ok l
             /\ forall c, In c l <-> 0 <= c <= 3)
  /\ Forall (fun c => 0 <= c <= 9) [0; 1]
  /\ Forall (fun c => 0 <= c <= 9) [3].
Proof.
  split; [|split].
  - apply (proj1 (normalize_channels_string 3) "aLL"). reflexivity.
  - apply (proj1 (proj1 (proj2 (normalize_channels_string 7)) "10" eq_refl [0; 1] eq_refl)).
  - apply (proj1 (proj2 (proj2 (normalize_channels_string 7))
                    [ItemInt 3; ItemInt 3] eq_refl [3] eq_refl)).
Defined.

(** ** Channel masks *)

Lemma testbit_shl1 (c i : Z) : 0 <= c -> Z.testbit (Z.shiftl 1 c) i = (c =? i).
Proof.
  intros Hc. rewrite Z.shiftl_mul_pow2, Z.mul_1_l by lia. apply Z.pow2_bits_eqb, Hc.
Qed.

Lemma mask_loop_bits (l : list Z) :
  Forall (fun c => 0 <= c) l ->
  forall m, exists m',
    mask_loop m l = Ok m'
    /\ forall i, Z.testbit m' i = Z.testbit m i || existsb (Z.eqb i) l.
Proof.
  induction 1 as [|c l Hc _ IH]; intros m; simpl.
  - exists m. split; [reflexivity|]. intros i. rewrite orb_false_r. reflexivity.
  - unfold py_shl1. replace (c <? 0) with false by (symmetry; apply Z.ltb_ge; lia).
    simpl. destruct (IH (Z.lor m (Z.shiftl 1 c))) as [m' [E B]].
    exists m'. split; [exact E|]. intros i.
    rewrite B, Z.lor_spec, testbit_shl1, (Z.eqb_sym c i), orb_assoc by assumption.
    reflexivity.
Qed.

Lemma existsb_eqb_In (i : Z) (l : list Z) : existsb (Z.eqb i) l = true <-> In i l.
Proof.
  rewrite existsb_exists. split.
  - intros [x [Hx E]]. apply Z.eqb_eq in E. subst. exact Hx.
  - intros H. exists i. split; [exact H|apply Z.eqb_refl].
Qed.

Lemma bits_below (m k : Z) :
  0 <= k -> (forall i, k <= i -> Z.testbit m i = false) -> (forall i, i < 0 -> True) ->
  Z.land m (Z.ones k) = m.
Proof.
  intros Hk H _. apply Z.bits_inj'. intros i Hi.
  rewrite Z.land_spec. destruct (Z_lt_le_dec i k) as [L|G].
  - rewrite Z.ones_spec_low by lia. apply andb_true_r.
  - rewrite Z.ones_spec_high by lia. rewrite (H i G). reflexivity.
Qed.

(** X5: the mask of a list of channels in [0, max_ch] has bit [i] set
    exactly when channel [i] is in the list, and it fits in max_ch + 1 bits;
    for the GPIO bound 7 the [& 0xFF] the commands apply changes nothing. *)
Theorem mask_from_channels_bits (max_ch : Z) (l : list Z) :
  0 <= max_ch ->
  Forall (fun c => 0 <= c <= max_ch) l ->
  exists m,
    _mask_from_channels l = Ok m
    /\ (forall i, Z.testbit m i = true <-> In i l)
    /\ 0 <= m < 2 ^ (max_ch + 1)
    /\ (max_ch <= 7 -> Z.land m 0xFF = m).
Proof.
  intros Hmax H.
  destruct (mask_loop_bits l) with (m := 0) as [m [E B]].
  { eapply Forall_impl; [|exact H]. simpl. intros; lia. }
  assert (Hbits : forall i, Z.testbit m i = true <-> In i l).
  { intros i. rewrite B, Z.bits_0, orb_false_l. apply existsb_eqb_In. }
  assert (Hhigh : forall k, max_ch < k -> forall i, k <= i -> Z.testbit m i = false).
  { intros k Hk i Hi. destruct (Z.testbit m i) eqn:T; [|reflexivity].
    apply Hbits in T. rewrite Forall_forall in H. specialize (H i T). lia. }
  assert (Hland : forall k, max_ch < k -> Z.land m (Z.ones k) = m).
  { intros k Hk. apply bits_below; [lia| |auto]. apply Hhigh, Hk. }
  exists m. split; [exact E|]. split; [exact Hbits|]. split.
  - rewrite <- (Hland (max_ch + 1)) by lia.
    pose proof (land_low_range m (max_ch + 1)). rewrite Z.ones_equiv in *. lia.
  - intros H7. apply (Hland 8). lia.
Qed.

Lemma mask_from_channels_bits_witness :
  exists m,
    _mask_from_channels [0; 2; 7] = Ok m
    /\ (forall i, Z.testbit m i = true <-> In i [0; 2; 7])
    /\ 0 <= m < 2 ^ (7 + 1)
    /\ (7 <= 7 -> Z.land m 0xFF = m).
Proof.
  apply (mask_from_channels_bits 7 [0; 2; 7]); [lia|].
  repeat constructor; lia.
Defined.

(** ** The wire discipline of the catalogue *)

Lemma hex_char_ascii (d : Z) : (nat_of_ascii (hex_char d) <? 128)%nat = true.
Proof.
  destruct d as [|p|p]; try reflexivity.
  do 4 (try destruct p as [p|p|]); reflexivity.
Qed.

Lemma upper_hex_ascii (c : ascii) :
  is_upper_hex c = true -> (nat_of_ascii c <? 128)%nat = true.
Proof.
  unfold is_upper_hex. intros H. apply Nat.ltb_lt.
  apply orb_true_iff in H. destruct H as [H|H]; apply andb_true_iff in H;
    destruct H as [_ H]; apply Nat.leb_le in H; lia.
Qed.

Lemma encode_frame (c : ascii) (HH E DDDD : Z) :
  is_upper_hex c = true ->
  encode_ascii_ignore (frame c HH E DDDD) = frame c HH E DDDD.
Proof.
  intros Hc. unfold frame, hex2, hex1, hex4. simpl.
  rewrite (upper_hex_ascii c Hc), !hex_char_ascii. reflexivity.
Qed.

Lemma after_nil (h : handle) : after h [] 0 = h.
Proof. destruct h. unfold after. simpl. rewrite app_nil_r. reflexivity. Qed.

Lemma after_after (h : handle) (f1 f2 : list string) (k1 k2 : nat) :
  after (after h f1 k1) f2 k2 = after h (f1 ++ f2) (k1 + k2).
Proof.
  unfold after. simpl. f_equal.
  - rewrite app_assoc. reflexivity.
  - rewrite skipn_skipn. f_equal. lia.
Qed.

Lemma wire_ret {A} (a : A) : wire (ret a).
Proof.
  intros h. exists []. simpl. rewrite after_nil. repeat split. constructor.
Qed.

Lemma wire_raise {A} (t : string) : wire (@raise A (ValueError t)).
Proof.
  intros h. exists []. simpl. rewrite after_nil. repeat split. constructor.
Qed.

Lemma wire_bind {A B} (c : M A) (k : A -> M B) :
  wire c -> (forall a, wire (k a)) -> wire (bind c k).
Proof.
  intros Hc Hk h. unfold bind. destruct (Hc h) as [f1 [E1 [W1 B1]]].
  destruct (c h) as [h1 [a|e]]; cbn [fst snd] in *.
  - subst h1. destruct (Hk a (after h f1 (List.length f1))) as [f2 [E2 [W2 B2]]].
    exists (f1 ++ f2)%list.
    rewrite E2, after_after, length_app. repeat split; [|exact B2].
    apply Forall_app. split; assumption.
  - exists f1. repeat split; assumption.
Qed.

Lemma wire_lift_bind {A B} (r : result A) (k : A -> M B) :
  benign r = true -> (forall a, r = Ok a -> wire (k a)) -> wire (bind (lift r) k).
Proof.
  intros Hb Hk h. unfold bind, lift. destruct r as [a|e].
  - apply (Hk a eq_refl).
  - exists []. cbn [fst snd]. rewrite after_nil. repeat split; [constructor|exact Hb].
Qed.

Lemma wire_write_read {B} (c : ascii) (HH E DDDD : Z) (k : string -> M B) :
  is_upper_hex c = true -> (forall resp, wire (k resp)) ->
  wire (_ <~ _write_ascii (frame c HH E DDDD) ;; resp <~ _readline ;; k resp).
Proof.
  intros Hc Hk h.
  assert (Hrun : (_ <~ _write_ascii (frame c HH E DDDD) ;; resp <~ _readline ;; k resp) h
                 = k (hd "" (pending h)) (after h [frame c HH E DDDD] 1)).
  { unfold bind, _write_ascii, _readline, after. cbn [written pending].
    rewrite encode_frame by exact Hc.
    destruct (pending h) as [|line rest]; reflexivity. }
  rewrite Hrun.
  destruct (Hk (hd "" (pending h)) (after h [frame c HH E DDDD] 1)) as [fs [E1 [W1 B1]]].
  exists (frame c HH E DDDD :: fs). rewrite E1, after_after.
  repeat split; [|exact B1].
  constructor; [apply frame_matches, Hc|exact W1].
Qed.

Lemma wire_send (c : ascii) (HH E DDDD : Z) :
  is_upper_hex c = true -> wire (_send_and_read_one_line (frame c HH E DDDD)).
Proof. intros Hc. apply wire_write_read; [exact Hc|intros resp; apply wire_ret]. Qed.

(** Format, send, read, and go on. *)
Lemma wire_frame {B} (c : ascii) (HH E DDDD : Z) (k : string -> M B) :
  is_upper_hex c = true ->
  0 <= HH <= 0xFF -> 0 <= E <= 0xF -> 0 <= DDDD <= 0xFFFF ->
  (forall cmd, wire (k cmd)) ->
  wire (cmd <~ lift (_fmt_cmd (String c "") HH E DDDD) ;;
        _ <~ _send_and_read_one_line cmd ;; k cmd).
Proof.
  intros Hc H1 H2 H3 Hk. rewrite fmt_cmd_frame by assumption.
  apply wire_lift_bind; [reflexivity|]. intros cmd Ecmd. injection Ecmd as <-.
  apply wire_bind; [apply wire_send, Hc|intros _; apply Hk].
Qed.

(** Format, write, read, and go on with the reply. *)
Lemma wire_frame_reply {B} (c : ascii) (HH E DDDD : Z) (k : string -> string -> M B) :
  is_upper_hex c = true ->
  0 <= HH <= 0xFF -> 0 <= E <= 0xF -> 0 <= DDDD <= 0xFFFF ->
  (forall cmd resp, wire (k cmd resp)) ->
  wire (cmd <~ lift (_fmt_cmd (String c "") HH E DDDD) ;;
        _ <~ _write_ascii cmd ;; resp <~ _readline ;; k cmd resp).
Proof.
  intros Hc H1 H2 H3 Hk. rewrite fmt_cmd_frame by assumption.
  apply wire_lift_bind; [reflexivity|]. intros cmd Ecmd. injection Ecmd as <-.
  apply wire_write_read; [exact Hc|intros resp; apply Hk].
Qed.

Lemma wire_for_each {A B} (body : A -> M B) (l : list A) :
  (forall a, In a l -> wire (body a)) -> wire (for_each body l).
Proof.
  induction l as [|a l IH]; intros H; simpl.
  - apply wire_ret.
  - apply wire_bind; [apply H; left; reflexivity|intros b].
    apply wire_bind; [apply IH; intros a' Ha'; apply H; right; exact Ha'|intros bs].
    apply wire_ret.
Qed.

Lemma wire_void {A} (c : M A) : wire c -> wire (void c).
Proof.
  intros Hc h. unfold void. destruct (Hc h) as [fs [E [W Bn]]].
  exists fs. destruct (c h) as [h' [a|e]]; cbn [fst snd] in *; repeat split; assumption.
Qed.

Lemma normalize_benign (chs : selector) (max_ch : Z) :
  benign (_normalize_channels chs max_ch) = true.
Proof.
  assert (Hc : forall l, benign (check_channels max_ch l) = true).
  { induction l as [|c l IH]; simpl; [reflexivity|]. destruct (negb _); [reflexivity|exact IH]. }
  assert (Hconv : forall xs, benign
    match ints_of_items xs with
    | None => Err (ValueError "CH spec")
    | Some l0 => _ <- check_channels max_ch (sorted_set l0) ;; Ok (sorted_set l0)
    end = true).
  { intros xs. destruct (ints_of_items xs) as [l0|]; [|reflexivity].
    specialize (Hc (sorted_set l0)).
    destruct (check_channels max_ch (sorted_set l0)) as [[]|e]; [reflexivity|exact Hc]. }
  unfold _normalize_channels. destruct chs as [s|n|xs|]; try apply Hconv; [|reflexivity].
  destruct (String.eqb (str_lower s) "all"); [reflexivity|apply Hconv].
Qed.

Lemma mask_loop_benign (l : list Z) : forall m, benign (mask_loop m l) = true.
Proof.
  induction l as [|c l IH]; intros m; simpl; [reflexivity|].
  unfold py_shl1. destruct (c <? 0); [reflexivity|apply IH].
Qed.

Lemma norm_enc_ch_benign (ch : selector) : benign (_norm_enc_ch ch) = true.
Proof.
  unfold _norm_enc_ch. destruct ch as [s|n|xs|]; try reflexivity.
  - destruct (String.eqb _ _); reflexivity.
  - destruct (in_range 0 n 3); reflexivity.
Qed.

Lemma norm_enc_ch_range (ch : selector) (l : list Z) :
  _norm_enc_ch ch = Ok l -> Forall (fun c => 0 <= c <= 3) l.
Proof.
  unfold _norm_enc_ch. destruct ch as [s|n|xs|]; try discriminate.
  - destruct (String.eqb _ _); [|discriminate]. intros H. injection H as <-.
    repeat constructor; lia.
  - destruct (in_range 0 n 3) eqn:E; [|discriminate]. intros H. injection H as <-.
    apply in_range_true in E. repeat constructor; lia.
Qed.

Lemma pwm_freq_field_range (f d : Z) :
  pwm_freq_field f = Ok d -> 0 <= d <= 0x0FFF \/ 0x8000 <= d <= 0x8061.
Proof.
  unfold pwm_freq_field. destruct (in_range 0 f 4095) eqn:E1.
  - intros H. injection H as <-. apply in_range_true in E1. left. lia.
  - destruct ((f mod 1000 =? 0) && in_range 0 (f / 1000) 97) eqn:E2; [|discriminate].
    intros H. assert (Hd : d = 0x8000 + f / 1000) by congruence.
    apply andb_true_iff in E2. destruct E2 as [_ E2].
    apply in_range_true in E2. right. lia.
Qed.

Lemma pwm_freq_field_benign (f : Z) : benign (pwm_freq_field f) = true.
Proof.
  unfold pwm_freq_field. destruct (in_range 0 f 4095); [reflexivity|].
  destruct (_ && _); reflexivity.
Qed.

Lemma pwm_duty_code_benign (d : float) : benign (pwm_duty_code d) = true.
Proof.
  destruct ((0 <=? d)%float && (d <=? 1)%float) eqn:G.
  - apply andb_true_iff in G. destruct G as [H0 H1].
    destruct (duty_cases d H0 H1) as [E|[[E0 E1]|[E0 [E1 [m [e [Hd He]]]]]]].
    + unfold pwm_duty_code. rewrite H0, H1, E. reflexivity.
    + unfold pwm_duty_code. rewrite H0, H1, E0, E1. reflexivity.
    + rewrite (pwm_duty_code_inner d m e Hd He). reflexivity.
  - unfold pwm_duty_code. rewrite G. reflexivity.
Qed.

Ltac land_bounds :=
  repeat match goal with
  | |- context [Z.land ?x 255] =>
      lazymatch goal with
      | _ : 0 <= Z.land x 255 <= 255 |- _ => fail
      | _ => pose proof (land_low_range x 8 ltac:(lia)) as ?Hl;
             change (Z.ones 8) with 255 in *
      end
  | |- context [Z.land ?x 65535] =>
      lazymatch goal with
      | _ : 0 <= Z.land x 65535 <= 65535 |- _ => fail
      | _ => pose proof (land_low_range x 16 ltac:(lia)) as ?Hl;
             change (Z.ones 16) with 65535 in *
      end
  | |- context [Z.land ?x 15] =>
      lazymatch goal with
      | _ : 0 <= Z.land x 15 <= 15 |- _ => fail
      | _ => pose proof (land_low_range x 4 ltac:(lia)) as ?Hl;
             change (Z.ones 4) with 15 in *
      end
  end.

Ltac range_facts :=
  repeat match goal with
  | H : negb _ = false |- _ => apply negb_false_iff in H
  | H : in_range _ _ _ = true |- _ => apply in_range_true in H
  end.

Ltac ranges := range_facts; unfold _hh_from_single_ch; land_bounds; lia.

Ltac wire_step :=
  first
    [ apply wire_ret
    | apply wire_raise
    | apply wire_frame; [reflexivity|ranges|ranges|ranges|intros ?]
    | apply wire_frame_reply; [reflexivity|ranges|ranges|ranges|intros ? ?]
    | match goal with
      | |- wire (if ?b then _ else _) => destruct b eqn:?
      end ].

Lemma cmd_set_gpio_dir_wire (a i : selector) : wire (cmd_set_gpio_dir a i).
Proof.
  unfold cmd_set_gpio_dir.
  apply wire_lift_bind; [apply normalize_benign|intros act _].
  apply wire_lift_bind; [apply normalize_benign|intros ins _].
  apply wire_lift_bind; [apply mask_loop_benign|intros m1 _].
  apply wire_lift_bind; [apply mask_loop_benign|intros m2 _].
  repeat wire_step.
Qed.

Lemma cmd_pwm_set_data_raw_wire (chs : selector) (d : Z) : wire (cmd_pwm_set_data_raw chs d).
Proof.
  unfold cmd_pwm_set_data_raw. wire_step; [wire_step|].
  apply wire_lift_bind; [apply normalize_benign|intros l Hl].
  apply normalize_in_range in Hl. rewrite Forall_forall in Hl.
  apply wire_for_each. intros ch Hch. specialize (Hl ch Hch). repeat wire_step.
Qed.

Lemma cmd_gpio_write_wire (v : Z) : wire (cmd_gpio_write v).
Proof. unfold cmd_gpio_write. repeat wire_step. Qed.

Lemma cmd_encoder_preset_hi_wire (ch : selector) (v : Z) : wire (cmd_encoder_preset_hi ch v).
Proof.
  unfold cmd_encoder_preset_hi. wire_step; [wire_step|].
  apply wire_lift_bind; [apply norm_enc_ch_benign|intros l _].
  apply wire_for_each. intros c _. repeat wire_step.
Qed.

Lemma cmd_encoder_preset_lo_wire (ch : selector) (v : Z) : wire (cmd_encoder_preset_lo ch v).
Proof.
  unfold cmd_encoder_preset_lo. wire_step; [wire_step|].
  apply wire_lift_bind; [apply norm_enc_ch_benign|intros l _].
  apply wire_for_each. intros c _. repeat wire_step.
Qed.

Lemma cmd_encoder_ctrl_wire (chs : selector) (d : option bool) (r l : bool) :
  wire (cmd_encoder_ctrl chs d r l).
Proof.
  unfold cmd_encoder_ctrl.
  destruct d as [[|]|], r, l; cbn [andb]; try apply wire_raise;
    (apply wire_lift_bind; [apply normalize_benign|intros cl _];
     apply wire_for_each; intros c _; cbv zeta;
     apply wire_frame;
       [reflexivity|ranges|lia
       |vm_compute; split; intros Hc; discriminate Hc
       |intros cmd; apply wire_ret]).
Qed.

Lemma cmd_reset_wire (mode : string) : wire (cmd_reset mode).
Proof.
  unfold cmd_reset. wire_step; [wire_step|].
  destruct (String.eqb mode "all"); repeat wire_step.
Qed.

(** X6: the wire discipline of the whole catalogue.  Whatever command is
    run, on whatever arguments and transport: what it adds to the
    transport's log is a run of well-formed 10-character frames
    ([*[0-9A-F]{8}#]) and nothing else; it takes exactly one reply line
    per frame it wrote, except the chunk stream request, which takes none;
    and it ends normally or in a validation error, never in the formatter's
    length error nor in any other exception. *)
Theorem catalogue_wire_discipline (unicode_upper : Z -> list Z) (o : op) (h : handle) :
  exists fs,
    fst (run_op unicode_upper o h)
      = after h fs (if reads_reply o then List.length fs else 0%nat)
    /\ Forall (fun f => frame_pattern f = true) fs
    /\ benign (snd (run_op unicode_upper o h)) = true.
Proof.
  destruct (reads_reply o) eqn:R.
  - revert h. change (wire (run_op unicode_upper o)).
    destruct o; try discriminate R; cbn [run_op]; apply wire_void;
      try apply cmd_set_gpio_dir_wire;
      try apply cmd_pwm_set_data_raw_wire;
      try apply cmd_gpio_write_wire;
      try apply cmd_encoder_preset_hi_wire;
      try apply cmd_encoder_preset_lo_wire;
      try apply cmd_encoder_ctrl_wire;
      try apply cmd_reset_wire.
    + unfold cmd_set_chunk_size. repeat wire_step.
    + unfold cmd_start_accumulation. repeat wire_step.
    + unfold cmd_set_chunk_num. repeat wire_step.
    + unfold cmd_stop_accumulation. repeat wire_step.
    + unfold cmd_adc_single_sample. repeat wire_step.
    + unfold cmd_set_ldac. repeat wire_step.
    + unfold cmd_set_ldac_mask. repeat wire_step.
    + unfold cmd_dac_set_data. repeat wire_step.
    + unfold cmd_dac_immediate_out. repeat wire_step.
    + unfold cmd_set_opamp_gain. repeat wire_step.
    + unfold cmd_set_gpio_pwm_mode.
      apply wire_lift_bind; [apply normalize_benign|intros act _].
      apply wire_lift_bind; [apply normalize_benign|intros pwm _].
      apply wire_bind; [apply cmd_set_gpio_dir_wire|intros _].
      apply wire_lift_bind; [apply mask_loop_benign|intros m1 _].
      apply wire_lift_bind; [apply mask_loop_benign|intros m2 _].
      repeat wire_step.
    + unfold cmd_set_encoder_mode.
      apply wire_lift_bind; [apply normalize_benign|intros chs _].
      apply wire_lift_bind; [apply mask_loop_benign|intros m _].
      apply wire_bind; [apply cmd_set_gpio_dir_wire|intros _].
      repeat wire_step.
    + unfold cmd_encoder_preset_32. wire_step; [wire_step|].
      apply wire_bind; [apply cmd_encoder_preset_hi_wire|intros c1].
      apply wire_bind; [apply cmd_encoder_preset_lo_wire|intros c2]. apply wire_ret.
    + unfold cmd_pwm_set_frequency. wire_step; [wire_step|].
      apply wire_lift_bind; [apply normalize_benign|intros l Hl].
      apply normalize_in_range in Hl. rewrite Forall_forall in Hl.
      apply wire_for_each. intros ch Hch. specialize (Hl ch Hch).
      apply wire_lift_bind; [apply pwm_freq_field_benign|intros dddd Hd].
      apply pwm_freq_field_range in Hd. repeat wire_step.
    + unfold cmd_pwm_set_duty.
      apply wire_lift_bind; [apply pwm_duty_code_benign|intros code _].
      apply cmd_pwm_set_data_raw_wire.
    + unfold cmd_gpio_read. repeat wire_step.
    + unfold cmd_encoder_status_read. repeat wire_step.
    + unfold cmd_gpio_write_mask.
      apply wire_lift_bind; [apply normalize_benign|intros chs _].
      apply wire_lift_bind; [apply mask_loop_benign|intros mask _].
      apply cmd_gpio_write_wire.
  - destruct o; try discriminate R. cbn [run_op]. unfold void, cmd_adc_chunk_request.
    destruct (negb (in_range 0 ch 15)) eqn:E1.
    { exists []. cbn. rewrite after_nil. repeat split. constructor. }
    destruct (negb (in_range 0 chunk_size 2047)) eqn:E2.
    { exists []. cbn. rewrite after_nil. repeat split. constructor. }
    rewrite fmt_cmd_frame by ranges.
    exists [frame "4" ch 1 chunk_size].
    unfold bind, lift, _write_ascii, ret, after. cbn [fst snd written pending skipn].
    rewrite encode_frame by reflexivity.
    repeat split. constructor; [apply frame_matches; reflexivity|constructor].
Qed.

(** ** Frames of single commands *)

Lemma run_frame (c : ascii) (HH E DDDD : Z) (h : handle) :
  0 <= HH <= 0xFF -> 0 <= E <= 0xF -> 0 <= DDDD <= 0xFFFF ->
  (cmd <~ lift (_fmt_cmd (String c "") HH E DDDD) ;;
   _ <~ _send_and_read_one_line cmd ;; ret cmd) h
  = (sent h [frame c HH E DDDD], Ok (frame c HH E DDDD)).
Proof.
  intros H1 H2 H3. rewrite fmt_cmd_frame by assumption.
  unfold bind, lift. rewrite send_one. reflexivity.
Qed.

Lemma land_small (x k : Z) : 0 <= k -> 0 <= x < 2 ^ k -> Z.land x (Z.ones k) = x.
Proof. intros Hk Hx. rewrite Z.land_ones by lia. apply Z.mod_small, Hx. Qed.

Lemma cmd_set_chunk_num_run (ch chunk_num : Z) (h : handle) :
  0 <= ch <= 0x0F -> 1 <= chunk_num <= 65536 ->
  cmd_set_chunk_num ch chunk_num h
  = (sent h [frame "4" ch 0x1 (chunk_num - 1)], Ok (frame "4" ch 0x1 (chunk_num - 1))).
Proof.
  intros Hch Hn. unfold cmd_set_chunk_num.
  replace (in_range 0 ch 15) with true by (symmetry; apply in_range_true; lia).
  replace (in_range 1 chunk_num 65536) with true by (symmetry; apply in_range_true; lia).
  cbn [negb]. change 0xFFFF with (Z.ones 16).
  rewrite land_small by (change (2 ^ 16) with 65536; lia).
  apply run_frame; lia.
Qed.

(** X7: the chunk count is sent as count - 1.  For a channel in 0..15 and a
    count in 1..65536 the command sends the single frame [*4 HH 1 DDDD#]
    with DDDD = count - 1 (so 1 goes out as 0000 and 65536 as FFFF); any
    other count raises a validation error and nothing is sent. *)
Theorem chunk_num_field (ch chunk_num : Z) (h : handle) :
  0 <= ch <= 0x0F ->
  (1 <= chunk_num <= 65536 ->
   cmd_set_chunk_num ch chunk_num h
   = (sent h [frame "4" ch 0x1 (chunk_num - 1)], Ok (frame "4" ch 0x1 (chunk_num - 1))))
  /\ (~ 1 <= chunk_num <= 65536 ->
      fst (cmd_set_chunk_num ch chunk_num h) = h
      /\ is_value_error (snd (cmd_set_chunk_num ch chunk_num h)) = true).
Proof.
  intros Hch. split; intros Hn.
  - apply cmd_set_chunk_num_run; assumption.
  - unfold cmd_set_chunk_num.
    replace (in_range 0 ch 15) with true by (symmetry; apply in_range_true; lia).
    replace (in_range 1 chunk_num 65536) with false by (symmetry; apply in_range_false; lia).
    split; reflexivity.
Qed.

Lemma chunk_num_field_witness :
  cmd_set_chunk_num 3 65536 (mkHandle [] ["*OK#"])
    = (mkHandle ["*4031FFFF#"] [], Ok "*4031FFFF#")
  /\ is_value_error (snd (cmd_set_chunk_num 3 0 (mkHandle [] ["*OK#"]))) = true.
Proof.
  split.
  - apply (proj1 (chunk_num_field 3 65536 (mkHandle [] ["*OK#"]) ltac:(lia))). lia.
  - apply (proj2 (chunk_num_field 3 0 (mkHandle [] ["*OK#"]) ltac:(lia))). lia.
Defined.

(** X8: for a channel in 0..15 and n in 1..2048, setting a chunk count of
    n and requesting a chunk stream of size n - 1 put the same bytes on the
    wire (both are [*4 HH 1 DDDD#]) and return the same frame; the two
    commands differ only in that the count setting takes one reply line
    and the stream request takes none.  For n in 2049..65536 the count
    setting still sends its frame, while the stream request of size n - 1
    raises a validation error and sends nothing. *)
Theorem chunk_request_same_frame (ch n : Z) (h : handle) :
  0 <= ch <= 0x0F ->
  (1 <= n <= 2048 ->
   written (fst (cmd_adc_chunk_request ch (n - 1) h))
     = written (fst (cmd_set_chunk_num ch n h))
   /\ written (fst (cmd_set_chunk_num ch n h)) = (written h ++ [frame "4" ch 0x1 (n - 1)])%list
   /\ snd (cmd_adc_chunk_request ch (n - 1) h) = snd (cmd_set_chunk_num ch n h)
   /\ pending (fst (cmd_adc_chunk_request ch (n - 1) h)) = pending h
   /\ pending (fst (cmd_set_chunk_num ch n h)) = tl (pending h))
  /\ (2048 < n <= 65536 ->
      cmd_set_chunk_num ch n h
      = (sent h [frame "4" ch 0x1 (n - 1)], Ok (frame "4" ch 0x1 (n - 1)))
      /\ fst (cmd_adc_chunk_request ch (n - 1) h) = h
      /\ is_value_error (snd (cmd_adc_chunk_request ch (n - 1) h)) = true).
Proof.
  intros Hch. split; intros Hn.
  - rewrite cmd_set_chunk_num_run by lia.
    unfold cmd_adc_chunk_request.
    replace (in_range 0 ch 15) with true by (symmetry; apply in_range_true; lia).
    replace (in_range 0 (n - 1) 2047) with true by (symmetry; apply in_range_true; lia).
    cbn [negb]. rewrite fmt_cmd_frame by lia.
    unfold bind, lift, _write_ascii, ret, sent. cbn [fst snd written pending List.length map].
    split; [reflexivity|]. split; [rewrite encode_frame; reflexivity|].
    split; [reflexivity|]. split; [reflexivity|].
    destruct (pending h); reflexivity.
  - split; [apply cmd_set_chunk_num_run; lia|].
    unfold cmd_adc_chunk_request.
    replace (in_range 0 ch 15) with true by (symmetry; apply in_range_true; lia).
    replace (in_range 0 (n - 1) 2047) with false by (symmetry; apply in_range_false; lia).
    split; reflexivity.
Qed.

Lemma chunk_request_same_frame_witness :
  (written (fst (cmd_adc_chunk_request 2 (512 - 1) (mkHandle [] ["a"; "b"])))
     = written (fst (cmd_set_chunk_num 2 512 (mkHandle [] ["a"; "b"])))
   /\ written (fst (cmd_set_chunk_num 2 512 (mkHandle [] ["a"; "b"])))
      = ([] ++ [frame "4" 2 0x1 (512 - 1)])%list
   /\ snd (cmd_adc_chunk_request 2 (512 - 1) (mkHandle [] ["a"; "b"]))
      = snd (cmd_set_chunk_num 2 512 (mkHandle [] ["a"; "b"]))
   /\ pending (fst (cmd_adc_chunk_request 2 (512 - 1) (mkHandle [] ["a"; "b"]))) = ["a"; "b"]
   /\ pending (fst (cmd_set_chunk_num 2 512 (mkHandle [] ["a"; "b"]))) = ["b"])
  /\ is_value_error (snd (cmd_adc_chunk_request 2 (4096 - 1) (mkHandle [] ["a"; "b"]))) = true.
Proof.
  split.
  - apply (proj1 (chunk_request_same_frame 2 512 (mkHandle [] ["a"; "b"]) ltac:(lia))). lia.
  - apply (proj2 (proj2 (proj2 (chunk_request_same_frame 2 4096 (mkHandle [] ["a"; "b"])
                                  ltac:(lia)) ltac:(lia)))).
Defined.

(** X9: the 32-bit encoder preset splits its value into the two 16-bit
    halves without loss (hi * 65536 + lo is the value) and sends, for the
    accepted channels, every HI frame ([*A HH 2 hi#]) before the first LO
    frame ([*A HH 3 lo#]). *)
Theorem encoder_preset_32_split (ch : selector) (v : Z) (h : handle) :
  enc_ch_accepted ch = true -> 0 <= v <= 0xFFFFFFFF ->
  exists hi lo,
    0 <= hi <= 0xFFFF /\ 0 <= lo <= 0xFFFF /\ hi * 65536 + lo = v
    /\ cmd_encoder_preset_32 ch v h
       = (sent h (map (fun c => frame "A" c 0x2 hi) (enc_ch_list ch)
                  ++ map (fun c => frame "A" c 0x3 lo) (enc_ch_list ch)),
          Ok (map (fun c => frame "A" c 0x2 hi) (enc_ch_list ch)
              ++ map (fun c => frame "A" c 0x3 lo) (enc_ch_list ch))%list).
Proof.
  intros Hch Hv.
  exists (Z.land (Z.shiftr v 16) 0xFFFF), (Z.land v 0xFFFF).
  pose proof (land_low_range v 16) as Hlo.
  pose proof (land_low_range (Z.shiftr v 16) 16) as Hhi.
  change (Z.ones 16) with 0xFFFF in Hlo, Hhi.
  split; [lia|]. split; [lia|]. split; [|apply preset_32_accepted; assumption].
  change 0xFFFF with (Z.ones 16). rewrite !Z.land_ones, Z.shiftr_div_pow2 by lia.
  change (2 ^ 16) with 65536. lia.
Qed.

Lemma encoder_preset_32_split_witness :
  exists hi lo,
    0 <= hi <= 0xFFFF /\ 0 <= lo <= 0xFFFF /\ hi * 65536 + lo = 0xCAFE0042
    /\ cmd_encoder_preset_32 (SelInt 2) 0xCAFE0042 (mkHandle [] [])
       = (sent (mkHandle [] [])
            (map (fun c => frame "A" c 0x2 hi) (enc_ch_list (SelInt 2))
             ++ map (fun c => frame "A" c 0x3 lo) (enc_ch_list (SelInt 2))),
          Ok (map (fun c => frame "A" c 0x2 hi) (enc_ch_list (SelInt 2))
              ++ map (fun c => frame "A" c 0x3 lo) (enc_ch_list (SelInt 2)))%list).
Proof.
  apply (encoder_preset_32_split (SelInt 2) 0xCAFE0042 (mkHandle [] [])); [reflexivity|lia].
Defined.

(** ** GPIO, PWM mode and encoder mode frames *)

Lemma normalize_sel_of_list (l : list Z) (max_ch : Z) :
  Sorted Z.lt l -> Forall (fun c => 0 <= c <= max_ch) l ->
  _normalize_channels (sel_of_list l) max_ch = Ok l.
Proof.
  intros Hs Hr. unfold _normalize_channels, sel_of_list.
  rewrite ints_of_items_map, sorted_set_fixed by assumption.
  rewrite (check_channels_complete max_ch l Hr). reflexivity.
Qed.

Lemma mask_bounded (k : Z) (l : list Z) :
  0 <= k -> Forall (fun c => 0 <= c < k) l ->
  exists m,
    _mask_from_channels l = Ok m
    /\ 0 <= m <= Z.ones k
    /\ forall i, Z.testbit m i = true <-> In i l.
Proof.
  intros Hk H.
  destruct (mask_loop_bits l) with (m := 0) as [m [E B]].
  { eapply Forall_impl; [|exact H]. simpl. intros; lia. }
  assert (Hbits : forall i, Z.testbit m i = true <-> In i l).
  { intros i. rewrite B, Z.bits_0, orb_false_l. apply existsb_eqb_In. }
  exists m. split; [exact E|]. split; [|exact Hbits].
  rewrite <- (bits_below m k); [apply land_low_range, Hk|exact Hk| |auto].
  intros i Hi. destruct (Z.testbit m i) eqn:T; [|reflexivity].
  apply Hbits in T. rewrite Forall_forall in H. specialize (H i T). lia.
Qed.

Lemma mask_gpio (l : list Z) :
  Forall (fun c => 0 <= c <= 7) l ->
  exists m,
    _mask_from_channels l = Ok m /\ 0 <= m <= 0xFF
    /\ forall i, Z.testbit m i = true <-> In i l.
Proof.
  intros H. apply (mask_bounded 8); [lia|].
  eapply Forall_impl; [|exact H]. simpl. intros; lia.
Qed.

Lemma land_ff (m : Z) : 0 <= m <= 0xFF -> Z.land m 0xFF = m /\ Z.land m 0xFFFF = m.
Proof.
  intros H. split.
  - change 0xFF with (Z.ones 8). apply land_small; [lia|change (2 ^ 8) with 256; lia].
  - change 0xFFFF with (Z.ones 16). apply land_small; [lia|change (2 ^ 16) with 65536; lia].
Qed.

Lemma cmd_set_gpio_dir_run (a i : selector) (act ins : list Z) (hh dddd : Z) (h : handle) :
  _normalize_channels a 7 = Ok act -> _normalize_channels i 7 = Ok ins ->
  _mask_from_channels act = Ok hh -> _mask_from_channels ins = Ok dddd ->
  0 <= hh <= 0xFF -> 0 <= dddd <= 0xFF ->
  cmd_set_gpio_dir a i h = (sent h [frame "9" hh 0x0 dddd], Ok (frame "9" hh 0x0 dddd)).
Proof.
  intros Ha Hi Hm1 Hm2 R1 R2. unfold cmd_set_gpio_dir.
  unfold bind at 1, lift at 1. rewrite Ha.
  unfold bind at 1, lift at 1. rewrite Hi.
  unfold bind at 1, lift at 1. rewrite Hm1.
  unfold bind at 1, lift at 1. rewrite Hm2.
  rewrite (proj1 (land_ff hh R1)), (proj2 (land_ff dddd R2)).
  apply run_frame; lia.
Qed.

(** X10: the GPIO direction command sends one frame [*9 HH 0 DDDD#] in
    which bit [i] of HH is set exactly when channel [i] is among the
    active channels and bit [i] of DDDD exactly when it is among the input
    channels; the input channels are not restricted to the active ones. *)
Theorem gpio_dir_frame (a i : selector) (act ins : list Z) (h : handle) :
  _normalize_channels a 7 = Ok act -> _normalize_channels i 7 = Ok ins ->
  exists hh dddd,
    (forall b, Z.testbit hh b = true <-> In b act)
    /\ (forall b, Z.testbit dddd b = true <-> In b ins)
    /\ 0 <= hh <= 0xFF /\ 0 <= dddd <= 0xFF
    /\ cmd_set_gpio_dir a i h
       = (sent h [frame "9" hh 0x0 dddd], Ok (frame "9" hh 0x0 dddd)).
Proof.
  intros Ha Hi.
  destruct (mask_gpio act (normalize_in_range a 7 act Ha)) as [hh [E1 [R1 B1]]].
  destruct (mask_gpio ins (normalize_in_range i 7 ins Hi)) as [dddd [E2 [R2 B2]]].
  exists hh, dddd. repeat split; try apply B1; try apply B2; try lia.
  apply (cmd_set_gpio_dir_run a i act ins); assumption.
Qed.

Lemma gpio_dir_frame_witness :
  exists hh dddd,
    (forall b, Z.testbit hh b = true <-> In b [0; 1; 2; 3; 4; 5; 6; 7])
    /\ (forall b, Z.testbit dddd b = true <-> In b [2; 5])
    /\ 0 <= hh <= 0xFF /\ 0 <= dddd <= 0xFF
    /\ cmd_set_gpio_dir (SelStr "all") (SelIter [ItemInt 5; ItemInt 2]) (mkHandle [] [])
       = (sent (mkHandle [] []) [frame "9" hh 0x0 dddd], Ok (frame "9" hh 0x0 dddd)).
Proof.
  apply (gpio_dir_frame (SelStr "all") (SelIter [ItemInt 5; ItemInt 2])
           [0; 1; 2; 3; 4; 5; 6; 7] [2; 5] (mkHandle [] [])); reflexivity.
Defined.

(** X11: the PWM/GPIO mode command sends two frames: first the direction
    frame [*9 HH 0 0000#] that makes every active channel an output, then
    [*A HH 0 DDDD#], in which bit [i] of DDDD is set exactly when channel
    [i] is both a PWM channel and an active channel, so a PWM channel
    outside the active set is ignored. *)
Theorem gpio_pwm_mode_frames (a p : selector) (act pwm : list Z) (h : handle) :
  _normalize_channels a 7 = Ok act -> _normalize_channels p 7 = Ok pwm ->
  exists hh dd,
    (forall b, Z.testbit hh b = true <-> In b act)
    /\ (forall b, Z.testbit dd b = true <-> In b pwm /\ In b act)
    /\ Z.land dd hh = dd
    /\ cmd_set_gpio_pwm_mode a p h
       = (sent h [frame "9" hh 0x0 0x0000; frame "A" hh 0x0 dd], Ok (frame "A" hh 0x0 dd)).
Proof.
  intros Ha Hp.
  pose proof (normalize_in_range a 7 act Ha) as Ra.
  pose proof (normalize_in_range p 7 pwm Hp) as Rp.
  pose proof (normalize_sorted a 7 act Ha) as Sa.
  destruct (mask_gpio act Ra) as [hh [E1 [R1 B1]]].
  assert (Rf : Forall (fun c => 0 <= c <= 7) (filter (fun c => existsb (Z.eqb c) act) pwm)).
  { apply Forall_forall. intros c Hc. apply filter_In in Hc.
    rewrite Forall_forall in Rp. apply Rp, Hc. }
  destruct (mask_gpio _ Rf) as [dd [E2 [R2 B2]]].
  assert (Bdd : forall b, Z.testbit dd b = true <-> In b pwm /\ In b act).
  { intros b. rewrite B2, filter_In, existsb_eqb_In. reflexivity. }
  exists hh, dd. split; [exact B1|]. split; [exact Bdd|]. split.
  - apply Z.bits_inj'. intros b Hb. rewrite Z.land_spec.
    destruct (Z.testbit dd b) eqn:T; [|reflexivity].
    apply Bdd in T. destruct T as [_ T]. apply B1 in T. rewrite T. reflexivity.
  - unfold cmd_set_gpio_pwm_mode.
    unfold bind at 1, lift at 1. rewrite Ha.
    unfold bind at 1, lift at 1. rewrite Hp.
    unfold bind at 1.
    rewrite (cmd_set_gpio_dir_run (sel_of_list act) (SelIter []) act [] hh 0);
      [|apply normalize_sel_of_list; assumption|reflexivity|exact E1|reflexivity|lia|lia].
    unfold bind at 1, lift at 1. rewrite E1.
    unfold bind at 1, lift at 1. rewrite E2.
    rewrite (proj1 (land_ff hh R1)), (proj2 (land_ff dd R2)).
    rewrite run_frame by lia. rewrite sent_sent. reflexivity.
Qed.

Lemma gpio_pwm_mode_frames_witness :
  exists hh dd,
    (forall b, Z.testbit hh b = true <-> In b [0; 1])
    /\ (forall b, Z.testbit dd b = true <-> In b [1; 6] /\ In b [0; 1])
    /\ Z.land dd hh = dd
    /\ cmd_set_gpio_pwm_mode (SelIter [ItemInt 0; ItemInt 1]) (SelIter [ItemInt 6; ItemInt 1])
         (mkHandle [] [])
       = (sent (mkHandle [] []) [frame "9" hh 0x0 0x0000; frame "A" hh 0x0 dd],
          Ok (frame "A" hh 0x0 dd)).
Proof.
  apply (gpio_pwm_mode_frames (SelIter [ItemInt 0; ItemInt 1])
           (SelIter [ItemInt 6; ItemInt 1]) [0; 1] [1; 6] (mkHandle [] [])); reflexivity.
Defined.

(** X12: the encoder mode command sends three frames in this order: the
    direction frame [*9 HH 0 DDDD#] with DDDD = HH (the selected channels
    become inputs), [*A HH 0 0000#] (they are taken out of PWM), and
    [*A HH 1 0000#]; HH is the mask of the selected channels, at most
    0x0F. *)
Theorem encoder_mode_frames (channels : selector) (chs : list Z) (h : handle) :
  _normalize_channels channels 3 = Ok chs ->
  exists hh,
    (forall b, Z.testbit hh b = true <-> In b chs)
    /\ 0 <= hh <= 0x0F
    /\ cmd_set_encoder_mode channels h
       = (sent h [frame "9" hh 0x0 hh; frame "A" hh 0x0 0x0000; frame "A" hh 0x1 0x0000],
          Ok (frame "A" hh 0x1 0x0000)).
Proof.
  intros Hc.
  pose proof (normalize_in_range channels 3 chs Hc) as Rc.
  pose proof (normalize_sorted channels 3 chs Hc) as Sc.
  destruct (mask_bounded 4 chs) as [hh [E [R B]]]; [lia| |].
  { eapply Forall_impl; [|exact Rc]. simpl. intros; lia. }
  change (Z.ones 4) with 0x0F in R.
  assert (R8 : 0 <= hh <= 0xFF) by lia.
  assert (R7 : Forall (fun c => 0 <= c <= 7) chs).
  { eapply Forall_impl; [|exact Rc]. simpl. intros; lia. }
  exists hh. split; [exact B|]. split; [exact R|].
  unfold cmd_set_encoder_mode.
  unfold bind at 1, lift at 1. rewrite Hc.
  unfold bind at 1, lift at 1. rewrite E.
  rewrite (proj1 (land_ff hh R8)).
  unfold bind at 1.
  rewrite (cmd_set_gpio_dir_run (sel_of_list chs) (sel_of_list chs) chs chs hh hh);
    [|apply normalize_sel_of_list; assumption|apply normalize_sel_of_list; assumption
     |exact E|exact E|lia|lia].
  rewrite fmt_cmd_frame by lia. unfold bind at 1, lift at 1.
  unfold bind at 1. rewrite send_one.
  rewrite run_frame by lia. rewrite !sent_sent. reflexivity.
Qed.

Lemma encoder_mode_frames_witness :
  exists hh,
    (forall b, Z.testbit hh b = true <-> In b [0; 3])
    /\ 0 <= hh <= 0x0F
    /\ cmd_set_encoder_mode (SelIter [ItemInt 3; ItemInt 0]) (mkHandle [] [])
       = (sent (mkHandle [] [])
            [frame "9" hh 0x0 hh; frame "A" hh 0x0 0x0000; frame "A" hh 0x1 0x0000],
          Ok (frame "A" hh 0x1 0x0000)).
Proof.
  apply (encoder_mode_frames (SelIter [ItemInt 3; ItemInt 0]) [0; 3] (mkHandle [] [])).
  reflexivity.
Defined.

(** X13: writing the GPIO outputs by channel set never fails on the value:
    for any accepted selection it sends the single frame [*E 00 0 DDDD#]
    whose bit [i] is set exactly when channel [i] is selected. *)
Theorem gpio_write_mask_frame (high_channels : selector) (chs : list Z) (h : handle) :
  _normalize_channels high_channels 7 = Ok chs ->
  exists mask,
    (forall b, Z.testbit mask b = true <-> In b chs)
    /\ 0 <= mask <= 0xFF
    /\ cmd_gpio_write_mask high_channels h
       = (sent h [frame "E" 0x00 0x0 mask], Ok (frame "E" 0x00 0x0 mask)).
Proof.
  intros Hc. destruct (mask_gpio chs (normalize_in_range _ 7 chs Hc)) as [m [E [R B]]].
  exists m. split; [exact B|]. split; [exact R|].
  unfold cmd_gpio_write_mask.
  unfold bind at 1, lift at 1. rewrite Hc.
  unfold bind at 1, lift at 1. unfold _mask_from_channels in E. rewrite E.
  rewrite (proj1 (land_ff m R)). unfold cmd_gpio_write.
  replace (in_range 0 m 255) with true by (symmetry; apply in_range_true; lia).
  cbn [negb]. rewrite (proj1 (land_ff m R)). apply run_frame; lia.
Qed.

Lemma gpio_write_mask_frame_witness :
  exists mask,
    (forall b, Z.testbit mask b = true <-> In b [0; 1; 2; 3; 4; 5; 6; 7])
    /\ 0 <= mask <= 0xFF
    /\ cmd_gpio_write_mask (SelStr "all") (mkHandle [] [])
       = (sent (mkHandle [] []) [frame "E" 0x00 0x0 mask], Ok (frame "E" 0x00 0x0 mask)).
Proof.
  apply (gpio_write_mask_frame (SelStr "all") [0; 1; 2; 3; 4; 5; 6; 7] (mkHandle [] [])).
  reflexivity.
Defined.

(** ** Encoder control, any flags *)

Lemma cmd_encoder_ctrl_run (channels : selector) (d : option bool) (r l : bool) (h : handle) :
  r && l = false ->
  cmd_encoder_ctrl channels d r l h
  = match _normalize_channels channels 3 with
    | Ok chs =>
        (sent h (map (fun ch => frame "A" ch 0x4 (encoder_ctrl_data d r l)) chs),
         Ok (map (fun ch => frame "A" ch 0x4 (encoder_ctrl_data d r l)) chs))
    | Err e => (h, Err e)
    end.
Proof.
  intros Hrl. unfold cmd_encoder_ctrl. rewrite Hrl. unfold bind at 1, lift at 1.
  destruct (_normalize_channels channels 3) as [chs|e] eqn:E; [|reflexivity].
  apply normalize_in_range in E. rewrite Forall_forall in E.
  apply (for_each_frames
           (fun ch => _fmt_cmd "A" (_hh_from_single_ch ch) 0x4 _)
           (fun ch => frame "A" ch 0x4 (encoder_ctrl_data d r l))).
  intros ch Hch. specialize (E ch Hch). rewrite hh_from_single_ch_id by lia.
  rewrite <- fmt_cmd_frame
    by (first [lia|destruct d as [[|]|], r, l; cbv; split; discriminate]).
  destruct d as [[|]|], r, l; reflexivity.
Qed.

(** X14: the data field of every encoder control frame is
    bit 0 (direction invert, set only for [dir_invert = True])
    + bit 1 (count reset) + bit 2 (load preset), one frame per selected
    channel; bits 1 and 2 are never both set.  The three wrappers send, for
    each selected channel, the frame with data field 0x0002 (count reset),
    0x0004 (load preset) and 0x0001 or 0x0000 (direction invert on or
    off), and return these frames. *)
Theorem encoder_ctrl_data_field (channels : selector) (chs : list Z) (h : handle) :
  _normalize_channels channels 3 = Ok chs ->
  (forall d r l, r && l = false ->
     cmd_encoder_ctrl channels d r l h
     = (sent h (map (fun ch => frame "A" ch 0x4 (encoder_ctrl_data d r l)) chs),
        Ok (map (fun ch => frame "A" ch 0x4 (encoder_ctrl_data d r l)) chs))
     /\ 0 <= encoder_ctrl_data d r l <= 5
     /\ Z.testbit (encoder_ctrl_data d r l) 1 = r
     /\ Z.testbit (encoder_ctrl_data d r l) 2 = l)
  /\ cmd_encoder_count_reset channels h
     = (sent h (map (fun ch => frame "A" ch 0x4 0x0002) chs),
        Ok (map (fun ch => frame "A" ch 0x4 0x0002) chs))
  /\ cmd_encoder_load_preset channels h
     = (sent h (map (fun ch => frame "A" ch 0x4 0x0004) chs),
        Ok (map (fun ch => frame "A" ch 0x4 0x0004) chs))
  /\ (forall invert,
        cmd_encoder_dir_invert channels invert h
        = (sent h (map (fun ch => frame "A" ch 0x4 (if invert then 0x0001 else 0x0000)) chs),
           Ok (map (fun ch => frame "A" ch 0x4 (if invert then 0x0001 else 0x0000)) chs))).
Proof.
  intros Hc. split; [|split; [|split]].
  - intros d r l Hrl. rewrite cmd_encoder_ctrl_run, Hc by exact Hrl.
    split; [reflexivity|]. destruct d as [[|]|], r, l; try discriminate Hrl;
      (split; [cbv; split; discriminate|split; reflexivity]).
  - unfold cmd_encoder_count_reset. rewrite cmd_encoder_ctrl_run, Hc by reflexivity. reflexivity.
  - unfold cmd_encoder_load_preset. rewrite cmd_encoder_ctrl_run, Hc by reflexivity. reflexivity.
  - intros invert. unfold cmd_encoder_dir_invert.
    rewrite cmd_encoder_ctrl_run, Hc by reflexivity. destruct invert; reflexivity.
Qed.

Lemma encoder_ctrl_data_field_witness :
  cmd_encoder_count_reset (SelInt 1) (mkHandle [] [])
    = (sent (mkHandle [] []) (map (fun ch => frame "A" ch 0x4 0x0002) [1]),
       Ok (map (fun ch => frame "A" ch 0x4 0x0002) [1]))
  /\ snd (cmd_encoder_ctrl (SelInt 1) (Some true) false true (mkHandle [] []))
     = Ok ["*A0140005#"].
Proof.
  split.
  - apply (proj1 (proj2 (encoder_ctrl_data_field (SelInt 1) [1] (mkHandle [] []) eq_refl))).
  - apply (f_equal snd
             (proj1 (proj1 (encoder_ctrl_data_field (SelInt 1) [1] (mkHandle [] []) eq_refl)
                      (Some true) false true eq_refl))).
Defined.

(** ** LDAC mask *)

Lemma ldac_mask_loop_ok (l : list Z) :
  Forall (fun c => 0 <= c <= 7) l ->
  forall m, ldac_mask_loop m l = mask_loop m l.
Proof.
  induction 1 as [|c l Hc _ IH]; intros m; simpl; [reflexivity|].
  replace (in_range 0 c 7) with true by (symmetry; apply in_range_true; lia).
  cbn [negb]. destruct (py_shl1 c); simpl; [apply IH|reflexivity].
Qed.

Lemma ldac_mask_loop_err (l : list Z) :
  ~ Forall (fun c => 0 <= c <= 7) l ->
  forall m, ldac_mask_loop m l = Err (ValueError "CH 0..7").
Proof.
  induction l as [|c l IH]; intros H m; simpl.
  - exfalso. apply H. constructor.
  - destruct (in_range 0 c 7) eqn:E; [|reflexivity]. cbn [negb].
    apply in_range_true in E. unfold py_shl1.
    replace (c <? 0) with false by (symmetry; apply Z.ltb_ge; lia). simpl.
    apply IH. intros HF. apply H. constructor; assumption.
Qed.

(** X15: [ldac_mask_from_channels] takes the channels in any order and
    with repeats.  When every channel lies in 0..7 it returns the mask
    with bit [i] set exactly when channel [i] is listed, a value in
    0x00..0xFF that [cmd_set_ldac_mask] accepts and sends as
    [*8 00 0 DDDD#]; when some channel lies outside 0..7 it raises a
    validation error. *)
Theorem ldac_mask_bits (channels : list Z) :
  (Forall (fun c => 0 <= c <= 7) channels ->
   exists mask,
     ldac_mask_from_channels channels = Ok mask
     /\ (forall b, Z.testbit mask b = true <-> In b channels)
     /\ 0 <= mask <= 0xFF
     /\ forall h, cmd_set_ldac_mask mask h
                  = (sent h [frame "8" 0x00 0x0 mask], Ok (frame "8" 0x00 0x0 mask)))
  /\ (~ Forall (fun c => 0 <= c <= 7) channels ->
      is_value_error (ldac_mask_from_channels channels) = true).
Proof.
  split; intros H.
  - destruct (mask_gpio channels H) as [m [E [R B]]]. exists m.
    unfold ldac_mask_from_channels. rewrite ldac_mask_loop_ok by exact H.
    unfold _mask_from_channels in E. rewrite E. cbn [rbind].
    rewrite (proj1 (land_ff m R)). split; [reflexivity|]. split; [exact B|]. split; [exact R|].
    intros h. unfold cmd_set_ldac_mask.
    replace (in_range 0 m 255) with true by (symmetry; apply in_range_true; lia).
    cbn [negb]. rewrite (proj1 (land_ff m R)). apply run_frame; lia.
  - unfold ldac_mask_from_channels. rewrite ldac_mask_loop_err by exact H. reflexivity.
Qed.

Lemma ldac_mask_bits_witness :
  (exists mask,
     ldac_mask_from_channels [7; 0; 7] = Ok mask
     /\ (forall b, Z.testbit mask b = true <-> In b [7; 0; 7])
     /\ 0 <= mask <= 0xFF
     /\ forall h, cmd_set_ldac_mask mask h
                  = (sent h [frame "8" 0x00 0x0 mask], Ok (frame "8" 0x00 0x0 mask)))
  /\ is_value_error (ldac_mask_from_channels [1; 8]) = true.
Proof.
  split.
  - apply (proj1 (ldac_mask_bits [7; 0; 7])). repeat constructor; lia.
  - apply (proj2 (ldac_mask_bits [1; 8])).
    intros H. inversion H as [|? ? _ H']; subst. inversion H' as [|? ? B _]; subst. lia.
Defined.

(** ** PWM frequency field *)

(** X16: the PWM frequency command on a selection the normalisation
    accepts.  With at least one channel selected, a frequency is accepted
    exactly when it is 0..4095 Hz or a multiple of 1000 Hz up to 97000 Hz:
    the command then sends [*B HH 0 DDDD#] for each channel, and the
    frequency is recovered from the data field (Hz below 0x8000, kHz
    above), so distinct frequencies get distinct fields, and because the Hz
    band is tried first the kHz codes 0x8000..0x8004 are never sent; any
    other frequency raises a validation error and nothing is sent.  With
    no channel selected every frequency that is not negative is accepted
    and nothing is sent. *)
Theorem pwm_freq_field_code (channels : selector) (chs : list Z) (f : Z) (h : handle) :
  _normalize_channels channels 7 = Ok chs ->
  ((0 <= f <= 4095 \/ (f mod 1000 = 0 /\ 0 <= f <= 97000)) ->
   exists d, pwm_freq_of_field d = f
             /\ (0 <= d <= 0x0FFF \/ 0x8005 <= d <= 0x8061)
             /\ cmd_pwm_set_frequency channels f h
                = (sent h (map (fun ch => frame "B" ch 0x0 d) chs),
                   Ok (map (fun ch => frame "B" ch 0x0 d) chs)))
  /\ (~ (0 <= f <= 4095 \/ (f mod 1000 = 0 /\ 0 <= f <= 97000)) ->
      (chs <> [] ->
       fst (cmd_pwm_set_frequency channels f h) = h
       /\ is_value_error (snd (cmd_pwm_set_frequency channels f h)) = true)
      /\ (chs = [] -> 0 <= f -> cmd_pwm_set_frequency channels f h = (h, Ok [])))
  /\ (f < 0 ->
      fst (cmd_pwm_set_frequency channels f h) = h
      /\ is_value_error (snd (cmd_pwm_set_frequency channels f h)) = true).
Proof.
  intros Hc. split; [|split].
  - intros H.
    assert (Hd : exists d, pwm_freq_field f = Ok d /\ pwm_freq_of_field d = f
                           /\ (0 <= d <= 0x0FFF \/ 0x8005 <= d <= 0x8061)).
    { unfold pwm_freq_field, pwm_freq_of_field.
      destruct (in_range 0 f 4095) eqn:E1.
      + apply in_range_true in E1. exists f. split; [reflexivity|].
        replace (f <? 32768) with true by (symmetry; apply Z.ltb_lt; lia).
        split; [reflexivity|left; lia].
      + apply in_range_false in E1.
        assert (Hk : f mod 1000 = 0 /\ 4095 < f <= 97000) by lia.
        replace (f mod 1000 =? 0) with true by (symmetry; apply Z.eqb_eq; lia).
        replace (in_range 0 (f / 1000) 97) with true by (symmetry; apply in_range_true; lia).
        cbn [andb]. exists (0x8000 + f / 1000). split; [reflexivity|].
        replace (32768 + f / 1000 <? 32768) with false by (symmetry; apply Z.ltb_ge; lia).
        split; [lia|right; lia]. }
    destruct Hd as [d [Hf [Hb Hr]]]. exists d. split; [exact Hb|]. split; [exact Hr|].
    rewrite (pwm_frequency_loop channels f d) by (assumption || lia). rewrite Hc. reflexivity.
  - intros H.
    assert (He : 0 <= f -> is_value_error (pwm_freq_field f) = true).
    { intros Hf. unfold pwm_freq_field.
      replace (in_range 0 f 4095) with false by (symmetry; apply in_range_false; lia).
      destruct (f mod 1000 =? 0) eqn:E2; [|reflexivity].
      apply Z.eqb_eq in E2.
      replace (in_range 0 (f / 1000) 97) with false by (symmetry; apply in_range_false; lia).
      reflexivity. }
    split.
    + intros Hne. unfold cmd_pwm_set_frequency.
      destruct (f <? 0) eqn:Ef; [split; reflexivity|]. apply Z.ltb_ge in Ef.
      unfold bind at 1, lift at 1. rewrite Hc.
      destruct chs as [|c chs]; [contradiction|].
      cbn [for_each]. unfold bind, lift. specialize (He Ef).
      destruct (pwm_freq_field f) as [d|e]; [discriminate|]. split; [reflexivity|exact He].
    + intros -> Hf. unfold cmd_pwm_set_frequency.
      replace (f <? 0) with false by (symmetry; apply Z.ltb_ge; lia).
      unfold bind, lift. rewrite Hc. reflexivity.
  - intros Hf. unfold cmd_pwm_set_frequency.
    replace (f <? 0) with true by (symmetry; apply Z.ltb_lt; lia).
    split; reflexivity.
Qed.

Lemma pwm_freq_field_code_witness :
  (exists d, pwm_freq_of_field d = 97000
             /\ (0 <= d <= 0x0FFF \/ 0x8005 <= d <= 0x8061)
             /\ cmd_pwm_set_frequency (SelInt 3) 97000 (mkHandle [] [])
                = (sent (mkHandle [] []) (map (fun ch => frame "B" ch 0x0 d) [3]),
                   Ok (map (fun ch => frame "B" ch 0x0 d) [3])))
  /\ is_value_error (snd (cmd_pwm_set_frequency (SelInt 3) 4500 (mkHandle [] []))) = true.
Proof.
  split.
  - apply (proj1 (pwm_freq_field_code (SelInt 3) [3] 97000 (mkHandle [] []) eq_refl)).
    right. split; [reflexivity|lia].
  - apply (proj1 (proj2 (pwm_freq_field_code (SelInt 3) [3] 4500 (mkHandle [] []) eq_refl)));
      [|discriminate].
    intros [H|[H _]]; [lia|discriminate H].
Defined.

(** ** Sampling-rate lookup, every rate *)

(** X17: the sampling command exists exactly for the rates 2^k ksps with
    k in 0..8 and the targets 0 and 1, and its frame is
    [*00T0000K#]: T is the target and K is k, the base-2 logarithm of the
    rate. *)
Theorem sampling_command_frame (fs_ksps target : Z) :
  (forall k, 0 <= k <= 8 -> fs_ksps = 2 ^ k -> target = 0 \/ target = 1 ->
     get_sampling_command fs_ksps target
     = Ok ("*00" ++ hex1 target ++ "0000" ++ hex1 k ++ "#"))
  /\ (forall s, get_sampling_command fs_ksps target = Ok s ->
        (exists k, 0 <= k <= 8 /\ fs_ksps = 2 ^ k) /\ (target = 0 \/ target = 1)).
Proof.
  split.
  - intros k Hk -> Ht.
    assert (Hc : k = 0 \/ k = 1 \/ k = 2 \/ k = 3 \/ k = 4 \/ k = 5 \/ k = 6 \/ k = 7 \/ k = 8)
      by lia.
    destruct Ht as [-> | ->];
      repeat (destruct Hc as [-> | Hc]; [reflexivity|]); subst; reflexivity.
  - intros s H. unfold get_sampling_command in H.
    destruct (existsb (Z.eqb fs_ksps) [1; 2; 4; 8; 16; 32; 64; 128; 256]) eqn:E;
      [|discriminate H].
    cbn [negb] in H. split.
    + apply existsb_exists in E. destruct E as [x [Hx Ex]]. apply Z.eqb_eq in Ex. subst x.
      simpl in Hx.
      repeat (destruct Hx as [<- | Hx];
              [first [exists 0; split; [lia|reflexivity] | exists 1; split; [lia|reflexivity]
                     | exists 2; split; [lia|reflexivity] | exists 3; split; [lia|reflexivity]
                     | exists 4; split; [lia|reflexivity] | exists 5; split; [lia|reflexivity]
                     | exists 6; split; [lia|reflexivity] | exists 7; split; [lia|reflexivity]
                     | exists 8; split; [lia|reflexivity]]|]).
      contradiction.
    + destruct (target =? 0) eqn:T0; [left; apply Z.eqb_eq, T0|].
      destruct (target =? 1) eqn:T1; [right; apply Z.eqb_eq, T1|discriminate H].
Qed.

Lemma sampling_command_frame_witness :
  get_sampling_command 256 1 = Ok "*00100008#"
  /\ ((exists k, 0 <= k <= 8 /\ 16 = 2 ^ k) /\ (0 = 0 \/ 0 = 1)).
Proof.
  split.
  - apply (proj1 (sampling_command_frame 256 1) 8); [lia|reflexivity|right; reflexivity].
  - apply (proj2 (sampling_command_frame 16 0) "*00000004#"). reflexivity.
Defined.

(** ** PWM duty: a code that is never produced *)

Lemma duty_code_spec_not_512 (n : Z) : duty_code_spec n <> 0x0200.
Proof.
  unfold duty_code_spec. destruct (Z.abs (n - 2 ^ 1073) <? 2 ^ 1064) eqn:E; [lia|].
  apply Z.ltb_ge in E. rewrite scaled_ticks.
  assert (H73 : 2 ^ 1073 = 512 * 2 ^ 1064).
  { change 512 with (2 ^ 9). rewrite <- pow2_split by lia. reflexivity. }
  assert (Hc : 0 < 2 ^ 1064) by (apply Z.pow_pos_nonneg; lia).
  rewrite H73 in E. set (c := 2 ^ 1064) in *. clearbody c.
  intros H. assert (Ht : n / c = 512) by lia.
  pose proof (Z.div_mod n c ltac:(lia)) as Hd.
  pose proof (Z.mod_pos_bound n c Hc) as Hm.
  rewrite Ht in Hd. lia.
Qed.

(** X18: the duty conversion never yields 0x0200.  Whatever float is passed
    as duty, if a code is computed it is different from 0x0200: the values
    that would scale to 512 lie within 1/1024 of 0.5 and are sent as
    0x01FF.  Through [cmd_pwm_set_duty] the half-scale code 0x0200 is
    therefore unreachable; only [cmd_pwm_set_data_raw] can send it. *)
Theorem pwm_duty_never_0x0200 (d : float) (code : Z) :
  pwm_duty_code d = Ok code -> code <> 0x0200.
Proof.
  intros H. destruct ((0 <=? d)%float && (d <=? 1)%float) eqn:G.
  - apply andb_true_iff in G. destruct G as [H0 H1].
    destruct (duty_cases d H0 H1) as [E|[[E0 E1]|[E0 [E1 [m [e [Hd He]]]]]]].
    + unfold pwm_duty_code in H. rewrite H0, H1, E in H. cbn [andb negb] in H.
      injection H as <-. lia.
    + unfold pwm_duty_code in H. rewrite H0, H1, E0, E1 in H. cbn [andb negb] in H.
      injection H as <-. lia.
    + rewrite (pwm_duty_code_inner d m e Hd He) in H. injection H as <-.
      apply duty_code_spec_not_512.
  - unfold pwm_duty_code in H. rewrite G in H. discriminate H.
Qed.

Lemma pwm_duty_never_0x0200_witness :
  pwm_duty_code 0.5001220703125 = Ok 0x01FF /\ 0x01FF <> 0x0200.
Proof.
  split; [reflexivity|].
  apply (pwm_duty_never_0x0200 0.5001220703125 0x01FF). reflexivity.
Defined.

(** ** GPIO read: the documented reply *)

Lemma forallb_py_range (P : Z -> bool) (n : Z) :
  forallb P (py_range n) = true -> forall v, 0 <= v < n -> P v = true.
Proof.
  intros H v Hv. rewrite forallb_forall in H. apply H, py_range_In, Hv.
Qed.

(** X19: [cmd_gpio_read] reads back what the device reports: on the reply
    [*D0000XX#] followed by a line feed, where XX are the two uppercase
    hexadecimal digits of a value in 0..255, the parsed value is that
    value. *)
Theorem gpio_read_round_trip (unicode_upper : Z -> list Z) (v : Z) :
  0 <= v <= 0xFF -> gpio_read_value unicode_upper (gpio_reply v) = v.
Proof.
  intros Hv. apply Z.eqb_eq.
  apply (forallb_py_range
           (fun v => gpio_read_value unicode_upper (gpio_reply v) =? v) 256); [|lia].
  vm_compute. reflexivity.
Qed.

Lemma gpio_read_round_trip_witness : gpio_read_value caseless (gpio_reply 0xA5) = 0xA5.
Proof. apply (gpio_read_round_trip caseless 0xA5). lia. Defined.

(** ** Encoder status read *)

Lemma cmd_encoder_status_read_run (channel : Z) (h : handle) :
  0 <= channel <= 3 ->
  cmd_encoder_status_read channel h
  = (sent h [frame "D" channel 0x1 0x0000], Ok (hd "" (pending h))).
Proof.
  intros Hc. unfold cmd_encoder_status_read.
  replace (in_range 0 channel 3) with true by (symmetry; apply in_range_true; lia).
  cbn [negb]. rewrite fmt_cmd_frame by lia.
  unfold bind, lift, _write_ascii, _readline, ret, sent.
  cbn [fst snd written pending List.length map].
  destruct (pending h); reflexivity.
Qed.

(** X20: the encoder status read always returns on a channel in 0..3,
    whatever the device replies and whatever [int] does with the count: it
    sends the single frame [*D HH 1 0000#], takes one reply line, and
    returns a result whose "ch" is the channel and whose "raw" is the
    decoded, stripped reply.  On any other channel it raises a validation
    error and sends nothing. *)
Theorem encoder_status_read_returns
    (unicode_upper : Z -> list Z) (py_int : list Z -> Z -> result Z)
    (channel : Z) (h : handle) :
  (0 <= channel <= 3 ->
   cmd_encoder_status_read_dict unicode_upper py_int channel h
   = (sent h [frame "D" channel 0x1 0x0000],
      Ok (encoder_status_parse unicode_upper py_int channel (hd "" (pending h)))))
  /\ (~ 0 <= channel <= 3 ->
      fst (cmd_encoder_status_read_dict unicode_upper py_int channel h) = h
      /\ is_value_error
           (snd (cmd_encoder_status_read_dict unicode_upper py_int channel h)) = true)
  /\ (forall resp,
        st_ch (encoder_status_parse unicode_upper py_int channel resp) = channel
        /\ st_raw (encoder_status_parse unicode_upper py_int channel resp) = reply_text resp).
Proof.
  split; [|split].
  - intros Hc. unfold cmd_encoder_status_read_dict, bind at 1.
    rewrite cmd_encoder_status_read_run by exact Hc. reflexivity.
  - intros Hc. unfold cmd_encoder_status_read_dict, bind, cmd_encoder_status_read.
    replace (in_range 0 channel 3) with false by (symmetry; apply in_range_false; exact Hc).
    split; reflexivity.
  - intros resp. unfold encoder_status_parse.
    destruct (2 <=? _)%nat; [|split; reflexivity].
    destruct (py_int _ _); split; reflexivity.
Qed.

Lemma encoder_status_read_returns_witness :
  cmd_encoder_status_read_dict caseless plain_int 2 (mkHandle [] ["*D0,12,F,0,1#"])
    = (mkHandle ["*D0210000#"] [],
       Ok (encoder_status_parse caseless plain_int 2 "*D0,12,F,0,1#"))
  /\ is_value_error
       (snd (cmd_encoder_status_read_dict caseless plain_int 4 (mkHandle [] []))) = true.
Proof.
  split.
  - apply (proj1 (encoder_status_read_returns caseless plain_int 2
                    (mkHandle [] ["*D0,12,F,0,1#"]))).
    lia.
  - apply (proj2 (proj1 (proj2 (encoder_status_read_returns caseless plain_int 4
                                  (mkHandle [] []))) ltac:(lia))).
Defined.

(** *** Splitting and stripping *)

Lemma substring_refl (s : list Z) : substring s s.
Proof. exists [], []. rewrite app_nil_r. reflexivity. Qed.

Lemma substring_trans (a b c : list Z) :
  substring a b -> substring b c -> substring a c.
Proof.
  intros [p [q ->]] [p' [q' ->]]. exists (p' ++ p)%list, (q ++ q')%list.
  rewrite <- !app_assoc. reflexivity.
Qed.

Lemma substring_In (f s : list Z) (c : Z) : substring f s -> In c f -> In c s.
Proof.
  intros [p [q ->]] H. apply in_or_app. right. apply in_or_app. left. exact H.
Qed.

Lemma split_on_pieces (sep : Z) (s : list Z) :
  Forall (fun p => ~ In sep p /\ substring p s) (split_on sep s).
Proof.
  induction s as [|c s IH]; cbn [split_on].
  - constructor; [|constructor]. split; [intros []|apply substring_refl].
  - destruct (c =? sep) eqn:E.
    + constructor.
      * split; [intros []|]. exists [], (c :: s). reflexivity.
      * eapply Forall_impl; [|exact IH]. intros p [Hn [a [b ->]]].
        split; [exact Hn|]. exists (c :: a), b. reflexivity.
    + apply Z.eqb_neq in E.
      destruct (split_on sep s) as [|p ps] eqn:Es.
      * constructor; [|constructor]. split.
        -- intros [H|[]]. congruence.
        -- exists [], s. reflexivity.
      * inversion IH as [|? ? [Hn Hs] Hps]; subst. constructor.
        -- split.
           ++ intros [H|H]; [congruence|exact (Hn H)].
           ++ (* [p] is the first piece: it is a prefix of [s] *)
              assert (Hpre : exists b, s = (p ++ b)%list).
              { clear -Es. revert p ps Es. induction s as [|d s IHs]; intros p ps Es.
                - cbn in Es. injection Es as <- <-. exists []. reflexivity.
                - cbn [split_on] in Es. destruct (d =? sep).
                  + injection Es as <- <-. exists (d :: s). reflexivity.
                  + destruct (split_on sep s) as [|p' ps'] eqn:E'.
                    * injection Es as <- <-. exists s. reflexivity.
                    * injection Es as <- <-. destruct (IHs p' ps' eq_refl) as [b ->].
                      exists b. reflexivity. }
              destruct Hpre as [b ->]. exists [], b. reflexivity.
        -- eapply Forall_impl; [|exact Hps]. intros q [Hq [a [b Hab]]].
           split; [exact Hq|]. exists (c :: a), b. rewrite Hab. reflexivity.
Qed.

Lemma lstrip_suffix (s : list Z) : exists p, s = (p ++ lstrip s)%list.
Proof.
  induction s as [|c s [p IH]]; cbn [lstrip].
  - exists []. reflexivity.
  - destruct (is_space c).
    + exists (c :: p). cbn. rewrite <- IH. reflexivity.
    + exists []. reflexivity.
Qed.

Lemma lstrip_head (s : list Z) (c : Z) (t : list Z) :
  lstrip s = c :: t -> is_space c = false.
Proof.
  induction s as [|d s IH]; cbn [lstrip]; [discriminate|].
  destruct (is_space d) eqn:E; [exact IH|].
  intros H. injection H as <- _. exact E.
Qed.

Lemma lstrip_id (s : list Z) :
  (forall c t, s = c :: t -> is_space c = false) -> lstrip s = s.
Proof.
  destruct s as [|c s]; [reflexivity|]. intros H. cbn [lstrip].
  rewrite (H c s eq_refl). reflexivity.
Qed.

Lemma lstrip_char_suffix (x : Z) (s : list Z) :
  exists p, s = (p ++ lstrip_char x s)%list.
Proof.
  induction s as [|c s [p IH]]; cbn [lstrip_char].
  - exists []. reflexivity.
  - destruct (c =? x).
    + exists (c :: p). cbn. rewrite <- IH. reflexivity.
    + exists []. reflexivity.
Qed.

Lemma lstrip_char_head (x : Z) (s : list Z) (c : Z) (t : list Z) :
  lstrip_char x s = c :: t -> c <> x.
Proof.
  induction s as [|d s IH]; cbn [lstrip_char]; [discriminate|].
  destruct (d =? x) eqn:E; [exact IH|].
  intros H. injection H as <- _. apply Z.eqb_neq. exact E.
Qed.

(** [s.strip()] is a piece of [s]: [lstrip s = str_strip s ++ q]. *)
Lemma str_strip_prefix (s : list Z) : exists q, lstrip s = (str_strip s ++ q)%list.
Proof.
  unfold str_strip. destruct (lstrip_suffix (rev (lstrip s))) as [p Hp].
  exists (rev p). apply (f_equal (@rev Z)) in Hp.
  rewrite rev_involutive, rev_app_distr in Hp. exact Hp.
Qed.

Lemma str_strip_substring (s : list Z) : substring (str_strip s) s.
Proof.
  destruct (str_strip_prefix s) as [q Hq]. destruct (lstrip_suffix s) as [p Hp].
  exists p, q. rewrite <- Hq. exact Hp.
Qed.

Lemma str_strip_head (s : list Z) (c : Z) (t : list Z) :
  str_strip s = c :: t -> is_space c = false.
Proof.
  intros H. destruct (str_strip_prefix s) as [q Hq]. rewrite H in Hq.
  exact (lstrip_head s c (t ++ q)%list Hq).
Qed.

Lemma str_strip_last (s : list Z) (t : list Z) (c : Z) :
  str_strip s = (t ++ [c])%list -> is_space c = false.
Proof.
  unfold str_strip. intros H. apply (f_equal (@rev Z)) in H.
  rewrite rev_involutive, rev_app_distr in H. cbn in H.
  exact (lstrip_head _ _ _ H).
Qed.

Lemma rstrip_char_prefix (x : Z) (s : list Z) :
  exists q, s = (rstrip_char x s ++ q)%list.
Proof.
  unfold rstrip_char. destruct (lstrip_char_suffix x (rev s)) as [p Hp].
  exists (rev p). apply (f_equal (@rev Z)) in Hp.
  rewrite rev_involutive, rev_app_distr in Hp. exact Hp.
Qed.

Lemma rstrip_char_last (x : Z) (s t : list Z) (c : Z) :
  rstrip_char x s = (t ++ [c])%list -> c <> x.
Proof.
  unfold rstrip_char. intros H. apply (f_equal (@rev Z)) in H.
  rewrite rev_involutive, rev_app_distr in H. cbn in H.
  exact (lstrip_char_head _ _ _ _ H).
Qed.

Lemma status_fields_pieces (txt : list Z) :
  Forall (fun p => ~ In 44 p /\ substring p txt) (status_fields txt).
Proof.
  unfold status_fields.
  set (body := match txt with
               | a :: b :: rest => if (a =? 42) && (b =? 68) then rest else txt
               | _ => txt end).
  assert (Hb : substring body txt).
  { subst body. destruct txt as [|a [|b rest]]; try apply substring_refl.
    destruct ((a =? 42) && (b =? 68)); [|apply substring_refl].
    exists [a; b], []. rewrite app_nil_r. reflexivity. }
  apply Forall_forall. intros p Hp. apply filter_In in Hp. destruct Hp as [Hp _].
  pose proof (split_on_pieces 44 body) as H. rewrite Forall_forall in H.
  destruct (H p Hp) as [Hn Hs]. split; [exact Hn|].
  exact (substring_trans _ _ _ Hs Hb).
Qed.

Lemma status_field_nth (txt : list Z) (k : nat) :
  (k < List.length (status_fields txt))%nat ->
  ~ In 44 (nth k (status_fields txt) []) /\ substring (nth k (status_fields txt) []) txt.
Proof.
  intros H. pose proof (status_fields_pieces txt) as HF. rewrite Forall_forall in HF.
  apply HF. apply nth_In. exact H.
Qed.

(** X22: the text fields of the result.  Whenever "dir", "ovf" or "ae" is
    present it is a contiguous piece of the stripped reply "raw" and holds
    no comma; "dir" and "ovf" neither start nor end with whitespace; "ae"
    does not start with whitespace and does not end with [#] (it may end
    with whitespace that stood before the [#]). *)
Theorem encoder_status_text_fields
    (unicode_upper : Z -> list Z) (py_int : list Z -> Z -> result Z)
    (channel : Z) (resp : string) (f : list Z) :
  let r := encoder_status_parse unicode_upper py_int channel resp in
  (st_dir r = Some f \/ st_ovf r = Some f ->
     substring f (st_raw r) /\ ~ In 44 f
     /\ (forall c t, f = c :: t -> is_space c = false)
     /\ (forall t c, f = (t ++ [c])%list -> is_space c = false))
  /\ (st_ae r = Some f ->
     substring f (st_raw r) /\ ~ In 44 f
     /\ (forall c t, f = c :: t -> is_space c = false)
     /\ (forall t c, f = (t ++ [c])%list -> c <> 35)).
Proof.
  intros r. subst r. unfold encoder_status_parse.
  set (txt := reply_text resp). set (parts := status_fields txt).
  assert (Hstrip : forall k, (k < List.length parts)%nat ->
            substring (str_strip (nth k parts [])) txt
            /\ ~ In 44 (str_strip (nth k parts []))).
  { intros k Hk. destruct (status_field_nth txt k Hk) as [Hn Hs]. fold parts in Hn, Hs.
    pose proof (str_strip_substring (nth k parts [])) as Hss. split.
    - exact (substring_trans _ _ _ Hss Hs).
    - intros Hin. apply Hn. exact (substring_In _ _ _ Hss Hin). }
  destruct (if (2 <=? List.length parts)%nat
            then n <- py_int (count_text unicode_upper parts)
                        (count_base (count_text unicode_upper parts)) ;; Ok (Some n)
            else Ok None) as [count|e];
    cbn [st_raw st_dir st_ovf st_ae]; [|split; [intros [H|H]|intros H]; discriminate].
  split.
  - intros [H|H].
    + destruct (3 <=? List.length parts)%nat eqn:E; [|discriminate].
      apply Nat.leb_le in E. injection H as <-.
      destruct (Hstrip 2%nat ltac:(lia)) as [Hs Hn].
      split; [exact Hs|]. split; [exact Hn|]. split.
      * intros c t. apply str_strip_head.
      * intros t c. apply str_strip_last.
    + destruct (4 <=? List.length parts)%nat eqn:E; [|discriminate].
      apply Nat.leb_le in E. injection H as <-.
      destruct (Hstrip 3%nat ltac:(lia)) as [Hs Hn].
      split; [exact Hs|]. split; [exact Hn|]. split.
      * intros c t. apply str_strip_head.
      * intros t c. apply str_strip_last.
  - intros H. destruct (5 <=? List.length parts)%nat eqn:E; [|discriminate].
    apply Nat.leb_le in E. injection H as <-.
    destruct (Hstrip 4%nat ltac:(lia)) as [Hs Hn].
    destruct (rstrip_char_prefix 35 (str_strip (nth 4 parts []))) as [q Hq].
    assert (Hsub : substring (rstrip_char 35 (str_strip (nth 4 parts [])))
                     (str_strip (nth 4 parts []))).
    { exists [], q. exact Hq. }
    split; [exact (substring_trans _ _ _ Hsub Hs)|].
    split; [intros Hin; apply Hn; exact (substring_In _ _ _ Hsub Hin)|]. split.
    + intros c t Hf. rewrite Hf in Hq. exact (str_strip_head _ _ _ Hq).
    + intros t c. apply rstrip_char_last.
Qed.

Lemma encoder_status_text_fields_witness :
  substring [70] (st_raw (encoder_status_parse caseless plain_int 0 "*D0, 12 , F ,0, 1 #"))
  /\ ~ In 44 [70]
  /\ (forall c t, [70] = c :: t -> is_space c = false)
  /\ (forall t c, [70] = (t ++ [c])%list -> is_space c = false).
Proof.
  apply (proj1 (encoder_status_text_fields caseless plain_int 0 "*D0, 12 , F ,0, 1 #" [70])).
  left. reflexivity.
Defined.

(** *** The count text *)

Lemma digit_not_space (c : Z) : is_digit c = true -> is_space c = false.
Proof.
  unfold is_digit, is_space, in_range. intros H.
  apply andb_prop in H. destruct H as [H1 H2].
  apply Z.leb_le in H1. apply Z.leb_le in H2.
  repeat (apply orb_false_intro);
    first [apply Z.eqb_neq; lia
          | apply andb_false_iff;
            first [left; apply Z.leb_gt; lia | right; apply Z.leb_gt; lia]].
Qed.

Lemma str_upper_digits (u : Z -> list Z) (ds : list Z) :
  forallb is_digit ds = true -> str_upper u ds = ds.
Proof.
  induction ds as [|d ds IH]; [reflexivity|]. cbn [forallb]. intros H.
  apply andb_prop in H. destruct H as [Hd Hds].
  unfold str_upper. cbn [flat_map]. fold (str_upper u ds). rewrite (IH Hds).
  unfold is_digit, in_range in Hd. apply andb_prop in Hd. destruct Hd as [H1 H2].
  apply Z.leb_le in H1. apply Z.leb_le in H2.
  replace (in_range 97 d 122) with false
    by (symmetry; unfold in_range; apply andb_false_iff; left; apply Z.leb_gt; lia).
  replace (d <? 128) with true by (symmetry; apply Z.ltb_lt; lia).
  reflexivity.
Qed.

Lemma remove_char_digits (x : Z) (ds : list Z) :
  ~ (48 <= x <= 57) -> forallb is_digit ds = true -> remove_char x ds = ds.
Proof.
  intros Hx. induction ds as [|d ds IH]; [reflexivity|]. cbn [forallb]. intros H.
  apply andb_prop in H. destruct H as [Hd Hds].
  unfold remove_char. cbn [filter]. fold (remove_char x ds). rewrite (IH Hds).
  unfold is_digit, in_range in Hd. apply andb_prop in Hd. destruct Hd as [H1 H2].
  apply Z.leb_le in H1. apply Z.leb_le in H2.
  replace (d =? x) with false by (symmetry; apply Z.eqb_neq; lia).
  reflexivity.
Qed.

Lemma no_letter_in_digits (x : Z) (ds : list Z) :
  ~ (48 <= x <= 57) -> forallb is_digit ds = true -> existsb (Z.eqb x) ds = false.
Proof.
  intros Hx. induction ds as [|d ds IH]; [reflexivity|]. cbn [forallb existsb]. intros H.
  apply andb_prop in H. destruct H as [Hd Hds]. rewrite (IH Hds).
  unfold is_digit, in_range in Hd. apply andb_prop in Hd. destruct Hd as [H1 H2].
  apply Z.leb_le in H1. apply Z.leb_le in H2.
  replace (x =? d) with false by (symmetry; apply Z.eqb_neq; lia).
  reflexivity.
Qed.

Lemma count_text_marked (u : Z -> list Z) (parts : list (list Z)) (ds : list Z) (m : Z) :
  nth 1 parts [] = (ds ++ [m])%list -> forallb is_digit ds = true ->
  m = 72 \/ m = 104 ->
  count_text u parts = ds /\ count_base ds = 10.
Proof.
  intros Hf Hds Hm. split.
  - unfold count_text. rewrite Hf.
    assert (Hsp : is_space m = false) by (destruct Hm as [-> | ->]; reflexivity).
    assert (Hstrip : str_strip (ds ++ [m])%list = (ds ++ [m])%list).
    { unfold str_strip.
      rewrite (lstrip_id (ds ++ [m])%list).
      - rewrite rev_app_distr. cbn [rev app]. cbn [lstrip]. rewrite Hsp.
        change (m :: rev ds) with ([m] ++ rev ds)%list.
        rewrite rev_app_distr, rev_involutive. reflexivity.
      - intros c t Hc. destruct ds as [|d ds'].
        + cbn in Hc. injection Hc as <- _. exact Hsp.
        + cbn in Hc. injection Hc as <- _. cbn [forallb] in Hds.
          apply andb_prop in Hds. apply digit_not_space. apply Hds. }
    rewrite Hstrip.
    assert (Hup : str_upper u (ds ++ [m])%list = (ds ++ [72])%list).
    { unfold str_upper. rewrite flat_map_app. fold (str_upper u ds).
      rewrite (str_upper_digits u ds Hds). destruct Hm as [-> | ->]; reflexivity. }
    rewrite Hup. unfold remove_char at 2. rewrite filter_app.
    fold (remove_char 72 ds). rewrite (remove_char_digits 72 ds ltac:(lia) Hds).
    cbn [filter Z.eqb negb]. rewrite app_nil_r.
    apply remove_char_digits; [lia|exact Hds].
  - unfold count_base. cbn [existsb].
    rewrite !(no_letter_in_digits _ ds) by (lia || exact Hds). reflexivity.
Qed.

(** X23: a count that carries the hexadecimal marker but only decimal
    digits is read in base 10.  When the count field is a run of digits
    0-9 followed by [H] or [h], the text handed to [int] is the digits and
    the base is 10, so the count of the result is [int(digits, 10)] (absent
    when [int] rejects it): the marker is dropped and plays no part in the
    choice of the base. *)
Theorem encoder_count_marker_ignored
    (unicode_upper : Z -> list Z) (py_int : list Z -> Z -> result Z)
    (channel : Z) (resp : string) (ds : list Z) (m : Z) :
  let parts := status_fields (reply_text resp) in
  (2 <= List.length parts)%nat ->
  nth 1 parts [] = (ds ++ [m])%list ->
  forallb is_digit ds = true ->
  m = 72 \/ m = 104 ->
  count_text unicode_upper parts = ds
  /\ count_base (count_text unicode_upper parts) = 10
  /\ st_count (encoder_status_parse unicode_upper py_int channel resp)
     = match py_int ds 10 with Ok n => Some n | Err _ => None end.
Proof.
  intros parts Hlen Hf Hds Hm.
  destruct (count_text_marked unicode_upper parts ds m Hf Hds Hm) as [Hct Hcb].
  split; [exact Hct|]. split; [rewrite Hct; exact Hcb|].
  unfold encoder_status_parse. fold parts.
  replace (2 <=? List.length parts)%nat with true by (symmetry; apply Nat.leb_le; exact Hlen).
  rewrite Hct, Hcb. destruct (py_int ds 10); reflexivity.
Qed.

Lemma encoder_count_marker_ignored_witness :
  count_text caseless (status_fields (reply_text "*D0,0010H,F")) = [48; 48; 49; 48]
  /\ count_base (count_text caseless (status_fields (reply_text "*D0,0010H,F"))) = 10
  /\ st_count (encoder_status_parse caseless plain_int 0 "*D0,0010H,F")
     = match plain_int [48; 48; 49; 48] 10 with Ok n => Some n | Err _ => None end.
Proof.
  apply (encoder_count_marker_ignored caseless plain_int 0 "*D0,0010H,F"
           [48; 48; 49; 48] 72).
  - vm_compute. lia.
  - reflexivity.
  - reflexivity.
  - left. reflexivity.
Defined.

(** ** Raw PWM data *)

(** X24: the raw PWM data command checks the value before the channels.  A
    value outside 0x0000..0x03FF raises a validation error with nothing
    sent, also when the channel selection is bad; a rejected selection
    raises with nothing sent; otherwise the command sends [*C HH 0 DDDD#]
    once per selected channel, in ascending channel order without
    repetition, with the same data field in each, and returns these
    frames. *)
Theorem pwm_data_raw_frames (channels : selector) (dddd : Z) (h : handle) :
  (~ 0x0000 <= dddd <= 0x03FF ->
   fst (cmd_pwm_set_data_raw channels dddd h) = h
   /\ is_value_error (snd (cmd_pwm_set_data_raw channels dddd h)) = true)
  /\ (0x0000 <= dddd <= 0x03FF ->
      (forall e, _normalize_channels channels 7 = Err e ->
         cmd_pwm_set_data_raw channels dddd h = (h, Err e))
      /\ (forall l, _normalize_channels channels 7 = Ok l ->
            Sorted Z.lt l
            /\ cmd_pwm_set_data_raw channels dddd h
               = (sent h (map (fun ch => frame "C" ch 0x0 dddd) l),
                  Ok (map (fun ch => frame "C" ch 0x0 dddd) l)))).
Proof.
  split.
  - intros H. unfold cmd_pwm_set_data_raw.
    replace (in_range 0 dddd 1023) with false by (symmetry; apply in_range_false; exact H).
    split; reflexivity.
  - intros H. unfold cmd_pwm_set_data_raw.
    replace (in_range 0 dddd 1023) with true by (symmetry; apply in_range_true; exact H).
    cbn [negb]. split.
    + intros e He. unfold bind, lift. rewrite He. reflexivity.
    + intros l Hl. split; [exact (normalize_sorted channels 7 l Hl)|].
      unfold bind at 1, lift at 1. rewrite Hl.
      apply (for_each_frames (fun ch => _fmt_cmd "C" ch 0x0 dddd)
               (fun ch => frame "C" ch 0x0 dddd)).
      intros ch Hch. pose proof (normalize_in_range channels 7 l Hl) as R.
      rewrite Forall_forall in R. specialize (R ch Hch).
      apply fmt_cmd_frame; lia.
Qed.

Lemma pwm_data_raw_frames_witness :
  Sorted Z.lt [1; 2; 6]
  /\ cmd_pwm_set_data_raw (SelIter [ItemInt 6; ItemInt 1; ItemInt 2; ItemInt 6]) 0x01FF
       (mkHandle [] [])
     = (sent (mkHandle [] []) (map (fun ch => frame "C" ch 0x0 0x01FF) [1; 2; 6]),
        Ok (map (fun ch => frame "C" ch 0x0 0x01FF) [1; 2; 6])).
Proof.
  apply (proj2 (proj2 (pwm_data_raw_frames
                         (SelIter [ItemInt 6; ItemInt 1; ItemInt 2; ItemInt 6]) 0x01FF
                         (mkHandle [] [])) ltac:(lia)) [1; 2; 6]).
  reflexivity.
Defined.

(** ** The duty command end to end *)

Lemma normalize_error_tag (chs : selector) (max_ch : Z) (e : exn) :
  _normalize_channels chs max_ch = Err e ->
  e = ValueError "CH spec" \/ e = ValueError "CH out of range".
Proof.
  assert (Hconv : forall xs,
    match ints_of_items xs with
    | None => Err (ValueError "CH spec")
    | Some l => _ <- check_channels max_ch (sorted_set l) ;; Ok (sorted_set l)
    end = Err e ->
    e = ValueError "CH spec" \/ e = ValueError "CH out of range").
  { intros xs. destruct (ints_of_items xs) as [l|].
    - pose proof (check_channels_err max_ch (sorted_set l)) as Hc.
      destruct (check_channels max_ch (sorted_set l)) as [[]|e'] eqn:E; cbn [rbind].
      + discriminate.
      + intros H. injection H as <-. right.
        revert E. generalize (sorted_set l). intros l0. induction l0 as [|c l0 IH]; cbn.
        * discriminate.
        * destruct (negb ((0 <=? c) && (c <=? max_ch))); [intros H; injection H as <-; reflexivity|exact IH].
    - intros H. injection H as <-. left. reflexivity. }
  unfold _normalize_channels. destruct chs as [s|n|xs|].
  - destruct (String.eqb (str_lower s) "all"); [discriminate|apply Hconv].
  - apply Hconv.
  - apply Hconv.
  - intros H. injection H as <-. left. reflexivity.
Qed.

Lemma cmd_pwm_set_data_raw_run (channels : selector) (dddd : Z) (h : handle) :
  0x0000 <= dddd <= 0x03FF ->
  cmd_pwm_set_data_raw channels dddd h
  = match _normalize_channels channels 7 with
    | Ok chs => (sent h (map (fun ch => frame "C" ch 0x0 dddd) chs),
                 Ok (map (fun ch => frame "C" ch 0x0 dddd) chs))
    | Err e => (h, Err e)
    end.
Proof.
  intros H. unfold cmd_pwm_set_data_raw.
  replace (in_range 0 dddd 1023) with true by (symmetry; apply in_range_true; exact H).
  cbn [negb]. unfold bind at 1, lift at 1.
  destruct (_normalize_channels channels 7) as [l|e] eqn:Hl; [|reflexivity].
  apply (for_each_frames (fun ch => _fmt_cmd "C" ch 0x0 dddd)
           (fun ch => frame "C" ch 0x0 dddd)).
  intros ch Hch. pose proof (normalize_in_range channels 7 l Hl) as R.
  rewrite Forall_forall in R. specialize (R ch Hch).
  apply fmt_cmd_frame; lia.
Qed.

(** C10: for every duty that passes the guard [0.0 <= duty <= 1.0],
    [cmd_pwm_set_duty] computes a raw code, the code lies in
    [0x0000, 0x03FF], and in [0x0001, 0x03FE] when the duty is strictly
    between 0.0 and 1.0.  The command then is [cmd_pwm_set_data_raw] on
    that code and never ends in its range-check error: on an accepted
    channel selection it sends [*C HH 0 code#] for each channel and returns
    the frames, and on a rejected selection it ends, with nothing sent, in
    the error of the selection. *)
Theorem pwm_duty_code_in_range (d : float) :
  (0 <=? d)%float && (d <=? 1)%float = true ->
  exists code,
    pwm_duty_code d = Ok code
    /\ 0x0000 <= code <= 0x03FF
    /\ ((0 <? d)%float && (d <? 1)%float = true -> 0x0001 <= code <= 0x03FE)
    /\ (forall channels h,
          cmd_pwm_set_duty channels d h = cmd_pwm_set_data_raw channels code h
          /\ snd (cmd_pwm_set_duty channels d h) <> Err (ValueError "DDDD 0x0000..0x03FF")
          /\ (forall chs, _normalize_channels channels 7 = Ok chs ->
                cmd_pwm_set_duty channels d h
                = (sent h (map (fun ch => frame "C" ch 0x0 code) chs),
                   Ok (map (fun ch => frame "C" ch 0x0 code) chs)))
          /\ (forall e, _normalize_channels channels 7 = Err e ->
                cmd_pwm_set_duty channels d h = (h, Err e))).
Proof.
  intros H. apply andb_true_iff in H. destruct H as [H0 H1].
  destruct (pwm_duty_code_ok d H0 H1) as [code [Hc [Hr Hs]]]. exists code.
  split; [exact Hc|]. split; [lia|]. split; [intros; apply Hs; assumption|].
  intros channels h.
  assert (Hd : cmd_pwm_set_duty channels d h = cmd_pwm_set_data_raw channels code h).
  { unfold cmd_pwm_set_duty, bind, lift. rewrite Hc. reflexivity. }
  split; [exact Hd|]. rewrite Hd, cmd_pwm_set_data_raw_run by lia.
  destruct (_normalize_channels channels 7) as [chs|e] eqn:E.
  - split; [discriminate|]. split; [|discriminate].
    intros chs' Hchs. injection Hchs as <-. reflexivity.
  - split.
    + cbn [snd]. destruct (normalize_error_tag channels 7 e E) as [-> | ->]; discriminate.
    + split; [discriminate|]. intros e' He. injection He as <-. reflexivity.
Qed.

Lemma pwm_duty_code_in_range_witness :
  exists code,
    pwm_duty_code 1 = Ok code
    /\ 0x0000 <= code <= 0x03FF
    /\ ((0 <? 1)%float && (1 <? 1)%float = true -> 0x0001 <= code <= 0x03FE)
    /\ (forall channels h,
          cmd_pwm_set_duty channels 1 h = cmd_pwm_set_data_raw channels code h
          /\ snd (cmd_pwm_set_duty channels 1 h) <> Err (ValueError "DDDD 0x0000..0x03FF")
          /\ (forall chs, _normalize_channels channels 7 = Ok chs ->
                cmd_pwm_set_duty channels 1 h
                = (sent h (map (fun ch => frame "C" ch 0x0 code) chs),
                   Ok (map (fun ch => frame "C" ch 0x0 code) chs)))
          /\ (forall e, _normalize_channels channels 7 = Err e ->
                cmd_pwm_set_duty channels 1 h = (h, Err e))).
Proof.
  apply (pwm_duty_code_in_range 1%float). reflexivity.
Defined.

(** ** The GPIO read, on the reply as received *)

Ltac zcases :=
  repeat match goal with
         | |- context [?a <=? ?b] => destruct (Z.leb_spec a b); try lia
         | |- context [?a <? ?b] => destruct (Z.ltb_spec a b); try lia
         | |- context [?a =? ?b] => destruct (Z.eqb_spec a b); try lia
         end.

Lemma hex_cp_range (c : Z) :
  is_hex_cp c = true <-> (48 <= c <= 57 \/ 65 <= c <= 70 \/ 97 <= c <= 102).
Proof.
  unfold is_hex_cp. rewrite !orb_true_iff, !in_range_true. tauto.
Qed.

Lemma space_not_hex (c : Z) : is_space c = true -> is_hex_cp c = false.
Proof.
  intros Hs. destruct (is_hex_cp c) eqn:E; [|reflexivity].
  apply hex_cp_range in E. exfalso. revert Hs.
  unfold is_space, in_range. zcases; cbn; discriminate.
Qed.

Lemma lstrip_spaces (s : list Z) :
  exists p, s = (p ++ lstrip s)%list /\ forallb is_space p = true.
Proof.
  induction s as [|c s [p [IH Hp]]]; cbn [lstrip].
  - exists []. split; reflexivity.
  - destruct (is_space c) eqn:E.
    + exists (c :: p). cbn [forallb app]. rewrite E, Hp, <- IH. split; reflexivity.
    + exists []. split; reflexivity.
Qed.

Lemma filter_spaces (p : list Z) : forallb is_space p = true -> filter is_hex_cp p = [].
Proof.
  induction p as [|c p IH]; [reflexivity|]. cbn [forallb filter]. intros H.
  apply andb_prop in H. destruct H as [Hc Hp].
  rewrite (space_not_hex c Hc). apply IH, Hp.
Qed.

Lemma filter_hex_lstrip (s : list Z) : filter is_hex_cp (lstrip s) = filter is_hex_cp s.
Proof.
  destruct (lstrip_spaces s) as [p [E Hp]]. rewrite E at 2.
  rewrite filter_app, (filter_spaces p Hp). reflexivity.
Qed.

Lemma filter_hex_strip (s : list Z) : filter is_hex_cp (str_strip s) = filter is_hex_cp s.
Proof.
  unfold str_strip. rewrite filter_rev, filter_hex_lstrip, filter_rev, rev_involutive.
  apply filter_hex_lstrip.
Qed.

Lemma forallb_substring (P : Z -> bool) (f s : list Z) :
  substring f s -> forallb P s = true -> forallb P f = true.
Proof.
  intros [a [b ->]] H. rewrite !forallb_app in H.
  apply andb_prop in H. destruct H as [_ H]. apply andb_prop in H. apply H.
Qed.

(** Upper-casing and then keeping 0-9A-F is keeping 0-9A-Fa-f and then
    upper-casing, as long as no character above U+007F brings such a
    character in. *)
Lemma upper_then_hex (u : Z -> list Z) (t : list Z) :
  forallb (fun c => (c <? 128) || negb (existsb is_hex_upper_cp (u c))) t = true ->
  filter is_hex_upper_cp (str_upper u t) = map ascii_up (filter is_hex_cp t).
Proof.
  induction t as [|c t IH]; [reflexivity|]. cbn [forallb]. intros H.
  apply andb_prop in H. destruct H as [Hc Ht].
  unfold str_upper. cbn [flat_map]. fold (str_upper u t).
  rewrite filter_app, (IH Ht). cbn [filter].
  destruct (in_range 97 c 122) eqn:E1.
  - apply in_range_true in E1. cbn [filter].
    destruct (is_hex_cp c) eqn:E2.
    + apply hex_cp_range in E2.
      replace (is_hex_upper_cp (c - 32)) with true
        by (symmetry; unfold is_hex_upper_cp; apply orb_true_iff; right;
            apply in_range_true; lia).
      cbn [map app]. unfold ascii_up.
      replace (in_range 97 c 122) with true by (symmetry; apply in_range_true; lia).
      reflexivity.
    + replace (is_hex_upper_cp (c - 32)) with false; [reflexivity|].
      symmetry. destruct (is_hex_upper_cp (c - 32)) eqn:E3; [|reflexivity].
      unfold is_hex_upper_cp in E3. apply orb_true_iff in E3.
      rewrite !in_range_true in E3.
      assert (E4 : is_hex_cp c = true) by (apply hex_cp_range; lia).
      congruence.
  - apply in_range_false in E1. destruct (c <? 128) eqn:E0.
    + cbn [filter]. destruct (is_hex_cp c) eqn:E2.
      * apply hex_cp_range in E2.
        replace (is_hex_upper_cp c) with true
          by (symmetry; unfold is_hex_upper_cp; apply orb_true_iff;
              rewrite !in_range_true; lia).
        cbn [map app]. unfold ascii_up.
        replace (in_range 97 c 122) with false by (symmetry; apply in_range_false; lia).
        reflexivity.
      * replace (is_hex_upper_cp c) with false; [reflexivity|].
        symmetry. destruct (is_hex_upper_cp c) eqn:E3; [|reflexivity].
        unfold is_hex_upper_cp in E3. apply orb_true_iff in E3.
        rewrite !in_range_true in E3.
        assert (E4 : is_hex_cp c = true) by (apply hex_cp_range; lia).
        congruence.
    + cbn [orb] in Hc. apply negb_true_iff in Hc. apply Z.ltb_ge in E0.
      replace (is_hex_cp c) with false
        by (symmetry; destruct (is_hex_cp c) eqn:E2; [apply hex_cp_range in E2; lia|reflexivity]).
      replace (filter is_hex_upper_cp (u c)) with (@nil Z); [reflexivity|].
      symmetry. revert Hc. generalize (u c). intros l. induction l as [|x l IHl]; [reflexivity|].
      cbn [existsb filter]. intros Hx. apply orb_false_iff in Hx. destruct Hx as [Hx Hl].
      rewrite Hx. apply IHl, Hl.
Qed.

Lemma gpio_reply_hex_chars (u : Z -> list Z) (resp : string) :
  upper_adds_no_hex u resp = true ->
  gpio_reply_hex u resp = map ascii_up (reply_hex_chars resp).
Proof.
  unfold upper_adds_no_hex, gpio_reply_hex, reply_hex_chars. intros H.
  destruct resp as [|c r]; [reflexivity|].
  rewrite upper_then_hex, filter_hex_strip; [reflexivity|].
  exact (forallb_substring _ _ _ (str_strip_substring _) H).
Qed.

Lemma hex_value_ascii_up (c : Z) : is_hex_cp c = true -> hex_value (ascii_up c) = hex_value c.
Proof.
  intros H. apply hex_cp_range in H. unfold ascii_up.
  destruct (in_range 97 c 122) eqn:E; [|reflexivity].
  apply in_range_true in E. unfold hex_value.
  replace (in_range 48 (c - 32) 57) with false by (symmetry; apply in_range_false; lia).
  replace (in_range 65 (c - 32) 70) with true by (symmetry; apply in_range_true; lia).
  replace (in_range 48 c 57) with false by (symmetry; apply in_range_false; lia).
  replace (in_range 65 c 70) with false by (symmetry; apply in_range_false; lia).
  replace (in_range 97 c 102) with true by (symmetry; apply in_range_true; lia).
  f_equal. lia.
Qed.

(** The reply [EF AC 80 0A] holds no hexadecimal character, and yet the
    value read from it is 255: the text is the ligature U+FB00, which
    [str.upper] turns into the two letters FF. *)
Lemma gpio_read_ligature_not_sentinel :
  (List.length (reply_hex_chars ligature_reply) < 2)%nat
  /\ reply_hex_chars ligature_reply = []
  /\ gpio_read_value ligature_upper ligature_reply = 255.
Proof. split; [cbv; lia|]. split; reflexivity. Qed.

(** C7: [cmd_gpio_read] returns normally on every transport state, hence on
    every reply (none, empty, unterminated, bytes that do not decode): it
    sends the frame [*D0000000#], reads one line and returns the frame, the
    parsed value and the raw reply; the value is the sentinel -1 or an
    8-bit number.  For a reply in which no character above U+007F
    upper-cases to text holding one of 0-9A-F (every ASCII reply is one):
    when the reply holds fewer than two hexadecimal characters (0-9, A-F,
    a-f) the value is -1; otherwise it is the number spelled by the last
    two of them. *)
Theorem gpio_read_never_raises (unicode_upper : Z -> list Z) (h : handle) :
  cmd_gpio_read unicode_upper h
    = (sent h ["*D0000000#"],
       Ok ("*D0000000#", gpio_read_value unicode_upper (hd "" (pending h)),
           hd "" (pending h)))
  /\ (forall resp,
        gpio_read_value unicode_upper resp = -1
        \/ 0 <= gpio_read_value unicode_upper resp <= 0xFF)
  /\ (forall resp,
        upper_adds_no_hex unicode_upper resp = true ->
        (List.length (reply_hex_chars resp) < 2)%nat ->
        gpio_read_value unicode_upper resp = -1)
  /\ (forall resp s a b,
        upper_adds_no_hex unicode_upper resp = true ->
        reply_hex_chars resp = (s ++ [a; b])%list ->
        exists da db,
          hex_value a = Some da /\ hex_value b = Some db
          /\ gpio_read_value unicode_upper resp = 16 * da + db).
Proof.
  split; [|split; [|split]].
  - unfold cmd_gpio_read, bind, lift, _write_ascii, _readline, ret, sent. simpl.
    destruct (pending h); reflexivity.
  - intros resp.
    destruct (2 <=? List.length (gpio_reply_hex unicode_upper resp))%nat eqn:E.
    + right. apply Nat.leb_le in E. destruct (split_last_two _ E) as [s [a [b E2]]].
      destruct (gpio_read_value_last_two unicode_upper resp s a b E2)
        as [da [db [_ [_ [Ra [Rb ->]]]]]].
      lia.
    + left. unfold gpio_read_value. rewrite E. reflexivity.
  - intros resp Hu H. unfold gpio_read_value.
    rewrite (gpio_reply_hex_chars unicode_upper resp Hu), length_map.
    replace (2 <=? List.length (reply_hex_chars resp))%nat with false
      by (symmetry; apply Nat.leb_gt; lia).
    reflexivity.
  - intros resp s a b Hu E.
    pose proof (gpio_reply_hex_chars unicode_upper resp Hu) as Hg.
    rewrite E, map_app in Hg. cbn [map] in Hg.
    destruct (gpio_read_value_last_two unicode_upper resp _ _ _ Hg)
      as [da [db [Ea [Eb [_ [_ Ev]]]]]].
    assert (Hab : is_hex_cp a = true /\ is_hex_cp b = true).
    { assert (Hin : forall x, In x (reply_hex_chars resp) -> is_hex_cp x = true).
      { intros x Hx. unfold reply_hex_chars in Hx. apply filter_In in Hx. apply Hx. }
      rewrite E in Hin. split; apply Hin; apply in_or_app; right; cbn; auto. }
    destruct Hab as [Ha Hb].
    rewrite hex_value_ascii_up in Ea, Eb by assumption.
    exists da, db. auto.
Qed.

Lemma gpio_read_never_raises_witness :
  gpio_read_value caseless "x7" = -1
  /\ (exists da db,
        hex_value 97 = Some da /\ hex_value 53 = Some db
        /\ gpio_read_value caseless "*D0000a5#" = 16 * da + db).
Proof.
  split.
  - apply (proj1 (proj2 (proj2 (gpio_read_never_raises caseless (mkHandle [] [])))) "x7").
    + reflexivity.
    + vm_compute. lia.
  - apply (proj2 (proj2 (proj2 (gpio_read_never_raises caseless (mkHandle [] []))))
             "*D0000a5#" [68; 48; 48; 48; 48] 97 53).
    + reflexivity.
    + reflexivity.
Defined.

(** ** Inputs out of contract are rejected before anything is written *)






(** *** Selectors *)














(** *** The commands one by one *)






















(** *** The status fields from the text of the reply *)

Lemma split_on_prefix (sep : Z) (p rest : list Z) :
  ~ In sep p -> split_on sep (p ++ sep :: rest) = p :: split_on sep rest.
Proof.
  induction p as [|c p IH]; intros Hn.
  - cbn [app split_on]. rewrite Z.eqb_refl. reflexivity.
  - cbn [app split_on].
    replace (c =? sep) with false
      by (symmetry; apply Z.eqb_neq; intros ->; apply Hn; left; reflexivity).
    rewrite IH by (intros H; apply Hn; right; exact H). reflexivity.
Qed.

Lemma split_on_whole (sep : Z) (p : list Z) : ~ In sep p -> split_on sep p = [p].
Proof.
  induction p as [|c p IH]; intros Hn; [reflexivity|].
  cbn [split_on].
  replace (c =? sep) with false
    by (symmetry; apply Z.eqb_neq; intros ->; apply Hn; left; reflexivity).
  rewrite IH by (intros H; apply Hn; right; exact H). reflexivity.
Qed.

(** Splitting undoes joining. *)
Lemma split_join (sep : Z) (pieces : list (list Z)) :
  pieces <> [] -> Forall (fun p => ~ In sep p) pieces ->
  split_on sep (join_on sep pieces) = pieces.
Proof.
  induction pieces as [|p rest IH]; intros Hne HF; [contradiction|].
  inversion HF as [|? ? Hp Hrest]; subst. cbn [join_on].
  destruct rest as [|q rest'].
  - apply split_on_whole, Hp.
  - rewrite split_on_prefix by exact Hp. rewrite IH by (discriminate || exact Hrest).
    reflexivity.
Qed.

Lemma parse_raw (u : Z -> list Z) (pi : list Z -> Z -> result Z) (channel : Z) (resp : string) :
  st_raw (encoder_status_parse u pi channel resp) = reply_text resp.
Proof.
  unfold encoder_status_parse. destruct (2 <=? _)%nat; [|reflexivity].
  destruct (pi _ _); reflexivity.
Qed.

Lemma status_fields_join (txt : list Z) (pieces : list (list Z)) :
  pieces <> [] -> Forall (fun p => ~ In 44 p) pieces ->
  txt = ([42; 68] ++ join_on 44 pieces)%list
  \/ (txt = join_on 44 pieces /\ forall t, txt <> 42 :: 68 :: t) ->
  status_fields txt = filter nonempty pieces.
Proof.
  intros Hne HF [->|[-> Hp]]; unfold status_fields.
  - cbn [app]. rewrite !Z.eqb_refl. cbn [andb]. rewrite split_join by assumption. reflexivity.
  - destruct (join_on 44 pieces) as [|a [|b rest]] eqn:E;
      try (rewrite <- E, split_join by assumption; reflexivity).
    destruct ((a =? 42) && (b =? 68)) eqn:Eab.
    + apply andb_prop in Eab. destruct Eab as [Ea Eb].
      apply Z.eqb_eq in Ea, Eb. subst. exfalso. apply (Hp rest). reflexivity.
    + rewrite <- E, split_join by assumption. reflexivity.
Qed.

(** X21: the parsed fields from the text of the reply.  Let the stripped
    reply "raw" be [*D] followed by pieces joined by commas (or the pieces
    alone, when it does not start with [*D]), no piece holding a comma.
    The fields are the non-empty pieces in order; the first is skipped,
    the second is the count, then come "dir", "ovf" and "ae".  With fewer
    than two fields nothing is parsed.  The count is [int] of the second
    field stripped, upper-cased and freed of [H] and [#], in base 16 when
    this text holds one of A-F and in base 10 otherwise.  When [int]
    rejects it, the count, "dir", "ovf" and "ae" are all absent, also when
    the reply carries them; when [int] accepts it, "dir", "ovf" and "ae"
    are the third, fourth and fifth field, stripped ("ae" also of trailing
    [#]), each absent when the reply has no such field. *)
Theorem encoder_status_fields
    (unicode_upper : Z -> list Z) (py_int : list Z -> Z -> result Z)
    (channel : Z) (resp : string) (pieces : list (list Z)) :
  let r := encoder_status_parse unicode_upper py_int channel resp in
  pieces <> [] -> Forall (fun p => ~ In 44 p) pieces ->
  st_raw r = ([42; 68] ++ join_on 44 pieces)%list
  \/ (st_raw r = join_on 44 pieces /\ forall t, st_raw r <> 42 :: 68 :: t) ->
  match filter nonempty pieces with
  | _ :: c :: rest =>
      let pc := remove_char 35 (remove_char 72 (str_upper unicode_upper (str_strip c))) in
      match py_int pc (count_base pc) with
      | Ok n =>
          st_count r = Some n
          /\ st_dir r = option_map str_strip (nth_error rest 0)
          /\ st_ovf r = option_map str_strip (nth_error rest 1)
          /\ st_ae r = option_map (fun f => rstrip_char 35 (str_strip f)) (nth_error rest 2)
      | Err _ => nothing_parsed r
      end
  | _ => nothing_parsed r
  end.
Proof.
  intros r Hne HF Hraw. subst r. rewrite parse_raw in Hraw.
  pose proof (status_fields_join (reply_text resp) pieces Hne HF Hraw) as Hf.
  unfold nothing_parsed, encoder_status_parse. rewrite Hf.
  destruct (filter nonempty pieces) as [|f0 [|c rest]].
  - repeat split.
  - repeat split.
  - cbn [List.length Nat.leb]. unfold count_text. cbn [nth].
    destruct (py_int _ _) as [n|e]; cbn [rbind st_count st_dir st_ovf st_ae].
    + split; [reflexivity|]. destruct rest as [|d [|o [|a rest']]]; repeat split.
    + repeat split.
Qed.

Lemma encoder_status_fields_witness :
  nothing_parsed (encoder_status_parse caseless plain_int 1 "*D0,,1x2,R,0,1").
Proof.
  apply (encoder_status_fields caseless plain_int 1 "*D0,,1x2,R,0,1"
           [[48]; []; [49; 120; 50]; [82]; [48]; [49]]).
  - discriminate.
  - repeat constructor; cbn; intros H; repeat (destruct H as [H|H]; [discriminate H|]);
      exact H.
  - left. reflexivity.
Defined.
